(** * eSoc_monitoring: remote health checks, their parsers and classifiers

    A shallow embedding of the check modules of [eSoc_monitoring]
    ([checks/boundary.py], [checks/nelmon_check.py], [checks/k8s_dis_nci.py])
    and of the aggregator ([main.py]), with the properties of its
    specification stated and proved over the embedding.

    Conventions.
    - A Python [str] is a [text]: a list of characters, each an 8-bit code
      point ([ascii]); the predicates on characters ([str.isspace], the line
      boundaries of [str.splitlines], the digits of [\d]) are those of
      Python on that range.
    - A Python exception is a value [exn] (its class and its [str(e)]); code
      that can raise returns an [outcome].
    - Everything outside the process (the SSH transport, the file system, the
      clock) is an oracle passed as an argument. *)

From Stdlib Require Import ZArith List String Ascii Bool Lia QArith.
From Stdlib Require Import DecimalString.
Import ListNotations.

Local Open Scope Z_scope.
Local Open Scope list_scope.

(* ================================================================== *)
(** * Python primitives *)
(* ================================================================== *)

Module Py.

Definition text := list ascii.

(** A literal: [T "abc"] is the text [a; b; c]. *)
Definition T (s : string) : text := list_ascii_of_string s.

Definition code (c : ascii) : N := N_of_ascii c.

Definition chr (n : N) : ascii := ascii_of_N n.

Definition LF : ascii := chr 10.
Definition CR : ascii := chr 13.

Fixpoint text_eqb (a b : text) : bool :=
  match a, b with
  | [], [] => true
  | x :: a', y :: b' => Ascii.eqb x y && text_eqb a' b'
  | _, _ => false
  end.

Definition is_empty (t : text) : bool :=
  match t with [] => true | _ => false end.

(** [str.isspace] on one character of the 8-bit range. *)
Definition is_space (c : ascii) : bool :=
  let n := code c in
  ((9 <=? n) && (n <=? 13) || (28 <=? n) && (n <=? 32)
   || (n =? 133) || (n =? 160))%N.

(** The line boundaries of [str.splitlines] on the 8-bit range:
    LF, VT, FF, CR, FS, GS, RS and NEL. *)
Definition is_linebreak (c : ascii) : bool :=
  let n := code c in
  ((10 <=? n) && (n <=? 13) || (28 <=? n) && (n <=? 30) || (n =? 133))%N.

Definition is_digit (c : ascii) : bool :=
  let n := code c in ((48 <=? n) && (n <=? 57))%N.

(** ASCII lower-casing, the case folding of [re.IGNORECASE] for the letters
    the patterns of this program contain. *)
Definition lower (c : ascii) : ascii :=
  let n := code c in
  if ((65 <=? n) && (n <=? 90))%N then chr (n + 32) else c.

Fixpoint dropwhile (p : ascii -> bool) (t : text) : text :=
  match t with
  | [] => []
  | c :: t' => if p c then dropwhile p t' else t
  end.

Definition lstrip (t : text) : text := dropwhile is_space t.
Definition rstrip (t : text) : text := rev (dropwhile is_space (rev t)).
Definition strip (t : text) : text := rstrip (lstrip t).

(** [t.lstrip(chars)] and [t.rstrip(chars)] for a one-character [chars]. *)
Definition lstrip_char (c : ascii) (t : text) : text :=
  dropwhile (Ascii.eqb c) t.
Definition rstrip_char (c : ascii) (t : text) : text :=
  rev (dropwhile (Ascii.eqb c) (rev t)).

(** [str.splitlines()]: the lines of a text without their boundaries; a
    CR LF pair is one boundary, and a text that ends in a boundary has no
    empty last line. *)
Fixpoint splitlines (t : text) : list text :=
  match t with
  | [] => []
  | c :: t' =>
    if Ascii.eqb c CR then
      match t' with
      | c' :: t'' => if Ascii.eqb c' LF then [] :: splitlines t''
                     else [] :: splitlines t'
      | [] => [] :: splitlines t'
      end
    else if is_linebreak c then [] :: splitlines t'
    else match splitlines t' with
         | [] => [[c]]
         | l :: ls => (c :: l) :: ls
         end
  end.

(** [sep.join(parts)]. *)
Fixpoint join (sep : text) (parts : list text) : text :=
  match parts with
  | [] => []
  | [p] => p
  | p :: ps => p ++ sep ++ join sep ps
  end.

Fixpoint startswith (p t : text) : bool :=
  match p, t with
  | [], _ => true
  | x :: p', y :: t' => Ascii.eqb x y && startswith p' t'
  | _ :: _, [] => false
  end.

Definition endswith (p t : text) : bool := startswith (rev p) (rev t).

(** The rest of [t] after the prefix [p]. *)
Fixpoint strip_prefix (p t : text) : option text :=
  match p, t with
  | [], _ => Some t
  | x :: p', y :: t' => if Ascii.eqb x y then strip_prefix p' t' else None
  | _ :: _, [] => None
  end.

(** [p in t] for strings. *)
Fixpoint contains (p t : text) : bool :=
  startswith p t || match t with [] => false | _ :: t' => contains p t' end.

(** [t.split(c)] for a one-character separator. *)
Fixpoint split_char (c : ascii) (t : text) : list text :=
  match t with
  | [] => [[]]
  | x :: t' =>
    if Ascii.eqb x c then [] :: split_char c t'
    else match split_char c t' with
         | [] => [[x]]
         | l :: ls => (x :: l) :: ls
         end
  end.

(** [span p t]: the longest prefix of [t] whose characters satisfy [p], and
    the rest. *)
Fixpoint span (p : ascii -> bool) (t : text) : text * text :=
  match t with
  | [] => ([], [])
  | c :: t' =>
    if p c then let (a, b) := span p t' in (c :: a, b) else ([], t)
  end.

Definition all_digits (t : text) : bool := forallb is_digit t.

(** The value of a run of decimal digits. *)
Definition digit_val (c : ascii) : Z := Z.of_N (code c) - 48.

Definition dec (t : text) : Z :=
  fold_left (fun acc c => 10 * acc + digit_val c) t 0.

(** [str(n)] for an integer. *)
Definition str_of_Z (z : Z) : text :=
  T (NilZero.string_of_int (Z.to_int z)).

(** ** Scanners

    The regular expressions of the checks are sequences of runs of one
    character class, each followed by a character of another class, so that
    a greedy run has one way to match: the longest.  A scanner consumes such
    a run from the front of the text. *)
Definition scanner (A : Type) : Type := text -> option (A * text).

(** [\S+] *)
Definition nonspace1 : scanner text := fun t =>
  let (w, r) := span (fun c => negb (is_space c)) t in
  if is_empty w then None else Some (w, r).

(** [\s+] *)
Definition space1 : scanner unit := fun t =>
  let (w, r) := span is_space t in
  if is_empty w then None else Some (tt, r).

(** [\d+] *)
Definition digits1 : scanner text := fun t =>
  let (w, r) := span is_digit t in
  if is_empty w then None else Some (w, r).

(** A literal text. *)
Definition literal (p : text) : scanner text := fun t =>
  match strip_prefix p t with
  | Some r => Some (p, r)
  | None => None
  end.

(** [\s*$] *)
Definition spaces_to_end (t : text) : bool := forallb is_space t.

Definition sbind {A B} (m : scanner A) (k : A -> scanner B) : scanner B :=
  fun t => match m t with
           | Some (a, r) => k a r
           | None => None
           end.

(** [s.replace("'", "'\"'\"'")]: each single quote becomes the five
    characters quote, double quote, quote, double quote, quote. *)
Definition DQ : ascii := chr 34.
Definition SQ : ascii := chr 39.

Definition escape_quotes (t : text) : text :=
  flat_map (fun c => if Ascii.eqb c SQ then [SQ; DQ; SQ; DQ; SQ] else [c]) t.

(** [quote_for_bash] of [nelmon_check.py] and [k8s_dis_nci.py]. *)
Definition quote_for_bash (cmd : text) : text :=
  [SQ] ++ escape_quotes cmd ++ [SQ].

(** [shlex.quote]: a text of safe characters ([\w@%+=:,./-], ASCII) is left
    as it is. *)
Definition is_shell_safe (c : ascii) : bool :=
  let n := code c in
  ((48 <=? n) && (n <=? 57) || (65 <=? n) && (n <=? 90)
   || (97 <=? n) && (n <=? 122) || (n =? 95) || (n =? 64) || (n =? 37)
   || (n =? 43) || (n =? 61) || (n =? 58) || (n =? 44) || (n =? 46)
   || (n =? 47) || (n =? 45))%N.

Definition shlex_quote (t : text) : text :=
  if is_empty t then [SQ; SQ]
  else if forallb is_shell_safe t then t
  else [SQ] ++ escape_quotes t ++ [SQ].

(** ** Exceptions

    The classes the program tells apart: [TimeoutError] (of which
    [socket.timeout] is an alias), [RuntimeError], [KeyError], and any other
    subclass of [Exception].  [exn_msg] is [str(e)]. *)
Inductive exn_class := ETimeout | ERuntime | EKey | EOther.

Record exn := Exn { exn_cls : exn_class; exn_msg : text }.

Inductive outcome (A : Type) :=
| Ret (a : A)
| Raise (e : exn).

Arguments Ret {A} a.
Arguments Raise {A} e.

Definition bind {A B} (m : outcome A) (k : A -> outcome B) : outcome B :=
  match m with
  | Ret a => k a
  | Raise e => Raise e
  end.

(** [try: m  except Exception as e: h e]. *)
Definition try_except {A} (m : outcome A) (h : exn -> outcome A) : outcome A :=
  match m with
  | Ret a => Ret a
  | Raise e => h e
  end.

(** [try: m  except Exception: pass]. *)
Definition swallow (m : outcome unit) : unit := tt.

Definition is_timeout (e : exn) : bool :=
  match exn_cls e with ETimeout => true | _ => false end.

(** ** [int] and [float]

    [int(t)] on a run of decimal digits.  CPython refuses a text of more
    than [sys.int_info.default_max_str_digits] digits, leading zeros
    counted, with a [ValueError]. *)
Definition int_max_str_digits : Z := 4300.

Definition int_limit_error (digits : Z) : exn :=
  Exn EOther
    (T "Exceeds the limit (4300 digits) for integer string conversion: value has "
     ++ str_of_Z digits
     ++ T " digits; use sys.set_int_max_str_digits() to increase the limit").

Definition int_of_digits (t : text) : outcome Z :=
  let n := Z.of_nat (List.length t) in
  if int_max_str_digits <? n then Raise (int_limit_error n) else Ret (dec t).

(** The binary64 number nearest to a natural number, ties to even: the 53
    leading bits are kept and the rest is rounded. *)
Definition nearest_binary64 (a : Z) : Z :=
  let e := Z.log2 a - 52 in
  if e <=? 0 then a
  else
    let q := Z.shiftr a e in
    let rest := a - Z.shiftl q e in
    let half := Z.shiftl 1 (e - 1) in
    let q' := if (half <? rest) || ((rest =? half) && Z.odd q)
              then q + 1 else q in
    Z.shiftl q' e.

(** [float(n)] for an [int]: [OverflowError] when the nearest binary64 would
    be 2^1024 or more. *)
Definition float_of_int (n : Z) : outcome Q :=
  let r := nearest_binary64 (Z.abs n) in
  if 2 ^ 1024 <=? r
  then Raise (Exn EOther (T "int too large to convert to float"))
  else Ret (inject_Z (Z.sgn n * r)).

(** ** Text files

    A file opened in text mode without [newline]: on writing, each line feed
    becomes [os.linesep]; on reading, universal newlines turn CR LF and a
    lone CR into a line feed. *)
Definition write_newlines (linesep t : text) : text :=
  flat_map (fun c => if Ascii.eqb c LF then linesep else [c]) t.

Fixpoint universal_newlines (t : text) : text :=
  match t with
  | [] => []
  | c :: r =>
    if Ascii.eqb c CR then
      match r with
      | d :: r' =>
        if Ascii.eqb d LF then LF :: universal_newlines r'
        else LF :: universal_newlines r
      | [] => [LF]
      end
    else c :: universal_newlines r
  end.

(** What is read back from a file in which [content] was written, where
    the line separator of the platform is [linesep]. *)
Definition read_back (linesep content : text) : text :=
  universal_newlines (write_newlines linesep content).

(** ** [pathlib], POSIX flavour

    A path is its root (no slash, one, or exactly two) and its parts; empty
    parts and single dots are dropped. *)
Definition posix_root (t : text) : text :=
  if startswith (T "///") t then T "/"
  else if startswith (T "//") t then T "//"
  else if startswith (T "/") t then T "/"
  else [].

Definition posix_parts (t : text) : list text :=
  filter (fun p => negb (is_empty p || text_eqb p (T ".")))
    (split_char "/"%char t).

Definition posix_str (root : text) (parts : list text) : text :=
  match root, parts with
  | [], [] => T "."
  | _, _ => root ++ join (T "/") parts
  end.

(** [str(PurePosixPath(dir) / file)]. *)
Definition posix_join (dir file : text) : text :=
  if startswith (T "/") file
  then posix_str (posix_root file) (posix_parts file)
  else posix_str (posix_root dir) (posix_parts dir ++ posix_parts file).

(** [str(PurePosixPath(p).parent)]. *)
Definition posix_parent (p : text) : text :=
  posix_str (posix_root p) (removelast (posix_parts p)).

End Py.

Notation "x <~ m ;; k" := (Py.sbind m (fun x => k))
  (at level 61, m at next level, right associativity).
Notation "x <- m ;; k" := (Py.bind m (fun x => k))
  (at level 61, m at next level, right associativity).
Notation "' pat <- m ;; k" := (Py.bind m (fun x => match x with pat => k end))
  (at level 61, pat pattern, m at next level, right associativity).

(* ================================================================== *)
(** * The data model: checks/base.py, datetime, configuration *)
(* ================================================================== *)

Module Model.
Import Py.

(** The values of the [metrics] and [details] dictionaries. *)
#[warnings="-register-all"]
Inductive value :=
| VNone
| VStr (s : text)
| VInt (z : Z)
| VNum (q : Q)
| VList (l : list value)
| VDict (d : list (text * value)).

Definition dict := list (text * value).

Fixpoint dict_get (d : dict) (k : text) : option value :=
  match d with
  | [] => None
  | (k', v) :: d' => if text_eqb k' k then Some v else dict_get d' k
  end.

(** [d[k] = v]. *)
Fixpoint dict_set (d : dict) (k : text) (v : value) : dict :=
  match d with
  | [] => [(k, v)]
  | (k', v') :: d' =>
    if text_eqb k' k then (k', v) :: d' else (k', v') :: dict_set d' k v
  end.

(** [CheckResult] of [checks/base.py]; the class of the same name that
    [checks/boundary.py] declares for itself has no [name] field, which is
    [None] here. *)
Record CheckResult := {
  name : option text;
  status : text;
  metrics : dict;
  details : dict;
  raw_file : option text
}.

(** [result.details.get("error")]. *)
Definition error_of (r : CheckResult) : option value :=
  dict_get (details r) (T "error").

Definition OK : text := T "OK".
Definition WARN : text := T "WARN".
Definition FAIL : text := T "FAIL".

(** What [run] makes of its [try] block: the result of the block, or the
    FAIL result that carries the description of the exception. *)
Definition settles (block run : outcome CheckResult) : Prop :=
  exists res,
    run = Ret res
    /\ match block with
       | Ret r => res = r
       | Raise e =>
         status res = T "FAIL" /\ error_of res = Some (VStr (exn_msg e))
       end.

(** ** Configuration dictionaries

    A server profile of [config.SERVERS] and the [output_dirs] of [main]: a
    dictionary with known keys; a key that is absent is [None], and
    [d[key]] on it raises [KeyError]. *)
Record ssh_cfg := {
  label : option text;
  host : option text;
  port : option Z;
  user : option text;
  key_path : option text;
  password : option text;
  jump_target : option text
}.

Record output_dirs := {
  raw : option text;
  snapshots : option text;
  logs : option text
}.

(** [d[key]]. *)
Definition item {A} (key : string) (v : option A) : outcome A :=
  match v with
  | Some a => Ret a
  | None => Raise (Exn EKey (T "'" ++ T key ++ T "'"))
  end.

(** [d.get(key, default)]. *)
Definition get_default {A} (v : option A) (default : A) : A :=
  match v with Some a => a | None => default end.

(** ** [datetime.datetime] (naive) *)
Record datetime := {
  year : Z; month : Z; day : Z;
  hour : Z; minute : Z; second : Z; microsecond : Z
}.

(** Days from 1970-01-01 to the given civil date. *)
Definition days_from_civil (y m d : Z) : Z :=
  let y' := if m <=? 2 then y - 1 else y in
  let era := y' / 400 in
  let yoe := y' - era * 400 in
  let mp := if 2 <? m then m - 3 else m + 9 in
  let doy := (153 * mp + 2) / 5 + d - 1 in
  let doe := yoe * 365 + yoe / 4 - yoe / 100 + doy in
  era * 146097 + doe - 719468.

(** The position of a datetime on the time line, in microseconds. *)
Definition to_us (d : datetime) : Z :=
  (((days_from_civil (year d) (month d) (day d) * 24 + hour d) * 60
    + minute d) * 60 + second d) * 1000000 + microsecond d.

(** [(a - b)] as a [timedelta], in microseconds, and its
    [total_seconds() / 60.0]. *)
Definition sub_us (a b : datetime) : Z := to_us a - to_us b.

Definition minutes_of_us (us : Z) : Q := us # 60000000.

(** Datetimes compare as the tuples of their fields. *)
Definition fields (d : datetime) : list Z :=
  [year d; month d; day d; hour d; minute d; second d; microsecond d].

Fixpoint lex_ltb (a b : list Z) : bool :=
  match a, b with
  | x :: a', y :: b' => (x <? y) || ((x =? y) && lex_ltb a' b')
  | [], _ :: _ => true
  | _, [] => false
  end.

Definition dt_ltb (a b : datetime) : bool := lex_ltb (fields a) (fields b).
Definition dt_leb (a b : datetime) : bool := negb (dt_ltb b a).

(** [max(l)] for a list that is not empty: the first of its greatest
    elements. *)
Definition py_max (x : datetime) (l : list datetime) : datetime :=
  fold_left (fun m y => if dt_ltb m y then y else m) l x.

(** [n] in decimal, padded with zeros to [w] digits. *)
Definition zpad (w : nat) (n : Z) : text :=
  let d := str_of_Z n in
  repeat "0"%char (w - List.length d) ++ d.

(** [d.isoformat(sep)]. *)
Definition isoformat (sep : ascii) (d : datetime) : text :=
  zpad 4 (year d) ++ T "-" ++ zpad 2 (month d) ++ T "-" ++ zpad 2 (day d)
  ++ [sep]
  ++ zpad 2 (hour d) ++ T ":" ++ zpad 2 (minute d) ++ T ":" ++ zpad 2 (second d)
  ++ (if microsecond d =? 0 then [] else T "." ++ zpad 6 (microsecond d)).

(** [round(q, 2)]: the nearest multiple of 1/100, ties to the even one.  (On
    floats Python rounds the binary value; for the quotients of whole
    microseconds by 60 that occur here the two agree up to the last bit of
    the float.) *)
Definition py_round2 (q : Q) : Q :=
  let n := Qnum q * 100 in
  let d := Zpos (Qden q) in
  let fl := (2 * n + d) / (2 * d) in
  let tie := (2 * n + d) mod (2 * d) =? 0 in
  (if tie && Z.odd fl then fl - 1 else fl) # 100.

(** The days of a month. *)
Definition is_leap (y : Z) : bool :=
  ((y mod 4 =? 0) && negb (y mod 100 =? 0)) || (y mod 400 =? 0).

Definition days_in_month (y m : Z) : Z :=
  if m =? 2 then (if is_leap y then 29 else 28)
  else if (m =? 4) || (m =? 6) || (m =? 9) || (m =? 11) then 30 else 31.

(** Text that matches a list of character classes, one per character. *)
Fixpoint match_classes (pat : list (ascii -> bool)) (t : text) : option (text * text) :=
  match pat, t with
  | [], _ => Some ([], t)
  | p :: pat', c :: t' =>
    if p c then
      match match_classes pat' t' with
      | Some (g, rest) => Some (c :: g, rest)
      | None => None
      end
    else None
  | _ :: _, [] => None
  end.

Definition lit (c : ascii) : ascii -> bool := Ascii.eqb c.

(** [\d{4}-\d{2}-\d{2} \d{2}:\d{2}:\d{2}] *)
Definition stamp_pattern : list (ascii -> bool) :=
  [is_digit; is_digit; is_digit; is_digit; lit "-"; is_digit; is_digit;
   lit "-"; is_digit; is_digit; lit " "; is_digit; is_digit; lit ":";
   is_digit; is_digit; lit ":"; is_digit; is_digit]%char.

Definition sub (t : text) (i n : nat) : text := firstn n (skipn i t).

(** [datetime.strptime(t, "%Y-%m-%d %H:%M:%S")] on the texts written with
    all their digits, [YYYY-MM-DD HH:MM:SS]; any other text is refused
    here.  The program is verified for any [strptime]; this one serves the
    examples. *)
Definition strptime_fixed (t : text) : option datetime :=
  match match_classes stamp_pattern t with
  | Some (_, []) =>
    let y := dec (sub t 0 4) in
    let mo := dec (sub t 5 2) in
    let d := dec (sub t 8 2) in
    let h := dec (sub t 11 2) in
    let mi := dec (sub t 14 2) in
    let se := dec (sub t 17 2) in
    if (1 <=? y) && (1 <=? mo) && (mo <=? 12) && (1 <=? d)
       && (d <=? days_in_month y mo) && (h <=? 23) && (mi <=? 59)
       && (se <=? 59)
    then Some {| year := y; month := mo; day := d; hour := h; minute := mi;
                 second := se; microsecond := 0 |}
    else None
  | _ => None
  end.

(** The places of a [run] that read [datetime.now()]; each is passed at most
    once in a run. *)
Inductive clock_site := AtArtifact | AtFallback | AtException.

(** ** The SSH transport *)
Inductive key_class := RSAKey | Ed25519Key | ECDSAKey.

(** A loaded private key. *)
Definition PKey := text.

(** What [_read_channel] returns: [(out, err, exit_code)]. *)
Definition RemoteExec : Type := text * text * Z.

(** [f"{last_err}"]: [str(e)], or [None] when no error was recorded. *)
Definition str_of_err (e : option exn) : text :=
  match e with Some e => exn_msg e | None => T "None" end.

(** [load_private_key]: the key classes are tried in turn; the first that
    loads the file wins, and when none does the last error is reported. *)
Fixpoint load_loop (from_private_key_file : key_class -> text -> outcome PKey)
    (classes : list key_class) (last_err : option exn) (key_path : text)
  : outcome PKey :=
  match classes with
  | [] => Raise (Exn ERuntime
                   (T "No pude cargar la private key: " ++ str_of_err last_err))
  | cls :: rest =>
    match from_private_key_file cls key_path with
    | Ret k => Ret k
    | Raise e => load_loop from_private_key_file rest (Some e) key_path
    end
  end.

Definition load_private_key
    (from_private_key_file : key_class -> text -> outcome PKey)
    (key_path : text) : outcome PKey :=
  load_loop from_private_key_file [RSAKey; Ed25519Key; ECDSAKey] None key_path.

(** [try: ... finally: try: cleanup except Exception: pass]: a cleanup whose
    own exceptions are swallowed leaves the outcome as it is. *)
Definition finally_swallow {A} (m : outcome A) (cleanup : outcome unit)
  : outcome A := m.

(** Accented letters of the messages, as code points. *)
Definition o_acute : ascii := chr 243.
Definition i_acute : ascii := chr 237.

Definition vacio : text := T "(vac" ++ [i_acute] ++ T "o)".

End Model.

(* ================================================================== *)
(** * checks/boundary.py: sanitizer and parsers *)
(* ================================================================== *)

Module Boundary.
Import Py Model.

(** ** [_BANNER_RE]

    Each pattern is [^prefix.*$], matched with [re.IGNORECASE] from the start
    of the text.  [to_end] is [.*$]: the rest holds no line feed, or only a
    final one. *)
Definition to_end (t : text) : bool :=
  match dropwhile (fun c => negb (Ascii.eqb c LF)) t with
  | [] => true
  | [_] => true
  | _ => false
  end.

Fixpoint prefix_ci (p t : text) : option text :=
  match p, t with
  | [], _ => Some t
  | x :: p', y :: t' =>
    if Ascii.eqb (lower x) (lower y) then prefix_ci p' t' else None
  | _ :: _, [] => None
  end.

Definition match_prefix_ci (p : string) (t : text) : bool :=
  match prefix_ci (T p) t with
  | Some rest => to_end rest
  | None => false
  end.

(** [^#{10,}.*$] *)
Definition match_hashes (t : text) : bool :=
  let (h, rest) := span (Ascii.eqb "#"%char) t in
  (10 <=? List.length h)%nat && to_end rest.

(** [^WARNING\s*!.*$] *)
Definition match_warning (t : text) : bool :=
  match prefix_ci (T "WARNING") t with
  | Some rest =>
    match dropwhile is_space rest with
    | c :: rest' => Ascii.eqb c "!"%char && to_end rest'
    | [] => false
    end
  | None => false
  end.

Definition _BANNER_RE_match (s : text) : bool :=
  match_hashes s
  || match_warning s
  || match_prefix_ci "You are about to access" s
  || match_prefix_ci "This system is for" s
  || match_prefix_ci "authorized users only" s
  || match_prefix_ci "All connections, actions" s
  || match_prefix_ci "be logged and monitored" s
  || match_prefix_ci "By accessing and using" s
  || match_prefix_ci "Users should have no expectation" s
  || match_prefix_ci "Last login:" s.

Definition hash_rule : text := repeat "#"%char 78.

(** The body of the [for] loop of [filter_boundary_output]: [out_lines]
    after one more [line]. *)
Definition filter_step (out_lines : list text) (line : text) : list text :=
  let s := strip line in
  if is_empty s then out_lines ++ [[]]
  else if _BANNER_RE_match s then out_lines
  else if text_eqb s hash_rule then out_lines
  else out_lines ++ [line].

Definition filter_boundary_output (t : text) : text :=
  let out_lines := fold_left filter_step (splitlines t) [] in
  lstrip_char LF (join [LF] out_lines).

(** ** [_extract_now_local]

    [re.search(r"NOW_LOCAL=(\d{4}-\d{2}-\d{2} \d{2}:\d{2}:\d{2})", text)]: the
    group of the first position where the pattern matches. *)
Fixpoint search_now_local (t : text) : option text :=
  let here :=
    match strip_prefix (T "NOW_LOCAL=") t with
    | Some rest =>
      match match_classes stamp_pattern rest with
      | Some (g, _) => Some g
      | None => None
      end
    | None => None
    end in
  match here with
  | Some g => Some g
  | None => match t with [] => None | _ :: t' => search_now_local t' end
  end.

(** ** [parse_psql_table] *)
Record Row := { jobid : text; maxvalue : text; region_id : text }.

Definition is_header (ln : text) : bool :=
  contains (T "jobid") ln && contains (T "maxvalue") ln
  && contains (T "region_id") ln && contains (T "|") ln.

Definition is_separator (ln : text) : bool :=
  contains (T "+") ln && contains (T "-") ln.

(** The first [for] loop: [(header_idx, sep_idx)] from line [i] on. *)
Fixpoint find_header (rest : list text) (i : nat) (lines : list text)
  : option nat * option nat :=
  match rest with
  | [] => (None, None)
  | ln :: rest' =>
    if is_header ln then
      (Some i,
       if (i + 1 <? List.length lines)%nat && is_separator (nth (i + 1) lines [])
       then Some (i + 1)%nat else None)
    else find_header rest' (S i) lines
  end.

Definition split_row (row_line : text) : list text :=
  map strip (split_char "|"%char row_line).

Definition is_footer (s : text) : bool :=
  startswith (T "(") s && endswith (T "rows)") s.

(** The second [for] loop: [rows] after the remaining lines; [break] returns
    it, [continue] goes on with the next line. *)
Fixpoint rows_loop (lines : list text) (rows : list Row) : list Row :=
  match lines with
  | [] => rows
  | ln :: rest =>
    let s := strip ln in
    if is_empty s then rows_loop rest rows
    else if is_footer s then rows
    else if negb (contains (T "|") ln) then rows_loop rest rows
    else
      let parts := split_row ln in
      if (List.length parts <? 3)%nat then rows_loop rest rows
      else
        let jobid := nth 0 parts [] in
        let maxvalue := nth 1 parts [] in
        let region_id := nth 2 parts [] in
        if is_empty jobid || is_empty maxvalue || is_empty region_id
        then rows_loop rest rows
        else rows_loop rest
               (rows ++ [{| jobid := jobid; maxvalue := maxvalue;
                            region_id := region_id |}])
  end.

Definition parse_psql_table (t : text) : list Row :=
  let lines := map (rstrip_char LF) (splitlines t) in
  match find_header lines 0 lines with
  | (Some _, Some sep_idx) => rows_loop (skipn (sep_idx + 1) lines) []
  | _ => []
  end.

(** The table parser as the specification words it: the rows end at the
    footer, at a blank line, or at a line that is not pipe-delimited. *)
Fixpoint rows_loop_spec (lines : list text) (rows : list Row) : list Row :=
  match lines with
  | [] => rows
  | ln :: rest =>
    let s := strip ln in
    if is_empty s then rows
    else if is_footer s then rows
    else if negb (contains (T "|") ln) then rows
    else
      let parts := split_row ln in
      if (List.length parts <? 3)%nat then rows_loop_spec rest rows
      else
        let jobid := nth 0 parts [] in
        let maxvalue := nth 1 parts [] in
        let region_id := nth 2 parts [] in
        if is_empty jobid || is_empty maxvalue || is_empty region_id
        then rows_loop_spec rest rows
        else rows_loop_spec rest
               (rows ++ [{| jobid := jobid; maxvalue := maxvalue;
                            region_id := region_id |}])
  end.

Definition parse_psql_table_spec (t : text) : list Row :=
  let lines := map (rstrip_char LF) (splitlines t) in
  match find_header lines 0 lines with
  | (Some _, Some sep_idx) => rows_loop_spec (skipn (sep_idx + 1) lines) []
  | _ => []
  end.

(** What one line of the table body contributes: its row, or nothing. *)
Definition row_of_line (ln : text) : option Row :=
  if is_empty (strip ln) then None
  else if negb (contains (T "|") ln) then None
  else
    match split_row ln with
    | j :: m :: r :: _ =>
      if is_empty j || is_empty m || is_empty r then None
      else Some {| jobid := j; maxvalue := m; region_id := r |}
    | _ => None
    end.

Fixpoint filter_map {A B} (f : A -> option B) (l : list A) : list B :=
  match l with
  | [] => []
  | a :: l' =>
    match f a with
    | Some b => b :: filter_map f l'
    | None => filter_map f l'
    end
  end.

(** The lines before the first one that satisfies [p]. *)
Fixpoint take_until {A} (p : A -> bool) (l : list A) : list A :=
  match l with
  | [] => []
  | a :: l' => if p a then [] else a :: take_until p l'
  end.

(** The index of the first element that satisfies [p]. *)
Fixpoint find_index {A} (p : A -> bool) (l : list A) : option nat :=
  match l with
  | [] => None
  | a :: l' => if p a then Some O else option_map S (find_index p l')
  end.

(** ** The check *)
Definition BOUNDARY_SQL : text :=
  T "SELECT jobid, maxvalue, region_id "
  ++ T "FROM boundary "
  ++ T "WHERE jobid LIKE '%Usage%' "
  ++ T "  AND maxvalue IS NOT NULL "
  ++ T "  AND region_id <> 'Unknown' "
  ++ T "ORDER BY maxvalue;".

Definition THRESHOLD_MINUTES : Z := 15.

(** The world of one run of the check. *)
Record Env := {
  from_private_key_file : key_class -> text -> outcome PKey;
  (** [client.connect(hostname, port, username, pkey, ...)] *)
  connect : text -> Z -> text -> PKey -> outcome unit;
  (** [client.exec_command(command)] *)
  exec_command : text -> outcome unit;
  (** [_read_channel] on the channel of the command, with its
      [channel_timeout] and [read_timeout] *)
  read_channel : Z -> Z -> outcome RemoteExec;
  (** [str(Path(dir) / file)], as [pathlib] has it on the platform *)
  path_join : text -> text -> text;
  (** [path.write_text(content)] *)
  write_text : text -> text -> outcome unit;
  (** the readings of [datetime.now()] *)
  now : clock_site -> datetime;
  close : outcome unit
}.

Definition ssh_exec (E : Env) (command : text) (read_timeout : Z)
  : outcome RemoteExec :=
  _ <- exec_command E command ;;
  read_channel E 20 read_timeout.

Definition _format_raw (ts : datetime) (host user jump_target stdout stderr : text)
    (exit_code : Z) : text :=
  T "TimestampLocal: " ++ isoformat "T" ts ++ [LF]
  ++ T "Check: boundary" ++ [LF]
  ++ T "Host: " ++ host ++ [LF]
  ++ T "User: " ++ user ++ [LF]
  ++ T "JumpTarget: " ++ jump_target ++ [LF]
  ++ T "ExitCode: " ++ str_of_Z exit_code ++ [LF; LF]
  ++ T "--- stdout ---" ++ [LF] ++ stdout ++ [LF; LF]
  ++ T "--- stderr ---" ++ [LF]
  ++ (if is_empty stderr then vacio else stderr) ++ [LF].

Definition row_value (r : Row) : value :=
  VDict [(T "jobid", VStr (jobid r)); (T "maxvalue", VStr (maxvalue r));
         (T "region_id", VStr (region_id r))].

Section Run.

(** [datetime.strptime(_, "%Y-%m-%d %H:%M:%S")], [None] when it raises. *)
Variable strptime : text -> option datetime.

Definition _extract_now_local (t : text) : option datetime :=
  match search_now_local t with
  | None => None
  | Some g => strptime g
  end.

(** The loop of [extract_newest_maxvalue]: [parsed] after the remaining
    rows. *)
Fixpoint parsed_loop (rows : list Row) (parsed : list datetime) : list datetime :=
  match rows with
  | [] => parsed
  | r :: rest =>
    let mv := strip (maxvalue r) in
    if is_empty mv then parsed_loop rest parsed
    else match strptime mv with
         | Some d => parsed_loop rest (parsed ++ [d])
         | None => parsed_loop rest parsed
         end
  end.

Definition extract_newest_maxvalue (rows : list Row) : option datetime :=
  match parsed_loop rows [] with
  | [] => None
  | d :: ds => Some (py_max d ds)
  end.

Definition remote_cmd (jump_target : text) : text :=
  let ssh_opts :=
    T "-q " ++ T "-o StrictHostKeyChecking=no "
    ++ T "-o UserKnownHostsFile=/dev/null " ++ T "-o ConnectTimeout=10 "
    ++ T "-o ServerAliveInterval=10 " ++ T "-o ServerAliveCountMax=2 "
    ++ T "-T" in
  let cmd_inside_jump :=
    T "sudo -n bash -lc "
    ++ shlex_quote (T "date '+NOW_LOCAL=%Y-%m-%d %H:%M:%S'; "
                    ++ T "psql sai sairepo -c " ++ shlex_quote BOUNDARY_SQL) in
  T "bash -lc "
  ++ shlex_quote (T "ssh " ++ ssh_opts ++ T " " ++ jump_target ++ T " "
                  ++ shlex_quote cmd_inside_jump).

(** The [except Exception as e] block of [run], with the values that
    [stdout], [stderr] and [exit_code] have when the exception arrives;
    [ts] is the reading of the clock for the artifact. *)
Definition on_exception (E : Env) (raw_path host user jump_target : text)
    (ts : datetime) (stdout stderr : text) (exit_code : Z) (e : exn)
  : outcome CheckResult :=
  let _ := swallow
    (write_text E raw_path
       (_format_raw ts host user jump_target
          (filter_boundary_output stdout)
          (filter_boundary_output stderr ++ [LF] ++ T "EXCEPTION: " ++ exn_msg e)
          exit_code)) in
  Ret {| name := None; status := FAIL; metrics := [];
         details := [(T "error", VStr (exn_msg e));
                     (T "raw_exit_code", VInt exit_code)];
         raw_file := Some raw_path |}.

(** The [try] block of [run] from the assignment of
    [stdout, stderr, exit_code] on. *)
Definition after_exec (E : Env) (raw_path host user jump_target : text)
    (stdout stderr : text) (exit_code : Z) : outcome CheckResult :=
  let filtered_stdout := filter_boundary_output stdout in
  let filtered_stderr := filter_boundary_output stderr in
  _ <- write_text E raw_path
         (_format_raw (now E AtArtifact) host user jump_target
            filtered_stdout filtered_stderr exit_code) ;;
  if negb (exit_code =? 0) then
    Ret {| name := None; status := FAIL; metrics := [];
           details := [(T "error",
                        VStr (T "Comando remoto fall" ++ [o_acute]
                              ++ T " (exit_code=" ++ str_of_Z exit_code
                              ++ T "). Ver raw_file."))];
           raw_file := Some raw_path |}
  else
    let rows := parse_psql_table filtered_stdout in
    let now_local :=
      match _extract_now_local filtered_stdout with
      | Some d => d
      | None => now E AtFallback
      end in
    match extract_newest_maxvalue rows with
    | None =>
      Ret {| name := None; status := WARN;
             metrics := [(T "newest_age_minutes", VNone)];
             details :=
               [(T "message",
                 VStr (T "No pude calcular newest_age_minutes (maxvalue no parseable o sin filas)."));
                (T "rows", VList (map row_value rows));
                (T "raw_exit_code", VInt exit_code)];
             raw_file := Some raw_path |}
    | Some newest =>
      let age_min := minutes_of_us (sub_us now_local newest) in
      let status := if Qle_bool age_min (inject_Z THRESHOLD_MINUTES)
                    then OK else WARN in
      Ret {| name := None; status := status;
             metrics := [(T "newest_age_minutes", VNum (py_round2 age_min))];
             details :=
               [(T "now_local", VStr (isoformat " " now_local));
                (T "newest_maxvalue", VStr (isoformat " " newest));
                (T "threshold_minutes", VInt THRESHOLD_MINUTES);
                (T "rows", VList (map row_value rows));
                (T "raw_exit_code", VInt exit_code)];
             raw_file := Some raw_path |}
    end.

(** The [try] block of [run] up to the assignment of
    [stdout, stderr, exit_code]. *)
Definition exec_phase (E : Env) (host : text) (port : Z)
    (user key_path jump_target : text) : outcome RemoteExec :=
  pkey <- load_private_key (from_private_key_file E) key_path ;;
  _ <- connect E host port user pkey ;;
  ssh_exec E (remote_cmd jump_target) 120.

(** The [try] block of [run] as a whole. *)
Definition try_block (E : Env) (raw_path host : text) (port : Z)
    (user key_path jump_target : text) : outcome CheckResult :=
  r <- exec_phase E host port user key_path jump_target ;;
  let '(stdout, stderr, exit_code) := r in
  after_exec E raw_path host user jump_target stdout stderr exit_code.

Definition run (E : Env) (ssh_cfg : ssh_cfg) (output_dirs : output_dirs)
  : outcome CheckResult :=
  raw_dir <- item "raw" (raw output_dirs) ;;
  let raw_path := path_join E raw_dir (T "boundary_latest.txt") in
  host <- item "host" (host ssh_cfg) ;;
  let port := get_default (port ssh_cfg) 22 in
  user <- item "user" (user ssh_cfg) ;;
  key_path <- item "key_path" (key_path ssh_cfg) ;;
  let jump_target := get_default (jump_target ssh_cfg) (T "ciap01") in
  finally_swallow
    (match exec_phase E host port user key_path jump_target with
     | Raise e =>
       on_exception E raw_path host user jump_target (now E AtException)
         [] [] 255 e
     | Ret (stdout, stderr, exit_code) =>
       try_except
         (after_exec E raw_path host user jump_target stdout stderr exit_code)
         (on_exception E raw_path host user jump_target (now E AtException)
            stdout stderr exit_code)
     end)
    (close E).

(** The timestamp that [extract_newest_maxvalue] reads in a row, if any. *)
Definition row_time (r : Row) : option datetime :=
  let mv := strip (maxvalue r) in
  if is_empty mv then None else strptime mv.

End Run.

(** [t] without one final line feed: [t[:-1] if t.endswith("\n") else t]. *)
Fixpoint chomp (t : text) : text :=
  match t with
  | [] => []
  | [c] => if Ascii.eqb c LF then [] else [c]
  | c :: r => c :: chomp r
  end.

(** The loop of [filter_boundary_output] as a function of the remaining
    lines. *)
Fixpoint filter_lines (ls : list text) : list text :=
  match ls with
  | [] => []
  | line :: r =>
    let s := strip line in
    if is_empty s then [] :: filter_lines r
    else if _BANNER_RE_match s then filter_lines r
    else if text_eqb s hash_rule then filter_lines r
    else line :: filter_lines r
  end.

(** A list of lines without its empty lines at the front, and without an
    empty line at the end. *)
Fixpoint drop_leading_empty (ls : list text) : list text :=
  match ls with
  | [] => []
  | l :: r => if is_empty l then drop_leading_empty r else ls
  end.

Fixpoint drop_last_empty (ls : list text) : list text :=
  match ls with
  | [] => []
  | [l] => if is_empty l then [] else [l]
  | l :: r => l :: drop_last_empty r
  end.

(** A line the sanitizer leaves as it is: empty, or neither blank nor a
    banner. *)
Definition kept_line (l : text) : Prop :=
  l = [] \/
  (is_empty (strip l) = false /\ _BANNER_RE_match (strip l) = false
   /\ text_eqb (strip l) hash_rule = false).

Definition no_break (l : text) : Prop :=
  Forall (fun c => is_linebreak c = false) l.

End Boundary.

(* ================================================================== *)
(** * [_read_channel]: the channel reader *)
(* ================================================================== *)

(** The three check modules carry the same [_read_channel]; they differ in
    the text of the timeout message. *)
Module Channel.
Import Py Model.

Definition bytes := list Byte.byte.

(** A command channel and the clock, as the loop sees them.  [time k] is the
    [k]-th reading of [time.time()], in milliseconds; the polls are indexed
    by the iteration of the loop that makes them. *)
Record Chan := {
  time : nat -> Z;
  recv_ready : nat -> outcome bool;
  recv : nat -> outcome bytes;
  recv_stderr_ready : nat -> outcome bool;
  recv_stderr : nat -> outcome bytes;
  exit_status_ready : nat -> outcome bool;
  recv_exit_status : outcome Z;
  close : outcome unit
}.

(** What the caller can observe besides the result: the [time.sleep(0.1)]
    of an iteration, and [ch.close()]. *)
Inductive chan_event := Slept | Closed.

(** [if ready: chunks.append(read(4096))]. *)
Definition read_if (ready : bool) (read : outcome bytes) (chunks : list bytes)
  : outcome (list bytes) :=
  if ready then
    match read with
    | Ret b => Ret (chunks ++ [b])
    | Raise e => Raise e
    end
  else Ret chunks.

(** The [try] block of iteration [i]: the chunk lists as it leaves them, and
    whether the loop is to [break], or the exception that interrupted it. *)
Definition poll (ch : Chan) (i : nat) (out_chunks err_chunks : list bytes)
  : list bytes * list bytes * outcome bool :=
  match recv_ready ch i with
  | Raise e => (out_chunks, err_chunks, Raise e)
  | Ret ready =>
    match read_if ready (recv ch i) out_chunks with
    | Raise e => (out_chunks, err_chunks, Raise e)
    | Ret out' =>
      match recv_stderr_ready ch i with
      | Raise e => (out', err_chunks, Raise e)
      | Ret eready =>
        match read_if eready (recv_stderr ch i) err_chunks with
        | Raise e => (out', err_chunks, Raise e)
        | Ret err' => (out', err', exit_status_ready ch i)
        end
      end
    end
  end.

Definition timeout_error (what : text) (read_timeout : Z) : exn :=
  Exn ETimeout (what ++ T " (>" ++ str_of_Z read_timeout ++ T "s)").

Section Reader.

(** [bytes.decode("utf-8", errors="replace")]. *)
Variable decode : bytes -> text.

(** After the loop. *)
Definition finish (ch : Chan) (out_chunks err_chunks : list bytes)
  : outcome RemoteExec :=
  exit_code <- recv_exit_status ch ;;
  Ret (decode (List.concat out_chunks), decode (List.concat err_chunks), exit_code).

(** [while True], from iteration [i] on; [None] when [fuel] iterations did
    not end it. *)
Fixpoint loop (fuel : nat) (ch : Chan) (what : text) (read_timeout start : Z)
    (i : nat) (out_chunks err_chunks : list bytes) (log : list chan_event)
  : option (outcome RemoteExec * list chan_event) :=
  match fuel with
  | O => None
  | S fuel' =>
    if time ch (S i) - start >? 1000 * read_timeout then
      let _ := swallow (close ch) in
      Some (Raise (timeout_error what read_timeout), log ++ [Closed])
    else
      match poll ch i out_chunks err_chunks with
      | (out', err', Ret true) => Some (finish ch out' err', log)
      | (out', err', Ret false) =>
        loop fuel' ch what read_timeout start (S i) out' err' (log ++ [Slept])
      | (out', err', Raise e) =>
        if is_timeout e then
          loop fuel' ch what read_timeout start (S i) out' err' log
        else Some (Raise e, log)
      end
  end.

Definition _read_channel (fuel : nat) (ch : Chan) (what : text)
    (channel_timeout read_timeout : Z)
  : option (outcome RemoteExec * list chan_event) :=
  let start := time ch 0 in
  loop fuel ch what read_timeout start 0 [] [] [].

End Reader.

(** The message of [checks/boundary.py], and that of the two other
    modules. *)
Definition what_boundary : text := T "Timeout ejecutando boundary".
Definition what_ssh : text := T "Timeout leyendo salida SSH".

(** Iteration [i] sees the deadline passed. *)
Definition late (ch : Chan) (read_timeout : Z) (i : nat) : Prop :=
  time ch (S i) - time ch 0 > 1000 * read_timeout.

(** The iterations before [n] do not see the deadline passed. *)
Definition first_late (ch : Chan) (read_timeout : Z) (n : nat) : Prop :=
  time ch (S n) - time ch 0 > 1000 * read_timeout /\
  forall i, (i < n)%nat -> time ch (S i) - time ch 0 <= 1000 * read_timeout.

(** The command never signals that its exit status is ready. *)
Definition never_ready (ch : Chan) : Prop :=
  forall i, exit_status_ready ch i <> Ret true.

(** The only exception a poll of the channel raises is [socket.timeout]. *)
Definition only_socket_timeouts (ch : Chan) : Prop :=
  forall i e,
    (recv_ready ch i = Raise e \/ recv ch i = Raise e
     \/ recv_stderr_ready ch i = Raise e \/ recv_stderr ch i = Raise e
     \/ exit_status_ready ch i = Raise e) ->
    is_timeout e = true.

End Channel.

(* ================================================================== *)
(** * The retrying runners *)
(* ================================================================== *)

(** [ssh_run] of [nelmon_check.py] and [ssh_run_sudo_block] of
    [k8s_dis_nci.py] are the same loop around different [try] blocks. *)
Module Retry.
Import Py Model.

(** What the loop does besides returning: it makes a client, sleeps (in
    milliseconds) and closes the client. *)
Inductive event :=
| NewClient (attempt : Z)
| Sleep (ms : Z)
| Close (attempt : Z).

Definition failure (check : text) (tries : Z) (last_err : option exn) : exn :=
  Exn ERuntime (T "SSH " ++ check ++ T " fall" ++ [o_acute] ++ T " tras "
                ++ str_of_Z tries ++ T " intentos: " ++ str_of_err last_err).

(** [for attempt in range(attempt, attempt + n)], then the final [raise].
    [body attempt] is the outcome of the [try] block of that attempt;
    [time.sleep(1.5 * attempt)] is logged in milliseconds. *)
Fixpoint attempts (body : Z -> outcome RemoteExec) (check : text) (tries : Z)
    (n : nat) (attempt : Z) (last_err : option exn) (log : list event)
  : outcome RemoteExec * list event :=
  match n with
  | O => (Raise (failure check tries last_err), log)
  | S n' =>
    match body attempt with
    | Ret r => (Ret r, log ++ [NewClient attempt; Close attempt])
    | Raise e =>
      attempts body check tries n' (attempt + 1) (Some e)
        (log ++ [NewClient attempt; Sleep (1500 * attempt); Close attempt])
    end
  end.

Definition retry (body : Z -> outcome RemoteExec) (check : text) (tries : Z)
  : outcome RemoteExec * list event :=
  attempts body check tries (Z.to_nat tries) 1 None [].

(** The attempts [from, from + 1, ...], [n] of them. *)
Fixpoint attempt_range (from : Z) (n : nat) : list Z :=
  match n with
  | O => []
  | S n' => from :: attempt_range (from + 1) n'
  end.

Definition failed_attempt (attempt : Z) : list event :=
  [NewClient attempt; Sleep (1500 * attempt); Close attempt].

(** The time slept, in milliseconds. *)
Fixpoint slept (log : list event) : Z :=
  match log with
  | [] => 0
  | Sleep ms :: log' => ms + slept log'
  | _ :: log' => slept log'
  end.

(** Every client that is made is closed, after the sleep of its attempt and
    before anything else happens. *)
Definition closed_in_turn (log : list event) : Prop :=
  forall pre a post,
    log = pre ++ NewClient a :: post ->
    exists post', post = Sleep (1500 * a) :: Close a :: post'.

(** All [tries] attempts failed, with the errors [err 1 ... err tries]: one
    failure that names the last error, the sleeps of 1.5 s times the
    attempt number, and every client closed in its turn. *)
Definition exhausted (res : outcome RemoteExec * list event) (check : text)
    (tries : Z) (err : Z -> exn) : Prop :=
  fst res = Raise (failure check tries (Some (err tries)))
  /\ snd res = flat_map failed_attempt (attempt_range 1 (Z.to_nat tries))
  /\ map (fun ms => Sleep ms)
       (map (fun a => 1500 * a) (attempt_range 1 (Z.to_nat tries)))
     = filter (fun ev => match ev with Sleep _ => true | _ => false end) (snd res)
  /\ 2 * slept (snd res) = 1500 * (tries * (tries + 1))
  /\ closed_in_turn (snd res).

End Retry.

(* ================================================================== *)
(** * checks/nelmon_check.py *)
(* ================================================================== *)

Module Nelmon.
Import Py Model.

Record Boot := {
  filesystem : text;
  size : text;
  used : text;
  avail : text;
  use_percent : Z;
  mount : text
}.

(** The named groups of a match of [BOOT_RE]. *)
Record BootMatch := {
  g_fs : text;
  g_size : text;
  g_used : text;
  g_avail : text;
  g_usep : text;
  g_mount : text
}.

(** [BOOT_RE.match]:
    [^(\S+)\s+(\S+)\s+(\S+)\s+(\S+)\s+(\d+)%\s+(/boot)\s*$] *)
Definition BOOT_RE_match (line : text) : option BootMatch :=
  match
    (fs <~ nonspace1 ;; _ <~ space1 ;;
     size <~ nonspace1 ;; _ <~ space1 ;;
     used <~ nonspace1 ;; _ <~ space1 ;;
     avail <~ nonspace1 ;; _ <~ space1 ;;
     usep <~ digits1 ;; _ <~ literal (T "%") ;; _ <~ space1 ;;
     mount <~ literal (T "/boot") ;;
     fun rest =>
       if spaces_to_end rest then
         Some ({| g_fs := fs; g_size := size; g_used := used;
                  g_avail := avail; g_usep := usep; g_mount := mount |}, rest)
       else None) line
  with
  | Some (m, _) => Some m
  | None => None
  end.

(** The dictionary that [parse_boot_usage] builds from a match; its
    [int(m.group("usep"))] may raise. *)
Definition boot_of_match (m : BootMatch) : outcome Boot :=
  usep <- int_of_digits (g_usep m) ;;
  Ret {| filesystem := g_fs m; size := g_size m; used := g_used m;
         avail := g_avail m; use_percent := usep; mount := g_mount m |}.

(** [None] is the empty dictionary. *)
Fixpoint boot_loop (lines : list text) : outcome (option Boot) :=
  match lines with
  | [] => Ret None
  | line :: rest =>
    match BOOT_RE_match (strip line) with
    | Some m => b <- boot_of_match m ;; Ret (Some b)
    | None => boot_loop rest
    end
  end.

Definition parse_boot_usage (df_output : text) : outcome (option Boot) :=
  boot_loop (splitlines df_output).

Definition compute_status (use_percent : Z) : text :=
  if use_percent >=? 100 then FAIL
  else if use_percent >=? 90 then WARN
  else OK.

(** The status of the nelmon check, from the output alone: that of the
    use-percent of /boot, and FAIL when there is no /boot line or when the
    use-percent is refused by [int] or by [float]. *)
Definition boot_status (stdout : text) : text :=
  match parse_boot_usage stdout with
  | Ret (Some boot) =>
    match float_of_int (use_percent boot) with
    | Ret _ => compute_status (use_percent boot)
    | Raise _ => FAIL
    end
  | Ret None => FAIL
  | Raise _ => FAIL
  end.

(** The world of one run of the check; the SSH calls are indexed by the
    attempt that makes them. *)
Record Env := {
  (** [client.connect(hostname, port, username, password, ...)] *)
  connect : Z -> text -> Z -> text -> text -> outcome unit;
  exec_command : Z -> text -> outcome unit;
  (** [_read_channel] with its [channel_timeout] and [read_timeout] *)
  read_channel : Z -> Z -> Z -> outcome RemoteExec;
  close : Z -> outcome unit;
  (** [str(Path(dir) / file)] and [str(Path(path).parent)], as [pathlib]
      has them on the platform *)
  path_join : text -> text -> text;
  path_parent : text -> text;
  (** [path.parent.mkdir(parents=True, exist_ok=True)], on the parent *)
  mkdir : text -> outcome unit;
  (** [open(path, "w")] and the writes *)
  write_file : text -> text -> outcome unit;
  now : clock_site -> datetime
}.

(** The [try] block of one attempt of [ssh_run]. *)
Definition attempt_body (E : Env) (host : text) (port : Z) (user password cmd : text)
    (connect_timeout channel_timeout read_timeout : Z) (attempt : Z)
  : outcome RemoteExec :=
  _ <- connect E attempt host port user password ;;
  let remote_cmd := T "bash -lc " ++ quote_for_bash cmd in
  _ <- exec_command E attempt remote_cmd ;;
  read_channel E attempt channel_timeout read_timeout.

Definition ssh_run (E : Env) (host : text) (port : Z) (user password cmd : text)
    (connect_timeout channel_timeout read_timeout tries : Z)
  : outcome RemoteExec * list Retry.event :=
  Retry.retry
    (attempt_body E host port user password cmd
       connect_timeout channel_timeout read_timeout)
    (T "nelmon_check") tries.

Definition raw_content (ts : datetime) (host stdout stderr : text) : text :=
  T "Host: " ++ host ++ [LF]
  ++ T "TimestampLocal: " ++ isoformat "T" ts ++ [LF; LF]
  ++ T "--- stdout ---" ++ [LF]
  ++ (if is_empty stdout then vacio ++ [LF] else stdout)
  ++ [LF] ++ T "--- stderr ---" ++ [LF]
  ++ (if is_empty stderr then vacio ++ [LF] else stderr).

Definition write_raw_file (E : Env) (ts : datetime) (path dir host stdout stderr : text)
  : outcome unit :=
  _ <- mkdir E dir ;;
  write_file E path (raw_content ts host stdout stderr).

(** The [except Exception as e] block of [run]. *)
Definition on_exception (E : Env) (ssh_cfg : ssh_cfg) (raw_file dir : text)
    (ts : datetime) (stdout stderr : text) (exit_code : Z) (e : exn)
  : outcome CheckResult :=
  let _ := swallow
    (host <- item "host" (host ssh_cfg) ;;
     write_raw_file E ts raw_file dir host stdout
       (stderr ++ [LF] ++ T "EXCEPTION: " ++ exn_msg e)) in
  Ret {| name := Some (T "nelmon_check"); status := FAIL; metrics := [];
         details := [(T "error", VStr (exn_msg e));
                     (T "raw_exit_code", VInt exit_code)];
         raw_file := Some raw_file |}.

(** The [try] block of [run] from the assignment of
    [stdout, stderr, exit_code] on. *)
Definition after_exec (E : Env) (ssh_cfg : ssh_cfg) (raw_file dir : text)
    (stdout stderr : text) (exit_code : Z) : outcome CheckResult :=
  host <- item "host" (host ssh_cfg) ;;
  _ <- write_raw_file E (now E AtArtifact) raw_file dir host stdout stderr ;;
  boot <- parse_boot_usage stdout ;;
  match boot with
  | None =>
    Ret {| name := Some (T "nelmon_check"); status := FAIL;
           metrics := [(T "boot_use_percent", VNum (-1))];
           details := [(T "error", VStr (T "No se encontr" ++ [o_acute]
                                         ++ T " /boot en df -h"));
                       (T "raw_exit_code", VInt exit_code)];
           raw_file := Some raw_file |}
  | Some boot =>
    let status := compute_status (use_percent boot) in
    percent <- float_of_int (use_percent boot) ;;
    Ret {| name := Some (T "nelmon_check"); status := status;
           metrics := [(T "boot_use_percent", VNum percent)];
           details := [(T "filesystem", VStr (filesystem boot));
                       (T "mount", VStr (T "/boot"));
                       (T "size", VStr (size boot));
                       (T "used", VStr (used boot));
                       (T "avail", VStr (avail boot));
                       (T "raw_exit_code", VInt exit_code)];
           raw_file := Some raw_file |}
  end.

(** The call of [ssh_run] in [run], its arguments read from [ssh_cfg]. *)
Definition call_ssh_run (E : Env) (ssh_cfg : ssh_cfg) : outcome RemoteExec :=
  host <- item "host" (host ssh_cfg) ;;
  port <- item "port" (port ssh_cfg) ;;
  user <- item "user" (user ssh_cfg) ;;
  password <- item "password" (password ssh_cfg) ;;
  fst (ssh_run E host port user password (T "uptime ; df -h") 10 20 60 2).

(** The [try] block of [run] as a whole. *)
Definition try_block (E : Env) (ssh_cfg : ssh_cfg) (raw_file dir : text)
  : outcome CheckResult :=
  r <- call_ssh_run E ssh_cfg ;;
  let '(stdout, stderr, exit_code) := r in
  after_exec E ssh_cfg raw_file dir stdout stderr exit_code.

Definition run (E : Env) (ssh_cfg : ssh_cfg) (output_dirs : output_dirs)
  : outcome CheckResult :=
  raw_dir <- item "raw" (raw output_dirs) ;;
  h <- item "host" (host ssh_cfg) ;;
  let raw_file := path_join E raw_dir (T "nelmon_" ++ h ++ T "_latest.txt") in
  let dir := path_parent E raw_file in
  match call_ssh_run E ssh_cfg with
  | Raise e => on_exception E ssh_cfg raw_file dir (now E AtException) [] [] 255 e
  | Ret (stdout, stderr, exit_code) =>
    try_except
      (after_exec E ssh_cfg raw_file dir stdout stderr exit_code)
      (on_exception E ssh_cfg raw_file dir (now E AtException) stdout stderr exit_code)
  end.

End Nelmon.

(* ================================================================== *)
(** * checks/k8s_dis_nci.py *)
(* ================================================================== *)

Module K8s.
Import Py Model.

(** A row of [analyze_raw]. *)
Record Row := {
  pod : text;
  ready : text;
  status : text;
  restarts : Z;
  age : text;
  short : text
}.

(** The named groups of a match of [POD_LINE_RE]. *)
Record PodMatch := {
  g_name : text;
  g_ready : text;
  g_status : text;
  g_restarts : text;
  g_age : text
}.

(** [POD_LINE_RE.match]:
    [^(\S+)\s+(\d+/\d+)\s+(\S+)\s+(\d+)\s+(\S+)\s*$] *)
Definition POD_LINE_RE_match (line : text) : option PodMatch :=
  match
    (name <~ nonspace1 ;; _ <~ space1 ;;
     m <~ digits1 ;; _ <~ literal (T "/") ;; n <~ digits1 ;; _ <~ space1 ;;
     st <~ nonspace1 ;; _ <~ space1 ;;
     rs <~ digits1 ;; _ <~ space1 ;;
     ag <~ nonspace1 ;;
     fun rest =>
       if spaces_to_end rest then
         Some ({| g_name := name; g_ready := m ++ T "/" ++ n; g_status := st;
                  g_restarts := rs; g_age := ag |},
               rest)
       else None) line
  with
  | Some (r, _) => Some r
  | None => None
  end.

(** The row that [analyze_raw] appends for a match; its
    [int(m.group("restarts"))] may raise. *)
Definition row_of_match (m : PodMatch) : outcome Row :=
  n <- int_of_digits (g_restarts m) ;;
  Ret {| pod := g_name m; ready := g_ready m; status := g_status m;
         restarts := n; age := g_age m;
         short := g_ready m ++ T " " ++ g_status m ++ T " " ++ g_restarts m
                  ++ T " " ++ g_age m |}.

(** [int(t)] for a text: white space around, an optional sign, and decimal
    digits, where single underscores may separate digits; [None] when it
    raises [ValueError], as it does on more than 4300 digits. *)
Fixpoint int_body (after_digit : bool) (t : text) : bool :=
  match t with
  | [] => after_digit
  | c :: r =>
    if is_digit c then int_body true r
    else if Ascii.eqb c "_"%char then after_digit && int_body false r
    else false
  end.

Definition int_digits (t : text) : option Z :=
  let digits := filter is_digit t in
  if int_body false t
     && (Z.of_nat (List.length digits) <=? int_max_str_digits)
  then Some (dec digits) else None.

Definition py_int (t : text) : option Z :=
  match strip t with
  | c :: r =>
    if Ascii.eqb c "-"%char then option_map Z.opp (int_digits r)
    else if Ascii.eqb c "+"%char then int_digits r
    else int_digits (c :: r)
  | [] => None
  end.

Definition ready_ok_xx (ready : text) : bool :=
  match split_char "/"%char ready with
  | [a; b] =>
    match py_int a, py_int b with
    | Some x, Some y => x =? y
    | _, _ => false
    end
  | _ => false
  end.

(** [extract_stdout]:
    [re.search(r"--- stdout ---\s*\n(.*?)\n--- stderr ---", text, re.S)]. *)
Definition stderr_mark : text := [LF] ++ T "--- stderr ---".

(** [(.*?)\n--- stderr ---]: the shortest group. *)
Fixpoint lazy_group (t : text) : option text :=
  if startswith stderr_mark t then Some []
  else match t with
       | [] => None
       | c :: t' => option_map (cons c) (lazy_group t')
       end.

(** [\s*\n(.*?)\n--- stderr ---]: the longest run of white space that
    leaves a line feed and a match of the rest. *)
Fixpoint space_then_group (t : text) : option text :=
  match t with
  | [] => None
  | c :: t' =>
    if is_space c then
      match space_then_group t' with
      | Some g => Some g
      | None => if Ascii.eqb c LF then lazy_group t' else None
      end
    else None
  end.

Fixpoint search_stdout (t : text) : option text :=
  let here :=
    match strip_prefix (T "--- stdout ---") t with
    | Some rest => space_then_group rest
    | None => None
    end in
  match here with
  | Some g => Some g
  | None => match t with [] => None | _ :: t' => search_stdout t' end
  end.

Definition extract_stdout (t : text) : text :=
  match search_stdout t with
  | Some g => g
  | None => t
  end.

Record Analysis := {
  rows : list Row;
  pods_total : Z;
  pods_not_running : Z;
  pods_not_ready : Z;
  not_running : list Row;
  not_ready : list Row
}.

(** The loop of [analyze_raw]: [rows] after the remaining lines. *)
Fixpoint rows_loop (lines : list text) (rows : list Row)
  : outcome (list Row) :=
  match lines with
  | [] => Ret rows
  | line :: rest =>
    match POD_LINE_RE_match (strip line) with
    | None => rows_loop rest rows
    | Some m => r <- row_of_match m ;; rows_loop rest (rows ++ [r])
    end
  end.

(** The dictionary that [analyze_raw] returns for its rows. *)
Definition analysis_of (rows : list Row) : Analysis :=
  let not_running :=
    filter (fun r => negb (text_eqb (status r) (T "Running"))) rows in
  let not_ready := filter (fun r => negb (ready_ok_xx (ready r))) rows in
  {| rows := rows;
     pods_total := Z.of_nat (List.length rows);
     pods_not_running := Z.of_nat (List.length not_running);
     pods_not_ready := Z.of_nat (List.length not_ready);
     not_running := not_running;
     not_ready := not_ready |}.

(** [analyze_raw] on the text of the artifact. *)
Definition analyze (t : text) : outcome Analysis :=
  rows <- rows_loop (splitlines (extract_stdout t)) [] ;;
  Ret (analysis_of rows).

Definition compute_status (a : Analysis) : text :=
  if pods_total a =? 0 then FAIL
  else if (pods_not_running a >? 0) || (pods_not_ready a >? 0) then FAIL
  else OK.

Record k8s_cfg := {
  namespace : option text;
  grep_patterns : option (list text)
}.

Definition build_remote_block (namespace : text) (grep_patterns : list text)
  : text :=
  let parts :=
    [T "date"; T "echo " ++ [DQ] ++ T "NAMESPACE=" ++ namespace ++ [DQ];
     T "echo " ++ [DQ; DQ]]
    ++ flat_map
         (fun pat =>
            [T "echo " ++ [DQ] ++ T "### GET_PODS grep=" ++ pat ++ [DQ];
             T "kubectl get pods -n " ++ namespace ++ T " | grep -i "
             ++ [DQ] ++ pat ++ [DQ] ++ T " || echo " ++ [DQ] ++ T "(none)" ++ [DQ];
             T "echo " ++ [DQ; DQ]])
         grep_patterns in
  join (T " ; ") parts.

(** The world of one run of the check; the SSH calls are indexed by the
    attempt that makes them. *)
Record Env := {
  from_private_key_file : Z -> key_class -> text -> outcome PKey;
  connect : Z -> text -> Z -> text -> PKey -> outcome unit;
  exec_command : Z -> text -> outcome unit;
  read_channel : Z -> Z -> Z -> outcome RemoteExec;
  close : Z -> outcome unit;
  (** [str(Path(dir) / file)] and [str(Path(path).parent)], as [pathlib]
      has them on the platform *)
  path_join : text -> text -> text;
  path_parent : text -> text;
  (** [path.parent.mkdir(parents=True, exist_ok=True)], on the parent *)
  mkdir : text -> outcome unit;
  write_file : text -> text -> outcome unit;
  (** [raw_file.read_text(encoding="utf-8", errors="replace")] *)
  read_text : text -> outcome text;
  now : clock_site -> datetime
}.

(** The [try] block of one attempt of [ssh_run_sudo_block]. *)
Definition attempt_body (E : Env) (host : text) (port : Z) (user key_path bash_block : text)
    (connect_timeout channel_timeout read_timeout : Z) (attempt : Z)
  : outcome RemoteExec :=
  pkey <- load_private_key (from_private_key_file E attempt) key_path ;;
  _ <- connect E attempt host port user pkey ;;
  let remote_cmd := T "sudo -n bash -lc " ++ quote_for_bash bash_block in
  _ <- exec_command E attempt remote_cmd ;;
  read_channel E attempt channel_timeout read_timeout.

Definition ssh_run_sudo_block (E : Env) (host : text) (port : Z)
    (user key_path bash_block : text)
    (connect_timeout channel_timeout read_timeout tries : Z)
  : outcome RemoteExec * list Retry.event :=
  Retry.retry
    (attempt_body E host port user key_path bash_block
       connect_timeout channel_timeout read_timeout)
    (T "k8s_dis_nci") tries.

Definition raw_content (ts : datetime) (host user namespace stdout stderr : text)
    (exit_code : Z) (exc : text) : text :=
  T "Host: " ++ host ++ [LF] ++ T "User: " ++ user ++ [LF]
  ++ T "TimestampLocal: " ++ isoformat "T" ts ++ [LF]
  ++ T "Namespace: " ++ namespace ++ [LF]
  ++ T "ExitCode: " ++ str_of_Z exit_code ++ [LF]
  ++ (if is_empty exc then [] else T "Exception: " ++ exc ++ [LF])
  ++ [LF] ++ T "--- stdout ---" ++ [LF]
  ++ (if is_empty stdout then vacio ++ [LF] else stdout)
  ++ [LF] ++ T "--- stderr ---" ++ [LF]
  ++ (if is_empty stderr then vacio ++ [LF] else stderr)
  ++ [LF].

Definition write_raw_file (E : Env) (ts : datetime)
    (path dir host user namespace stdout stderr : text) (exit_code : Z)
    (exc : text) : outcome unit :=
  _ <- mkdir E dir ;;
  write_file E path
    (raw_content ts host user namespace stdout stderr exit_code exc).

Definition analyze_raw (E : Env) (raw_file : text) : outcome Analysis :=
  t <- read_text E raw_file ;;
  analyze t.

(** The [except Exception as e] block of [run]. *)
Definition on_exception (E : Env) (ssh_cfg : ssh_cfg) (k8s_cfg : k8s_cfg)
    (raw_file dir : text) (stdout stderr : text) (exit_code : Z) (e : exn)
  : outcome CheckResult :=
  let _ := swallow
    (host <- item "host" (host ssh_cfg) ;;
     user <- item "user" (user ssh_cfg) ;;
     ns <- item "namespace" (namespace k8s_cfg) ;;
     write_raw_file E (now E AtException) raw_file dir host user ns
       stdout stderr exit_code (exn_msg e)) in
  Ret {| name := Some (T "k8s_dis_nci"); Model.status := FAIL; metrics := [];
         details := [(T "error", VStr (exn_msg e));
                     (T "raw_exit_code", VInt exit_code)];
         raw_file := Some raw_file |}.

(** The [try] block of [run] from the assignment of
    [stdout, stderr, exit_code] on.  The metrics are [float] of the lengths
    of three lists, which it represents as they are. *)
Definition after_exec (E : Env) (ssh_cfg : ssh_cfg) (k8s_cfg : k8s_cfg)
    (raw_file dir : text) (stdout stderr : text) (exit_code : Z)
  : outcome CheckResult :=
  host <- item "host" (host ssh_cfg) ;;
  user <- item "user" (user ssh_cfg) ;;
  ns <- item "namespace" (namespace k8s_cfg) ;;
  _ <- write_raw_file E (now E AtArtifact) raw_file dir host user ns
         stdout stderr exit_code [] ;;
  a <- analyze_raw E raw_file ;;
  let status := compute_status a in
  ns' <- item "namespace" (namespace k8s_cfg) ;;
  Ret {| name := Some (T "k8s_dis_nci"); Model.status := status;
         metrics :=
           [(T "pods_total", VNum (inject_Z (pods_total a)));
            (T "pods_not_running", VNum (inject_Z (pods_not_running a)));
            (T "pods_not_ready", VNum (inject_Z (pods_not_ready a)))];
         details :=
           [(T "namespace", VStr ns');
            (T "pods",
             VList (map (fun r => VDict [(T "pod", VStr (pod r));
                                         (T "short", VStr (short r))])
                        (rows a)));
            (T "raw_exit_code", VInt exit_code)];
         raw_file := Some raw_file |}.

(** The call of [ssh_run_sudo_block] in [run], its arguments read from
    [ssh_cfg]. *)
Definition call_ssh_run (E : Env) (ssh_cfg : ssh_cfg) (block : text)
  : outcome RemoteExec :=
  host <- item "host" (host ssh_cfg) ;;
  port <- item "port" (port ssh_cfg) ;;
  user <- item "user" (user ssh_cfg) ;;
  key_path <- item "key_path" (key_path ssh_cfg) ;;
  fst (ssh_run_sudo_block E host port user key_path block 10 20 60 2).

(** The [try] block of [run] as a whole. *)
Definition try_block (E : Env) (ssh_cfg : ssh_cfg) (k8s_cfg : k8s_cfg)
    (raw_file dir block : text) : outcome CheckResult :=
  r <- call_ssh_run E ssh_cfg block ;;
  let '(stdout, stderr, exit_code) := r in
  after_exec E ssh_cfg k8s_cfg raw_file dir stdout stderr exit_code.

Definition run (E : Env) (ssh_cfg : ssh_cfg) (k8s_cfg : k8s_cfg)
    (output_dirs : output_dirs) : outcome CheckResult :=
  raw_dir <- item "raw" (raw output_dirs) ;;
  let raw_file := path_join E raw_dir (T "k8s_dis_nci_latest.txt") in
  let dir := path_parent E raw_file in
  ns <- item "namespace" (namespace k8s_cfg) ;;
  pats <- item "grep_patterns" (grep_patterns k8s_cfg) ;;
  let block := build_remote_block ns pats in
  match call_ssh_run E ssh_cfg block with
  | Raise e => on_exception E ssh_cfg k8s_cfg raw_file dir [] [] 255 e
  | Ret (stdout, stderr, exit_code) =>
    try_except
      (after_exec E ssh_cfg k8s_cfg raw_file dir stdout stderr exit_code)
      (on_exception E ssh_cfg k8s_cfg raw_file dir stdout stderr exit_code)
  end.

(** A pod row that is not as it should be: its phase is not [Running], or
    its ready count "m/n" has [m <> n], or one of the two numbers has more
    digits than [int] converts. *)
Definition unhealthy (r : Row) : Prop :=
  status r <> T "Running"
  \/ exists m n : text,
       ready r = m ++ T "/" ++ n /\ m <> [] /\ n <> []
       /\ all_digits m = true /\ all_digits n = true
       /\ (dec m <> dec n
           \/ int_max_str_digits < Z.of_nat (List.length m)
           \/ int_max_str_digits < Z.of_nat (List.length n)).

(** The shape of the ready count of a parsed row. *)
Definition ready_shape (r : Row) : Prop :=
  exists m n : text,
    ready r = m ++ T "/" ++ n /\ m <> [] /\ n <> []
    /\ all_digits m = true /\ all_digits n = true.

End K8s.

(* ================================================================== *)
(** * main.py: the aggregator *)
(* ================================================================== *)

Module Main.
Import Py Model.

(** [status_rank]: [{"OK": 0, "WARN": 1, "FAIL": 2}.get(status, 2)]. *)
Definition status_rank (status : text) : Z :=
  if text_eqb status OK then 0
  else if text_eqb status WARN then 1
  else if text_eqb status FAIL then 2
  else 2.

(** An entry of [config.CHECKS]. *)
Record check_cfg := {
  type : option text;
  server : option text;
  namespace : option text;
  grep_patterns : option (list text)
}.

(** An element of [results]. *)
Record Result := {
  res_name : text;
  res_type : text;
  res_server : text;
  res_status : text;
  res_metrics : dict;
  res_details : dict;
  res_raw_file : option text
}.

Record Snapshot := {
  timestamp : datetime;
  global_status : text;
  results : list Result
}.

(** [SERVERS.get(server_name)]. *)
Fixpoint servers_get (SERVERS : list (text * ssh_cfg)) (k : text)
  : option ssh_cfg :=
  match SERVERS with
  | [] => None
  | (k', v) :: rest => if text_eqb k' k then Some v else servers_get rest k
  end.

Definition is_some {A} (o : option A) : bool :=
  match o with Some _ => true | None => false end.

(** [not ssh_cfg]: [None], or a dictionary without keys. *)
Definition falsy_cfg (o : option ssh_cfg) : bool :=
  match o with
  | None => true
  | Some c =>
    negb (is_some (label c) || is_some (host c) || is_some (port c)
          || is_some (user c) || is_some (key_path c)
          || is_some (password c) || is_some (jump_target c))
  end.

(** [not ssh_cfg.get("password")]. *)
Definition no_password (c : ssh_cfg) : bool :=
  match password c with
  | None => true
  | Some p => is_empty p
  end.

Definition main_output_dirs : output_dirs :=
  {| raw := Some (T "output/raw");
     snapshots := Some (T "output/snapshots");
     logs := Some (T "output/logs") |}.

Section Aggregator.

(** The three [run] entry points, at the check of a given name. *)
Variable run_k8s_dis_nci :
  text -> ssh_cfg -> K8s.k8s_cfg -> output_dirs -> outcome CheckResult.
Variable run_nelmon_check : text -> ssh_cfg -> output_dirs -> outcome CheckResult.
Variable run_boundary : text -> ssh_cfg -> output_dirs -> outcome CheckResult.

(** [ensure_output_dirs] and [setup_logging]. *)
Variable setup : outcome unit.
(** [round(time.time() - start, 2)] at the check of a given name. *)
Variable elapsed : text -> Q.
Variable snapshot_time : datetime.
(** [snap_file.write_text(json.dumps(snapshot, ...))]. *)
Variable write_snapshot : Snapshot -> outcome unit.

(** The dispatch on [check_type] inside the [try] block. *)
Definition dispatch (check_name check_type server_name : text)
    (cfg : check_cfg) (ssh_cfg : ssh_cfg) : outcome CheckResult :=
  if text_eqb check_type (T "k8s_dis_nci") then
    ns <- item "namespace" (namespace cfg) ;;
    pats <- item "grep_patterns" (grep_patterns cfg) ;;
    run_k8s_dis_nci check_name ssh_cfg
      {| K8s.namespace := Some ns; K8s.grep_patterns := Some pats |}
      main_output_dirs
  else if text_eqb check_type (T "nelmon_check") then
    if no_password ssh_cfg then
      Raise (Exn ERuntime
               (T "Password vac" ++ [i_acute] ++ T "o para " ++ server_name
                ++ T ". Defin" ++ [i_acute]
                ++ T " la variable de entorno NELMON_PASS o config."))
    else run_nelmon_check check_name ssh_cfg main_output_dirs
  else if text_eqb check_type (T "boundary") then
    run_boundary check_name ssh_cfg main_output_dirs
  else Raise (Exn ERuntime (T "Tipo de check no soportado: " ++ check_type)).

Variable SERVERS : list (text * ssh_cfg).

Definition failed (check_name check_type server_name : text) (details : dict)
  : Result :=
  {| res_name := check_name; res_type := check_type;
     res_server := server_name; res_status := FAIL; res_metrics := [];
     res_details := details; res_raw_file := None |}.

(** The body of the [for] loop: [results] and [worst_status] after one more
    check. *)
Definition step (st : list Result * text) (chk : text * check_cfg)
  : outcome (list Result * text) :=
  let (results, worst_status) := st in
  let (check_name, cfg) := chk in
  check_type <- item "type" (type cfg) ;;
  server_name <- item "server" (server cfg) ;;
  let ssh_cfg := servers_get SERVERS server_name in
  match (if falsy_cfg ssh_cfg then None else ssh_cfg) with
  | None =>
    let msg := T "Servidor '" ++ server_name ++ T "' no definido en SERVERS" in
    Ret (results
         ++ [failed check_name check_type server_name [(T "error", VStr msg)]],
         FAIL)
  | Some ssh_cfg =>
    match dispatch check_name check_type server_name cfg ssh_cfg with
    | Ret result =>
      let details := dict_set (details result) (T "duration_sec")
                       (VNum (elapsed check_name)) in
      Ret (results
           ++ [{| res_name := check_name; res_type := check_type;
                  res_server := server_name; res_status := status result;
                  res_metrics := metrics result; res_details := details;
                  res_raw_file := raw_file result |}],
           if status_rank (status result) >? status_rank worst_status
           then status result else worst_status)
    | Raise e =>
      Ret (results
           ++ [failed check_name check_type server_name
                 [(T "error", VStr (exn_msg e));
                  (T "duration_sec", VNum (elapsed check_name))]],
           FAIL)
    end
  end.

(** [for check_name, cfg in CHECKS.items()]. *)
Fixpoint loop (CHECKS : list (text * check_cfg)) (st : list Result * text)
  : outcome (list Result * text) :=
  match CHECKS with
  | [] => Ret st
  | chk :: rest =>
    st' <- step st chk ;;
    loop rest st'
  end.

(** [main]: the snapshot it writes and the code of its [SystemExit]. *)
Definition main (CHECKS : list (text * check_cfg)) : outcome (Snapshot * Z) :=
  _ <- setup ;;
  st <- loop CHECKS ([], OK) ;;
  let (results, worst_status) := st in
  let snapshot := {| timestamp := snapshot_time;
                     global_status := worst_status;
                     results := results |} in
  _ <- write_snapshot snapshot ;;
  Ret (snapshot, status_rank worst_status).

End Aggregator.

(** The greatest rank among the results, 0 when there is none. *)
Definition max_rank (rs : list Result) : Z :=
  fold_right (fun r m => Z.max (status_rank (res_status r)) m) 0 rs.

(** What the loop maintains between [results] and [worst_status]. *)
Definition agrees (st : list Result * text) : Prop :=
  status_rank (snd st) = max_rank (fst st)
  /\ (snd st = OK \/ In (snd st) (map res_status (fst st))).

(** A registry whose checks all declare their type and their server. *)
Definition declared (CHECKS : list (text * check_cfg)) : Prop :=
  Forall (fun chk => type (snd chk) <> None /\ server (snd chk) <> None) CHECKS.

End Main.

(* ================================================================== *)
(** * Sample worlds and inputs *)
(* ================================================================== *)

Module Samples.
Import Py Model.

Definition refused (attempt : Z) : exn :=
  Exn EOther (T "connection refused, attempt " ++ str_of_Z attempt).

Definition t0 : datetime :=
  {| year := 2024; month := 1; day := 1; hour := 0; minute := 0;
     second := 0; microsecond := 0 |}.

(** A nelmon host that refuses every connection. *)
Definition nelmon_down : Nelmon.Env :=
  {| Nelmon.connect := fun attempt _ _ _ _ => Raise (refused attempt);
     Nelmon.exec_command := fun _ _ => Ret tt;
     Nelmon.read_channel := fun _ _ _ => Ret ([], [], 0);
     Nelmon.close := fun _ => Ret tt;
     Nelmon.path_join := posix_join;
     Nelmon.path_parent := posix_parent;
     Nelmon.mkdir := fun _ => Ret tt;
     Nelmon.write_file := fun _ _ => Ret tt;
     Nelmon.now := fun _ => t0 |}.

(** A cluster host whose key loads and that refuses every connection. *)
Definition k8s_down : K8s.Env :=
  {| K8s.from_private_key_file := fun _ _ _ => Ret (T "key");
     K8s.connect := fun attempt _ _ _ _ => Raise (refused attempt);
     K8s.exec_command := fun _ _ => Ret tt;
     K8s.read_channel := fun _ _ _ => Ret ([], [], 0);
     K8s.close := fun _ => Ret tt;
     K8s.path_join := posix_join;
     K8s.path_parent := posix_parent;
     K8s.mkdir := fun _ => Ret tt;
     K8s.write_file := fun _ _ => Ret tt;
     K8s.read_text := fun _ => Ret [];
     K8s.now := fun _ => t0 |}.

(** Three checks as the aggregator sees them: a boundary check that is OK, a
    pod check that fails and a disk check that warns. *)
Definition result_of (n st : text) : CheckResult :=
  {| name := Some n; status := st; metrics := []; details := [];
     raw_file := Some (T "output/raw/" ++ n) |}.

Definition server_1 : ssh_cfg :=
  {| label := Some (T "one"); host := Some (T "10.0.0.1"); port := Some 22;
     user := Some (T "root"); key_path := Some (T "id_rsa");
     password := Some (T "secret"); jump_target := None |}.

Definition three_checks : list (text * Main.check_cfg) :=
  [(T "boundary",
    {| Main.type := Some (T "boundary"); Main.server := Some (T "s1");
       Main.namespace := None; Main.grep_patterns := None |});
   (T "k8s_dis_nci",
    {| Main.type := Some (T "k8s_dis_nci"); Main.server := Some (T "s1");
       Main.namespace := Some (T "dis-nci");
       Main.grep_patterns := Some [T "iceca"] |});
   (T "nelmon_check_1",
    {| Main.type := Some (T "nelmon_check"); Main.server := Some (T "s1");
       Main.namespace := None; Main.grep_patterns := None |})].

Definition main_three : outcome (Main.Snapshot * Z) :=
  Main.main
    (fun n _ _ _ => Ret (result_of n FAIL))
    (fun n _ _ => Ret (result_of n WARN))
    (fun n _ _ => Ret (result_of n OK))
    (Ret tt) (fun _ => 0%Q) t0 (fun _ => Ret tt)
    [(T "s1", server_1)] three_checks.

(** A command that never ends: output is announced at every poll, every
    read of it times out on the socket after 25 s, and the exit status is
    never ready. *)
Definition socket_timeout : exn := Exn ETimeout (T "timed out").

Definition hung : Channel.Chan :=
  {| Channel.time := fun k => 1000 + 25000 * Z.of_nat k;
     Channel.recv_ready := fun _ => Ret true;
     Channel.recv := fun _ => Raise socket_timeout;
     Channel.recv_stderr_ready := fun _ => Ret false;
     Channel.recv_stderr := fun _ => Ret [];
     Channel.exit_status_ready := fun _ => Ret false;
     Channel.recv_exit_status := Ret 0;
     Channel.close := Ret tt |}.

Definition latin1 (b : Channel.bytes) : text := map ascii_of_byte b.

(** The output of the boundary command: the marker of the remote clock and
    the table of psql. *)
Definition line (t : string) : text := T t ++ [LF].

Definition table_header : text :=
  line "       jobid       |      maxvalue       | region_id"
  ++ line "-------------------+---------------------+-----------".

(** Two rows with an empty line between them. *)
Definition table_with_gap : text :=
  table_header
  ++ line " UsageJobA         | 2024-01-01 00:00:00 | region-1"
  ++ line ""
  ++ line " UsageJobB         | 2024-01-01 00:05:00 | region-2"
  ++ line "(2 rows)".

Definition row_a : Boundary.Row :=
  {| Boundary.jobid := T "UsageJobA";
     Boundary.maxvalue := T "2024-01-01 00:00:00";
     Boundary.region_id := T "region-1" |}.

Definition row_b : Boundary.Row :=
  {| Boundary.jobid := T "UsageJobB";
     Boundary.maxvalue := T "2024-01-01 00:05:00";
     Boundary.region_id := T "region-2" |}.

(** The output of the boundary command 100 seconds after the newest
    maxvalue. *)
Definition boundary_stdout : text :=
  line "NOW_LOCAL=2024-01-01 00:06:40" ++ table_with_gap.

(** A boundary host that answers with the given output and exit code. *)
Definition boundary_up (stdout : text) (exit_code : Z) : Boundary.Env :=
  {| Boundary.from_private_key_file := fun _ _ => Ret (T "key");
     Boundary.connect := fun _ _ _ _ => Ret tt;
     Boundary.exec_command := fun _ => Ret tt;
     Boundary.read_channel := fun _ _ => Ret (stdout, [], exit_code);
     Boundary.path_join := posix_join;
     Boundary.write_text := fun _ _ => Ret tt;
     Boundary.now := fun _ => t0;
     Boundary.close := Ret tt |}.

(** The profile of a nelmon server in [config.py]: a password and no
    [key_path]. *)
Definition nelmon_profile : ssh_cfg :=
  {| label := Some (T "NLMSAN01 (10.105.93.164)");
     host := Some (T "10.105.93.164"); port := Some 22;
     user := Some (T "root"); key_path := None;
     password := Some (T "secret"); jump_target := None |}.

(** [uptime ; df -h] on a host whose /boot is used at 10 percent. *)
Definition df_output : text :=
  line " 12:00:00 up 1 day,  1 user,  load average: 0.00, 0.01, 0.05"
  ++ line "Filesystem      Size  Used Avail Use% Mounted on"
  ++ line "/dev/sda2        50G   20G   30G  40% /"
  ++ line "/dev/sda1      1014M  102M  913M  10% /boot".

(** A nelmon host that answers with the given output and exit code. *)
Definition nelmon_up (stdout : text) (exit_code : Z) : Nelmon.Env :=
  {| Nelmon.connect := fun _ _ _ _ _ => Ret tt;
     Nelmon.exec_command := fun _ _ => Ret tt;
     Nelmon.read_channel := fun _ _ _ => Ret (stdout, [], exit_code);
     Nelmon.close := fun _ => Ret tt;
     Nelmon.path_join := posix_join;
     Nelmon.path_parent := posix_parent;
     Nelmon.mkdir := fun _ => Ret tt;
     Nelmon.write_file := fun _ _ => Ret tt;
     Nelmon.now := fun _ => t0 |}.

(** The pod list of a healthy namespace, and of one with a crashing pod. *)
Definition pods_healthy : text :=
  line "NAMESPACE=dis-nci" ++ line ""
  ++ line "### GET_PODS grep=iceca"
  ++ line "iceca-7d9f8b6c5-abcde          1/1     Running   0     5d"
  ++ line "iceca-7d9f8b6c5-fghij          2/2     Running   3     12h".

Definition pods_crashing : text :=
  pods_healthy
  ++ line "ice-mapreduce-0                0/1     CrashLoopBackOff   17    3h".

Definition k8s_profile : K8s.k8s_cfg :=
  {| K8s.namespace := Some (T "dis-nci");
     K8s.grep_patterns := Some [T "iceca"] |}.

(** A cluster host that answers with the given output and exit code, on a
    file system that reads back the artifact that was written. *)
Definition k8s_up (stdout : text) (exit_code : Z) : K8s.Env :=
  {| K8s.from_private_key_file := fun _ _ _ => Ret (T "key");
     K8s.connect := fun _ _ _ _ _ => Ret tt;
     K8s.exec_command := fun _ _ => Ret tt;
     K8s.read_channel := fun _ _ _ => Ret (stdout, [], exit_code);
     K8s.close := fun _ => Ret tt;
     K8s.path_join := posix_join;
     K8s.path_parent := posix_parent;
     K8s.mkdir := fun _ => Ret tt;
     K8s.write_file := fun _ _ => Ret tt;
     K8s.read_text := fun _ =>
       Ret (K8s.raw_content t0 (T "10.0.0.1") (T "root") (T "dis-nci")
              stdout [] exit_code []);
     K8s.now := fun _ => t0 |}.

(** The remote clock of [boundary_stdout]. *)
Definition now_marker : datetime :=
  {| year := 2024; month := 1; day := 1; hour := 0; minute := 6;
     second := 40; microsecond := 0 |}.

Definition newest_b : datetime :=
  {| year := 2024; month := 1; day := 1; hour := 0; minute := 5;
     second := 0; microsecond := 0 |}.

(** The same host when the artifact cannot be written. *)
Definition read_only : exn := Exn EOther (T "[Errno 30] Read-only file system").

Definition boundary_read_only (stdout : text) (exit_code : Z) : Boundary.Env :=
  {| Boundary.from_private_key_file := fun _ _ => Ret (T "key");
     Boundary.connect := fun _ _ _ _ => Ret tt;
     Boundary.exec_command := fun _ => Ret tt;
     Boundary.read_channel := fun _ _ => Ret (stdout, [], exit_code);
     Boundary.path_join := posix_join;
     Boundary.write_text := fun _ _ => Raise read_only;
     Boundary.now := fun _ => t0;
     Boundary.close := Ret tt |}.

(** A profile without [host], and a pod check without [namespace]. *)
Definition no_host : ssh_cfg :=
  {| label := Some (T "unnamed"); host := None; port := Some 22;
     user := Some (T "root"); key_path := None;
     password := Some (T "secret"); jump_target := None |}.

Definition no_namespace : K8s.k8s_cfg :=
  {| K8s.namespace := None; K8s.grep_patterns := Some [T "iceca"] |}.

(** A line and two line feeds. *)
Definition two_feeds : text := T "a" ++ [LF; LF].

Definition three_snapshot : Main.Snapshot :=
  match main_three with
  | Ret (snap, _) => snap
  | Raise _ => {| Main.timestamp := t0; Main.global_status := [];
                  Main.results := [] |}
  end.

End Samples.

(* ================================================================== *)
(** * Notions for the further properties *)
(* ================================================================== *)

Module Shell.
Import Py.

(** How a POSIX shell reads one word: outside quotes, between single quotes
    (every character is literal), between double quotes (every character is
    literal but the dollar, the backquote and the backslash). *)
Inductive quoting := Unquoted | Single | Double.

Definition is_expanded (c : ascii) : bool :=
  let n := code c in ((n =? 36) || (n =? 96) || (n =? 92))%N.

(** The word that the shell makes of a text, on the texts that need no
    expansion: safe characters outside quotes, and quoted parts; [None] on
    any other text, and on a quote left open. *)
Fixpoint sh_word (q : quoting) (t : text) : option text :=
  match t with
  | [] => match q with Unquoted => Some [] | _ => None end
  | c :: r =>
    match q with
    | Unquoted =>
      if Ascii.eqb c SQ then sh_word Single r
      else if Ascii.eqb c DQ then sh_word Double r
      else if is_shell_safe c then option_map (cons c) (sh_word Unquoted r)
      else None
    | Single =>
      if Ascii.eqb c SQ then sh_word Unquoted r
      else option_map (cons c) (sh_word Single r)
    | Double =>
      if Ascii.eqb c DQ then sh_word Unquoted r
      else if is_expanded c then None
      else option_map (cons c) (sh_word Double r)
    end
  end.

End Shell.

Module More.
Import Py Model.

(** The statuses of the snapshot contract. *)
Definition known_status (s : text) : Prop := s = OK \/ s = WARN \/ s = FAIL.

(** The chunks that a channel hands over in the iterations
    [from, from + 1, ...], [count] of them, when the poll of iteration [i]
    announces data as [ready i] says and reads [data i]. *)
Fixpoint chunks (ready : nat -> bool) (data : nat -> Channel.bytes)
    (from count : nat) : list Channel.bytes :=
  match count with
  | O => []
  | S c =>
    (if ready from then [data from] else []) ++ chunks ready data (S from) c
  end.

(** A channel that raises nothing in its first [n + 1] iterations, whose
    command ends at iteration [n]. *)
Definition clean_until (ch : Channel.Chan) (n : nat)
    (ready : nat -> bool) (data : nat -> Channel.bytes)
    (eready : nat -> bool) (edata : nat -> Channel.bytes) : Prop :=
  (forall i, (i <= n)%nat ->
     Channel.recv_ready ch i = Ret (ready i)
     /\ (ready i = true -> Channel.recv ch i = Ret (data i))
     /\ Channel.recv_stderr_ready ch i = Ret (eready i)
     /\ (eready i = true -> Channel.recv_stderr ch i = Ret (edata i)))
  /\ (forall i, (i < n)%nat -> Channel.exit_status_ready ch i = Ret false)
  /\ Channel.exit_status_ready ch n = Ret true.

(** The head of the artifact of the pod check, up to the line feed before
    its stdout marker. *)
Definition k8s_head (ts : datetime) (host user namespace : text)
    (exit_code : Z) (exc : text) : text :=
  T "Host: " ++ host ++ [LF] ++ T "User: " ++ user ++ [LF]
  ++ T "TimestampLocal: " ++ isoformat "T" ts ++ [LF]
  ++ T "Namespace: " ++ namespace ++ [LF]
  ++ T "ExitCode: " ++ str_of_Z exit_code ++ [LF]
  ++ (if is_empty exc then [] else T "Exception: " ++ exc ++ [LF])
  ++ [LF].

(** Three dashes, the stdout marker of the artifacts, and a line feed
    followed by a dash. *)
Definition dashes : text := T "---".
Definition marker : text := T "--- stdout ---".
Definition feed_dash : text := [LF; "-"%char].

End More.

Module MoreSamples.
Import Py Model.

(** A command that writes two chunks of output and ends at the third
    poll, well before its deadline. *)
Definition chunk (t : string) : Channel.bytes :=
  map byte_of_ascii (T t).

Definition ended : Channel.Chan :=
  {| Channel.time := fun k => 100 * Z.of_nat k;
     Channel.recv_ready := fun i => Ret (i <? 2)%nat;
     Channel.recv := fun i => Ret (if (i =? 0)%nat then chunk "up 1 " else chunk "day");
     Channel.recv_stderr_ready := fun _ => Ret false;
     Channel.recv_stderr := fun _ => Ret [];
     Channel.exit_status_ready := fun i => Ret (i =? 2)%nat;
     Channel.recv_exit_status := Ret 0;
     Channel.close := Ret tt |}.

(** A nelmon host that refuses the first connection and then answers. *)
Definition nelmon_flaky (stdout : text) : Nelmon.Env :=
  {| Nelmon.connect := fun attempt _ _ _ _ =>
       if attempt =? 1 then Raise (Samples.refused attempt) else Ret tt;
     Nelmon.exec_command := fun _ _ => Ret tt;
     Nelmon.read_channel := fun _ _ _ => Ret (stdout, [], 0);
     Nelmon.close := fun _ => Ret tt;
     Nelmon.path_join := posix_join;
     Nelmon.path_parent := posix_parent;
     Nelmon.mkdir := fun _ => Ret tt;
     Nelmon.write_file := fun _ _ => Ret tt;
     Nelmon.now := fun _ => Samples.t0 |}.

(** A boundary host whose key file no class can load. *)
Definition bad_key (cls : key_class) : exn :=
  Exn EOther (match cls with
              | RSAKey => T "not a valid RSA private key file"
              | Ed25519Key => T "not a valid OPENSSH private key file"
              | ECDSAKey => T "not a valid EC private key file"
              end).

Definition boundary_no_key : Boundary.Env :=
  {| Boundary.from_private_key_file := fun cls _ => Raise (bad_key cls);
     Boundary.connect := fun _ _ _ _ => Ret tt;
     Boundary.exec_command := fun _ => Ret tt;
     Boundary.read_channel := fun _ _ => Ret ([], [], 0);
     Boundary.path_join := posix_join;
     Boundary.write_text := fun _ _ => Ret tt;
     Boundary.now := fun _ => Samples.t0;
     Boundary.close := Ret tt |}.

(** The output of the boundary command when the table has no row. *)
Definition boundary_empty_table : text :=
  Samples.line "NOW_LOCAL=2024-01-01 00:06:40" ++ Samples.table_header
  ++ Samples.line "(0 rows)".

(** A pod that is Running with a ready count of two equal numbers of 4301
    digits. *)
Definition long_count : text := repeat "0"%char 4300 ++ T "1".

Definition pods_long_ready : text :=
  T "iceca-7d9f8b6c5-abcde " ++ long_count ++ T "/" ++ long_count
  ++ T " Running 0 5d" ++ [LF].

(** A registry and its servers as the aggregator sees them: the runners
    answer OK, one server has an empty password. *)
Definition server_2 : ssh_cfg :=
  {| label := Some (T "two"); host := Some (T "10.0.0.2"); port := Some 22;
     user := Some (T "nelmon"); key_path := None;
     password := Some []; jump_target := None |}.

Definition check_of (ty srv : string) : Main.check_cfg :=
  {| Main.type := Some (T ty); Main.server := Some (T srv);
     Main.namespace := None; Main.grep_patterns := None |}.

Definition ok_k8s (n : text) (_ : ssh_cfg) (_ : K8s.k8s_cfg) (_ : output_dirs)
  : outcome CheckResult := Ret (Samples.result_of n OK).
Definition ok_run (n : text) (_ : ssh_cfg) (_ : output_dirs)
  : outcome CheckResult := Ret (Samples.result_of n OK).
Definition no_time (_ : text) : Q := 0%Q.
Definition written (_ : Main.Snapshot) : outcome unit := Ret tt.
Definition two_servers : list (text * ssh_cfg) :=
  [(T "s1", Samples.server_1); (T "s2", server_2)].

Definition main_of (CHECKS : list (text * Main.check_cfg))
  : outcome (Main.Snapshot * Z) :=
  Main.main ok_k8s ok_run ok_run (Ret tt) no_time Samples.t0 written
    two_servers CHECKS.

(** A check on a server that the registry of servers lacks. *)
Definition lost_checks : list (text * Main.check_cfg) :=
  [(T "boundary", check_of "boundary" "s1");
   (T "nelmon_9", check_of "nelmon_check" "s9")].

(** A check of a type that [main] does not know, a disk check on the server
    without password, and a pod check without namespace. *)
Definition odd_checks : list (text * Main.check_cfg) :=
  [(T "ping_1", check_of "ping" "s1");
   (T "nelmon_2", check_of "nelmon_check" "s2");
   (T "pods", check_of "k8s_dis_nci" "s1");
   (T "boundary", check_of "boundary" "s1")].

(** A check that declares no type. *)
Definition untyped_checks : list (text * Main.check_cfg) :=
  [(T "boundary", check_of "boundary" "s1");
   (T "nameless",
    {| Main.type := None; Main.server := Some (T "s1");
       Main.namespace := None; Main.grep_patterns := None |})].

End MoreSamples.

(* ================================================================== *)
(** * Properties *)
(* ================================================================== *)

Module PyFacts.
Import Py.

Lemma text_eqb_eq (a b : text) : text_eqb a b = true <-> a = b.
Proof.
  revert b; induction a as [|x a IH]; intros [|y b]; simpl;
    try (split; [discriminate | discriminate]); try tauto.
  rewrite andb_true_iff, Ascii.eqb_eq, IH.
  split; [intros [-> ->]; reflexivity | intros H; injection H; auto].
Qed.

End PyFacts.

Module SanitizerFacts.
Import Py Boundary.

Lemma linebreak_LF : is_linebreak LF = true.
Proof. reflexivity. Qed.

Lemma CR_is_linebreak (c : ascii) : Ascii.eqb c CR = true -> is_linebreak c = true.
Proof. intros H; apply Ascii.eqb_eq in H; subst; reflexivity. Qed.

Lemma not_break_not_CR (c : ascii) :
  is_linebreak c = false -> Ascii.eqb c CR = false.
Proof.
  intros H; destruct (Ascii.eqb c CR) eqn:E; [|reflexivity].
  apply CR_is_linebreak in E; congruence.
Qed.

Lemma not_break_not_LF (c : ascii) :
  is_linebreak c = false -> Ascii.eqb c LF = false.
Proof.
  intros H; destruct (Ascii.eqb c LF) eqn:E; [|reflexivity].
  apply Ascii.eqb_eq in E; subst; discriminate.
Qed.

(** The loop with its accumulator is [filter_lines]. *)
Lemma fold_filter_step (ls acc : list text) :
  fold_left filter_step ls acc = acc ++ filter_lines ls.
Proof.
  revert acc; induction ls as [|line r IH]; intros acc; simpl.
  - now rewrite app_nil_r.
  - rewrite IH; unfold filter_step.
    destruct (is_empty (strip line)); [now rewrite <- app_assoc|].
    destruct (_BANNER_RE_match (strip line)); [reflexivity|].
    destruct (text_eqb (strip line) hash_rule); [reflexivity|].
    now rewrite <- app_assoc.
Qed.

Lemma filter_boundary_output_lines (t : text) :
  filter_boundary_output t =
  lstrip_char LF (join [LF] (filter_lines (splitlines t))).
Proof. unfold filter_boundary_output; now rewrite fold_filter_step. Qed.

(** No line of [splitlines] holds a line boundary. *)
Lemma splitlines_no_break_len (n : nat) :
  forall t, (List.length t <= n)%nat -> Forall no_break (splitlines t).
Proof.
  induction n as [|n IH]; intros [|c t] Hlen; simpl in *;
    try constructor; try lia.
  assert (Ht : Forall no_break (splitlines t)) by (apply IH; lia).
  destruct (Ascii.eqb c CR).
  - destruct t as [|c' t']; [repeat constructor|].
    destruct (Ascii.eqb c' LF).
    + constructor; [constructor|]. apply IH; simpl in *; lia.
    + constructor; [constructor|exact Ht].
  - destruct (is_linebreak c) eqn:Eb.
    + constructor; [constructor|exact Ht].
    + destruct (splitlines t) as [|l ls].
      * repeat constructor; exact Eb.
      * inversion Ht; subst. constructor; [constructor; assumption|assumption].
Qed.

Lemma splitlines_no_break (t : text) : Forall no_break (splitlines t).
Proof. apply (splitlines_no_break_len (List.length t)); lia. Qed.

(** [splitlines] on a line followed by a line feed, and on a single line. *)
Lemma splitlines_line_LF (l rest : text) :
  no_break l -> splitlines (l ++ LF :: rest) = l :: splitlines rest.
Proof.
  induction 1 as [|c l Hc Hl IH]; simpl.
  - reflexivity.
  - fold (l ++ LF :: rest). rewrite (not_break_not_CR c Hc), Hc.
    simpl in IH. rewrite IH. reflexivity.
Qed.

Lemma splitlines_line (l : text) :
  no_break l -> splitlines l = if is_empty l then [] else [l].
Proof.
  induction 1 as [|c l Hc Hl IH]; simpl.
  - reflexivity.
  - rewrite (not_break_not_CR c Hc), Hc, IH.
    destruct l; reflexivity.
Qed.

Lemma join_cons (l l' : text) (r : list text) :
  join [LF] (l :: l' :: r) = l ++ LF :: join [LF] (l' :: r).
Proof. reflexivity. Qed.

Lemma splitlines_join (ls : list text) :
  Forall no_break ls -> splitlines (join [LF] ls) = drop_last_empty ls.
Proof.
  induction 1 as [|l r Hl Hr IH].
  - reflexivity.
  - destruct r as [|l' r].
    + simpl. apply splitlines_line, Hl.
    + rewrite join_cons, splitlines_line_LF by exact Hl.
      rewrite IH. reflexivity.
Qed.

Lemma dropwhile_cons (p : ascii -> bool) (c : ascii) (t : text) :
  dropwhile p (c :: t) = if p c then dropwhile p t else c :: t.
Proof. reflexivity. Qed.

Lemma lstrip_join (ls : list text) :
  Forall no_break ls ->
  lstrip_char LF (join [LF] ls) = join [LF] (drop_leading_empty ls).
Proof.
  unfold lstrip_char.
  induction 1 as [|l r Hl Hr IH].
  - reflexivity.
  - destruct r as [|l' r].
    + destruct l as [|c l]; [reflexivity|].
      inversion Hl; subst.
      change (join [LF] [c :: l]) with (c :: l).
      rewrite dropwhile_cons, Ascii.eqb_sym, (not_break_not_LF c) by assumption.
      reflexivity.
    + rewrite join_cons.
      destruct l as [|c l].
      * change ([] ++ LF :: join [LF] (l' :: r)) with (LF :: join [LF] (l' :: r)).
        rewrite dropwhile_cons, Ascii.eqb_refl, IH. reflexivity.
      * inversion Hl; subst.
        change ((c :: l) ++ LF :: join [LF] (l' :: r))
          with (c :: (l ++ LF :: join [LF] (l' :: r))).
        rewrite dropwhile_cons, Ascii.eqb_sym, (not_break_not_LF c) by assumption.
        reflexivity.
Qed.

Lemma strip_nil : strip [] = [].
Proof. reflexivity. Qed.

Lemma filter_lines_kept (ls : list text) : Forall kept_line (filter_lines ls).
Proof.
  induction ls as [|line r IH]; simpl; [constructor|].
  destruct (is_empty (strip line)) eqn:E1; [constructor; [now left|exact IH]|].
  destruct (_BANNER_RE_match (strip line)) eqn:E2; [exact IH|].
  destruct (text_eqb (strip line) hash_rule) eqn:E3; [exact IH|].
  constructor; [right; auto|exact IH].
Qed.

Lemma filter_lines_fixed (ls : list text) :
  Forall kept_line ls -> filter_lines ls = ls.
Proof.
  induction 1 as [|l r Hl Hr IH]; simpl; [reflexivity|].
  destruct Hl as [-> | (E1 & E2 & E3)].
  - rewrite strip_nil; simpl. now rewrite IH.
  - rewrite E1, E2, E3, IH. reflexivity.
Qed.

Lemma filter_lines_no_break (ls : list text) :
  Forall no_break ls -> Forall no_break (filter_lines ls).
Proof.
  induction 1 as [|l r Hl Hr IH]; simpl; [constructor|].
  destruct (is_empty (strip l)); [constructor; [constructor|exact IH]|].
  destruct (_BANNER_RE_match (strip l)); [exact IH|].
  destruct (text_eqb (strip l) hash_rule); [exact IH|].
  constructor; assumption.
Qed.

Lemma drop_leading_empty_Forall (P : text -> Prop) (ls : list text) :
  Forall P ls -> Forall P (drop_leading_empty ls).
Proof.
  induction 1 as [|l r Hl Hr IH]; simpl; [constructor|].
  destruct (is_empty l); [exact IH|constructor; assumption].
Qed.

Lemma drop_last_empty_Forall (P : text -> Prop) (ls : list text) :
  Forall P ls -> Forall P (drop_last_empty ls).
Proof.
  induction 1 as [|l r Hl Hr IH]; [constructor|].
  destruct r as [|l' r].
  - simpl. destruct (is_empty l); repeat constructor; assumption.
  - change (Forall P (l :: drop_last_empty (l' :: r))).
    constructor; assumption.
Qed.

(** A list that starts with a line that is not empty still does after
    [drop_last_empty]. *)
Lemma drop_leading_last (ls : list text) :
  drop_leading_empty (drop_last_empty (drop_leading_empty ls)) =
  drop_last_empty (drop_leading_empty ls).
Proof.
  induction ls as [|l r IH]; [reflexivity|].
  simpl. destruct (is_empty l) eqn:E; [exact IH|].
  destruct r as [|l' r].
  - simpl. rewrite E. simpl. now rewrite E.
  - change (drop_last_empty (l :: l' :: r)) with (l :: drop_last_empty (l' :: r)).
    simpl. now rewrite E.
Qed.

Lemma join_nil_inv (ls : list text) :
  join [LF] ls = [] -> ls = [] \/ ls = [[]].
Proof.
  destruct ls as [|l [|l' r]]; simpl; auto.
  - intros ->; auto.
  - intros H. apply app_eq_nil in H as [_ H]. discriminate.
Qed.

Lemma chomp_cons (c c' : ascii) (r : text) :
  chomp (c :: c' :: r) = c :: chomp (c' :: r).
Proof. reflexivity. Qed.

Lemma chomp_app (a x : text) : x <> [] -> chomp (a ++ x) = a ++ chomp x.
Proof.
  intros Hx; induction a as [|c a IH]; [reflexivity|].
  change ((c :: a) ++ x) with (c :: (a ++ x)).
  destruct (a ++ x) as [|c' r] eqn:E.
  - apply app_eq_nil in E as [_ E]; contradiction.
  - rewrite chomp_cons, IH. reflexivity.
Qed.

Lemma chomp_no_LF (l : text) : no_break l -> chomp l = l.
Proof.
  induction 1 as [|c l Hc Hl IH]; [reflexivity|].
  destruct l as [|c' r].
  - simpl. now rewrite (not_break_not_LF c Hc).
  - now rewrite chomp_cons, IH.
Qed.

Lemma chomp_join (ls : list text) :
  Forall no_break ls ->
  chomp (join [LF] ls) = join [LF] (drop_last_empty ls).
Proof.
  induction 1 as [|l r Hl Hr IH]; [reflexivity|].
  destruct r as [|l' r].
  - simpl join at 1. rewrite chomp_no_LF by exact Hl.
    simpl. destruct l; reflexivity.
  - rewrite join_cons.
    destruct (join [LF] (l' :: r)) as [|x xs] eqn:EJ.
    + apply join_nil_inv in EJ as [EJ|EJ]; [discriminate|].
      injection EJ as -> ->. simpl.
      rewrite (chomp_app l [LF]) by discriminate. simpl. now rewrite app_nil_r.
    + rewrite (chomp_app l (LF :: x :: xs)) by discriminate.
      rewrite chomp_cons, IH.
      change (drop_last_empty (l :: l' :: r)) with (l :: drop_last_empty (l' :: r)).
      destruct (drop_last_empty (l' :: r)) eqn:ED.
      * exfalso. destruct r as [|l'' r]; simpl in ED.
        -- destruct l'; simpl in *; discriminate.
        -- discriminate.
      * reflexivity.
Qed.

Lemma filter_output_shape (t : text) :
  let D := drop_leading_empty (filter_lines (splitlines t)) in
  filter_boundary_output t = join [LF] D /\ Forall no_break D /\ Forall kept_line D.
Proof.
  intros D.
  assert (Hnb : Forall no_break (filter_lines (splitlines t)))
    by apply filter_lines_no_break, splitlines_no_break.
  repeat split.
  - rewrite filter_boundary_output_lines. now apply lstrip_join.
  - now apply drop_leading_empty_Forall.
  - apply drop_leading_empty_Forall, filter_lines_kept.
Qed.

Lemma filter_twice_chomp (t : text) :
  filter_boundary_output (filter_boundary_output t) =
  chomp (filter_boundary_output t).
Proof.
  destruct (filter_output_shape t) as (E & Hnb & Hk).
  set (D := drop_leading_empty (filter_lines (splitlines t))) in *.
  rewrite E, chomp_join by exact Hnb.
  rewrite filter_boundary_output_lines, splitlines_join by exact Hnb.
  rewrite filter_lines_fixed by now apply drop_last_empty_Forall.
  rewrite lstrip_join by now apply drop_last_empty_Forall.
  unfold D. now rewrite drop_leading_last.
Qed.

End SanitizerFacts.

Module SanitizerClaims.
Import Py Boundary SanitizerFacts.

Lemma chomp_not_ending (x : text) :
  (forall y, x <> y ++ [LF]) -> chomp x = x.
Proof.
  induction x as [|c x IH]; intros H; [reflexivity|].
  destruct x as [|c' r].
  - simpl. destruct (Ascii.eqb c LF) eqn:E; [|reflexivity].
    apply Ascii.eqb_eq in E. subst. exfalso. now apply (H []).
  - rewrite chomp_cons, IH; [reflexivity|].
    intros y E. apply (H (c :: y)). simpl. now rewrite E.
Qed.

Lemma chomp_ending (y : text) : chomp (y ++ [LF]) = y.
Proof.
  rewrite chomp_app by discriminate. simpl. apply app_nil_r.
Qed.

(** C9, as amended.  Running the sanitizer on sanitized text removes one
    final line feed and nothing else: text that does not end in a line feed
    is left as it is. *)
Theorem filter_boundary_output_twice (t : text) :
  filter_boundary_output (filter_boundary_output t) =
  chomp (filter_boundary_output t)
  /\ ((forall y, filter_boundary_output t <> y ++ [LF]) ->
      filter_boundary_output (filter_boundary_output t) =
      filter_boundary_output t)
  /\ (forall y, filter_boundary_output t = y ++ [LF] ->
      filter_boundary_output (filter_boundary_output t) = y).
Proof.
  split; [apply filter_twice_chomp|]. split.
  - intros H. rewrite filter_twice_chomp. now apply chomp_not_ending.
  - intros y E. rewrite filter_twice_chomp, E. apply chomp_ending.
Qed.

Lemma filter_boundary_output_twice_witness :
  filter_boundary_output (filter_boundary_output Samples.two_feeds) = T "a"
  /\ filter_boundary_output (filter_boundary_output (T "a")) = T "a".
Proof.
  split.
  - apply (proj2 (proj2 (filter_boundary_output_twice Samples.two_feeds))).
    reflexivity.
  - apply (proj1 (proj2 (filter_boundary_output_twice (T "a")))).
    intros y E. vm_compute in E.
    destruct y as [|c [|c' y]]; discriminate.
Defined.

(** C9 as stated fails: the sanitizer is not idempotent on a line followed
    by two line feeds. *)
Lemma filter_boundary_output_not_idempotent :
  filter_boundary_output (filter_boundary_output Samples.two_feeds)
  <> filter_boundary_output Samples.two_feeds.
Proof. vm_compute. discriminate. Qed.

End SanitizerClaims.

(* ------------------------------------------------------------------ *)
(** ** The table parser *)

Module TableFacts.
Import Py Boundary.

Lemma find_header_spec (rest : list text) :
  forall i lines,
    find_header rest i lines =
    match find_index is_header rest with
    | None => (None, None)
    | Some j =>
      (Some (i + j)%nat,
       if (i + j + 1 <? List.length lines)%nat
          && is_separator (nth (i + j + 1) lines [])
       then Some (i + j + 1)%nat else None)
    end.
Proof.
  induction rest as [|ln rest IH]; intros i lines;
    cbn [find_header find_index]; [reflexivity|].
  destruct (is_header ln).
  - now rewrite Nat.add_0_r.
  - rewrite IH. destruct (find_index is_header rest) as [j|]; [|reflexivity].
    cbn [option_map]. now replace (S i + j)%nat with (i + S j)%nat by lia.
Qed.

Lemma is_footer_nil : is_footer [] = false.
Proof. reflexivity. Qed.

(** The second loop keeps the rows of the lines before the footer. *)
Lemma rows_loop_spec_lines (lines : list text) :
  forall rows,
    rows_loop lines rows =
    rows ++ filter_map row_of_line
              (take_until (fun ln => is_footer (strip ln)) lines).
Proof.
  induction lines as [|ln rest IH]; intros rows.
  - simpl. now rewrite app_nil_r.
  - cbn [rows_loop take_until].
    destruct (is_empty (strip ln)) eqn:Ee.
    + assert (Es : strip ln = [])
        by (destruct (strip ln); [reflexivity|discriminate]).
      rewrite Es, is_footer_nil. cbn [filter_map]. unfold row_of_line at 1.
      rewrite Ee. apply IH.
    + destruct (is_footer (strip ln)); [now rewrite app_nil_r|].
      cbn [filter_map]. unfold row_of_line at 1. rewrite Ee.
      destruct (contains (T "|") ln); cbn [negb]; [|apply IH].
      destruct (split_row ln) as [|j [|m [|r ps]]]; try apply IH.
      cbn [List.length nth].
      change ((S (S (S (List.length ps))) <? 3)%nat) with false. cbv iota.
      destruct (is_empty j || is_empty m || is_empty r); [apply IH|].
      rewrite IH, <- app_assoc. reflexivity.
Qed.

Lemma nth_error_test (lines : list text) (k : nat) (p : text -> bool) :
  ((k <? List.length lines)%nat && p (nth k lines [])) =
  match nth_error lines k with
  | Some x => p x
  | None => false
  end.
Proof.
  destruct (nth_error lines k) as [x|] eqn:E.
  - assert (Hk : (k < List.length lines)%nat)
      by (apply nth_error_Some; congruence).
    apply Nat.ltb_lt in Hk. rewrite Hk.
    now rewrite (nth_error_nth lines k [] E).
  - apply nth_error_None in E.
    assert (Hk : (k <? List.length lines)%nat = false)
      by (apply Nat.ltb_ge; exact E).
    now rewrite Hk.
Qed.

(** C8, as amended.  [parse_psql_table] takes the first line that holds the
    three column names and a pipe; when the next line is a separator (it
    holds "+" and "-"), the rows are those of the lines after it and before
    the first footer line ["(... rows)"]: each line that is not blank, holds
    a pipe and has three fields that are not empty gives the row of its
    first three trimmed fields, and the other lines are skipped.  Without
    such a header, or when no separator follows it, the list is empty. *)
Theorem parse_psql_table_rows (t : text) :
  let lines := map (rstrip_char LF) (splitlines t) in
  parse_psql_table t =
  match find_index is_header lines with
  | None => []
  | Some i =>
    match nth_error lines (S i) with
    | Some sep =>
      if is_separator sep
      then filter_map row_of_line
             (take_until (fun ln => is_footer (strip ln))
                (skipn (S (S i)) lines))
      else []
    | None => []
    end
  end.
Proof.
  intros lines. unfold parse_psql_table. fold lines.
  rewrite find_header_spec.
  destruct (find_index is_header lines) as [i|]; [|reflexivity].
  cbn [Nat.add]. rewrite nth_error_test.
  replace (i + 1)%nat with (S i) by lia.
  destruct (nth_error lines (S i)) as [sep|]; [|reflexivity].
  destruct (is_separator sep); [|reflexivity].
  rewrite rows_loop_spec_lines. now replace (S i + 1)%nat with (S (S i)) by lia.
Qed.

(** C8 as stated fails: the rows do not end at a blank line. *)
Lemma parse_psql_table_passes_blank_line :
  parse_psql_table Samples.table_with_gap = [Samples.row_a; Samples.row_b]
  /\ parse_psql_table_spec Samples.table_with_gap = [Samples.row_a].
Proof. split; vm_compute; reflexivity. Qed.

End TableFacts.

(* ------------------------------------------------------------------ *)
(** ** The age of the newest boundary row *)

Module AgeFacts.
Import Py Model Boundary.

(** The order of datetimes. *)
Lemma lex_ltb_asym (a : list Z) :
  forall b, lex_ltb a b = true -> lex_ltb b a = false.
Proof.
  induction a as [|x a IH]; intros [|y b]; simpl; intros H;
    try reflexivity; try discriminate.
  apply orb_true_iff in H as [H|H].
  - apply Z.ltb_lt in H.
    replace (y <? x) with false by (symmetry; apply Z.ltb_ge; lia).
    replace (y =? x) with false by (symmetry; apply Z.eqb_neq; lia).
    reflexivity.
  - apply andb_true_iff in H as [E H]. apply Z.eqb_eq in E. subst y.
    rewrite Z.ltb_irrefl, Z.eqb_refl. simpl. now apply IH.
Qed.

Lemma lex_ltb_between (a : list Z) :
  forall c b, lex_ltb a c = true -> lex_ltb a b = true \/ lex_ltb b c = true.
Proof.
  induction a as [|x a IH]; intros [|z c] [|y b]; simpl; intros H; auto;
    try discriminate.
  apply orb_true_iff in H.
  destruct (Z.lt_trichotomy x y) as [Hxy|[Hxy|Hxy]].
  - left. apply orb_true_iff. left. now apply Z.ltb_lt.
  - subst y. destruct H as [H|H].
    + right. now rewrite H.
    + apply andb_true_iff in H as [E H]. rewrite E.
      destruct (IH c b H) as [H'|H'].
      * left. rewrite Z.eqb_refl, H'. apply orb_true_r.
      * right. rewrite H'. apply orb_true_r.
  - right. apply orb_true_iff. left. apply Z.ltb_lt.
    destruct H as [H|H].
    + apply Z.ltb_lt in H. lia.
    + apply andb_true_iff in H as [E _]. apply Z.eqb_eq in E. lia.
Qed.

Lemma dt_leb_refl (d : datetime) : dt_leb d d = true.
Proof.
  unfold dt_leb, dt_ltb. destruct (lex_ltb (fields d) (fields d)) eqn:E;
    [|reflexivity].
  pose proof (lex_ltb_asym _ _ E). congruence.
Qed.

Lemma dt_leb_trans (a b c : datetime) :
  dt_leb a b = true -> dt_leb b c = true -> dt_leb a c = true.
Proof.
  unfold dt_leb, dt_ltb. intros Hab Hbc.
  destruct (lex_ltb (fields c) (fields a)) eqn:E; [|reflexivity].
  destruct (lex_ltb_between _ _ (fields b) E) as [H|H].
  - rewrite H in Hbc. discriminate.
  - rewrite H in Hab. discriminate.
Qed.

Lemma dt_ltb_leb (a b : datetime) : dt_ltb a b = true -> dt_leb a b = true.
Proof.
  unfold dt_leb, dt_ltb. intros H. now rewrite (lex_ltb_asym _ _ H).
Qed.

Lemma dt_not_ltb_leb (a b : datetime) : dt_ltb a b = false -> dt_leb b a = true.
Proof. unfold dt_leb. now intros ->. Qed.

(** [max] returns an element of the list that none exceeds. *)
Lemma py_max_spec (l : list datetime) :
  forall x,
    In (py_max x l) (x :: l)
    /\ forall y, In y (x :: l) -> dt_leb y (py_max x l) = true.
Proof.
  unfold py_max.
  induction l as [|z l IH]; intros x; cbn [fold_left].
  - split; [now left|]. intros y [<-|[]]. apply dt_leb_refl.
  - destruct (IH (if dt_ltb x z then z else x)) as [Hin Hle].
    split.
    + destruct Hin as [Hin|Hin]; [|right; now right].
      rewrite <- Hin. destruct (dt_ltb x z); [right|]; now left.
    + intros y Hy. destruct (dt_ltb x z) eqn:Exz.
      * destruct Hy as [<-|[<-|Hy]].
        -- apply (dt_leb_trans x z); [now apply dt_ltb_leb|].
           apply Hle. now left.
        -- apply Hle. now left.
        -- apply Hle. now right.
      * destruct Hy as [<-|[<-|Hy]].
        -- apply Hle. now left.
        -- apply (dt_leb_trans z x); [now apply dt_not_ltb_leb|].
           apply Hle. now left.
        -- apply Hle. now right.
Qed.

Lemma filter_map_In {A B} (f : A -> option B) (l : list A) (b : B) :
  In b (filter_map f l) <-> exists a, In a l /\ f a = Some b.
Proof.
  induction l as [|a l IH]; simpl.
  - split; [intros []|intros (a & [] & _)].
  - destruct (f a) as [b'|] eqn:E.
    + simpl. rewrite IH. split.
      * intros [<-|(a' & Hin & Ha')]; eauto.
      * intros (a' & [<-|Hin] & Ha'); [left; congruence|right; eauto].
    + rewrite IH. split.
      * intros (a' & Hin & Ha'). eauto.
      * intros (a' & [<-|Hin] & Ha'); [congruence|eauto].
Qed.

Section Newest.

Variable strptime : text -> option datetime.

Lemma parsed_loop_spec (rows : list Row) :
  forall parsed,
    parsed_loop strptime rows parsed =
    parsed ++ filter_map (row_time strptime) rows.
Proof.
  induction rows as [|r rows IH]; intros parsed; cbn [parsed_loop filter_map].
  - now rewrite app_nil_r.
  - unfold row_time at 1.
    destruct (is_empty (strip (maxvalue r))); [apply IH|].
    destruct (strptime (strip (maxvalue r))); [|apply IH].
    rewrite IH, <- app_assoc. reflexivity.
Qed.

(** [extract_newest_maxvalue] returns the greatest of the timestamps that
    the rows carry, when there is one. *)
Lemma extract_newest_spec (rows : list Row) (r : Row) (d : datetime) :
  In r rows -> row_time strptime r = Some d ->
  exists newest,
    extract_newest_maxvalue strptime rows = Some newest
    /\ (exists r', In r' rows /\ row_time strptime r' = Some newest)
    /\ (forall r' d', In r' rows -> row_time strptime r' = Some d' ->
                      dt_leb d' newest = true).
Proof.
  intros Hin Hd. unfold extract_newest_maxvalue.
  rewrite parsed_loop_spec. cbn [app].
  assert (Hd' : In d (filter_map (row_time strptime) rows))
    by (apply filter_map_In; eauto).
  destruct (filter_map (row_time strptime) rows) as [|x l] eqn:E;
    [contradiction|].
  destruct (py_max_spec l x) as [Hmem Hmax].
  exists (py_max x l). split; [reflexivity|]. split.
  - apply filter_map_In. now rewrite E.
  - intros r' d' Hr' Hd''. apply Hmax. rewrite <- E.
    apply filter_map_In. eauto.
Qed.

End Newest.

(** [round(_, 2)] gives a multiple of 1/100 at most 1/200 away. *)
Lemma py_round2_nearest (q : Q) :
  Qden (py_round2 q) = 100%positive
  /\ 2 * Z.abs (Qnum (py_round2 q) * Zpos (Qden q) - Qnum q * 100)
     <= Zpos (Qden q).
Proof.
  unfold py_round2. cbn [Qden Qnum]. split; [reflexivity|].
  set (n := Qnum q * 100). set (d := Zpos (Qden q)).
  assert (Hd : 0 < d) by (unfold d; lia).
  pose proof (Z.div_mod (2 * n + d) (2 * d) ltac:(lia)) as Hdm.
  pose proof (Z.mod_pos_bound (2 * n + d) (2 * d) ltac:(lia)) as Hb.
  set (fl := (2 * n + d) / (2 * d)) in *.
  set (m := (2 * n + d) mod (2 * d)) in *.
  destruct (m =? 0) eqn:Em.
  - apply Z.eqb_eq in Em. destruct (Z.odd fl); cbn [andb]; nia.
  - apply Z.eqb_neq in Em. cbn [andb]. nia.
Qed.

End AgeFacts.

(* ------------------------------------------------------------------ *)
(** ** The boundary check *)

Module BoundaryFacts.
Import Py Model Boundary AgeFacts.

Lemma minutes_le_threshold (us : Z) :
  Qle_bool (minutes_of_us us) (inject_Z THRESHOLD_MINUTES) = true
  <-> us <= 900000000.
Proof.
  rewrite Qle_bool_iff. unfold Qle, minutes_of_us, inject_Z, THRESHOLD_MINUTES.
  cbn [Qnum Qden]. lia.
Qed.

Lemma status_texts : OK <> WARN /\ OK <> FAIL /\ WARN <> FAIL.
Proof. repeat split; discriminate. Qed.

(** C2, as amended.  When the remote command of the boundary check exits
    with code 0, the artifact is written, the NOW_LOCAL marker is parseable
    and some parsed row has a parseable maxvalue, then with [age] = NOW_LOCAL
    minus the greatest parsed maxvalue, in minutes: the reported metric is
    [age] rounded to two decimals, and the status is OK if [age <= 15] and
    WARN otherwise. *)
Theorem boundary_age (strptime : text -> option datetime) (E : Env)
    (cfg : ssh_cfg) (dirs : output_dirs) (raw_dir h u kp out err : text)
    (now_local : datetime) :
  raw dirs = Some raw_dir -> host cfg = Some h -> user cfg = Some u ->
  key_path cfg = Some kp ->
  exec_phase E h (get_default (port cfg) 22) u kp
    (get_default (jump_target cfg) (T "ciap01")) = Ret (out, err, 0) ->
  (forall content,
     write_text E (path_join E raw_dir (T "boundary_latest.txt")) content
     = Ret tt) ->
  _extract_now_local strptime (filter_boundary_output out) = Some now_local ->
  (exists r d,
     In r (parse_psql_table (filter_boundary_output out))
     /\ row_time strptime r = Some d) ->
  exists res newest,
    run strptime E cfg dirs = Ret res
    /\ (exists r, In r (parse_psql_table (filter_boundary_output out))
                  /\ row_time strptime r = Some newest)
    /\ (forall r d, In r (parse_psql_table (filter_boundary_output out)) ->
                    row_time strptime r = Some d -> dt_leb d newest = true)
    /\ metrics res =
       [(T "newest_age_minutes",
         VNum (py_round2 (minutes_of_us (sub_us now_local newest))))]
    /\ (status res = OK <-> (minutes_of_us (sub_us now_local newest) <= 15)%Q)
    /\ (status res = WARN <-> ~ (minutes_of_us (sub_us now_local newest) <= 15)%Q)
    /\ (status res = OK <-> sub_us now_local newest <= 15 * 60 * 1000000).
Proof.
  intros Hraw Hhost Huser Hkey Hexec Hwrite Hnow (r & d & Hr & Hd).
  destruct (extract_newest_spec strptime _ r d Hr Hd)
    as (newest & Hnew & Hmem & Hmax).
  unfold run. rewrite Hraw, Hhost, Huser, Hkey. cbn [item bind].
  unfold finally_swallow. rewrite Hexec. unfold after_exec.
  rewrite Hwrite. cbn [bind Z.eqb negb]. rewrite Hnow, Hnew.
  cbn [try_except].
  eexists. exists newest. split; [reflexivity|].
  cbn [metrics status].
  split; [exact Hmem|]. split; [exact Hmax|]. split; [reflexivity|].
  pose proof (minutes_le_threshold (sub_us now_local newest)) as Hle.
  destruct status_texts as (H1 & _ & _).
  destruct (Qle_bool _ _) eqn:Eq.
  - assert (Hq : (minutes_of_us (sub_us now_local newest) <= 15)%Q)
      by (now apply Qle_bool_iff).
    split; [split; [intros _; exact Hq|reflexivity]|].
    split; [split; [intros H; exfalso; exact (H1 H)|intros H; contradiction]|].
    split; [intros _; pose proof (proj1 Hle eq_refl); lia|reflexivity].
  - assert (Hq : ~ (minutes_of_us (sub_us now_local newest) <= 15)%Q)
      by (intros Hq; apply Qle_bool_iff in Hq;
          unfold inject_Z, THRESHOLD_MINUTES in Eq; congruence).
    split; [split; [intros H; exfalso; apply H1; now symmetry
                   |intros H; contradiction]|].
    split; [split; [intros _; exact Hq|reflexivity]|].
    split; [intros H; exfalso; apply H1; now symmetry|].
    intros H. assert (Ht : false = true) by (apply Hle; lia).
    discriminate.
Qed.

Lemma boundary_age_witness :
  exists res newest,
    run strptime_fixed (Samples.boundary_up Samples.boundary_stdout 0)
      Samples.server_1 Main.main_output_dirs = Ret res
    /\ metrics res =
       [(T "newest_age_minutes",
         VNum (py_round2 (minutes_of_us (sub_us Samples.now_marker newest))))]
    /\ (status res = OK <->
        sub_us Samples.now_marker newest <= 15 * 60 * 1000000).
Proof.
  destruct (boundary_age strptime_fixed
              (Samples.boundary_up Samples.boundary_stdout 0)
              Samples.server_1 Main.main_output_dirs
              (T "output/raw") (T "10.0.0.1") (T "root") (T "id_rsa")
              Samples.boundary_stdout [] Samples.now_marker)
    as (res & newest & Hrun & _ & _ & Hm & _ & _ & Hs);
    try reflexivity.
  - exists Samples.row_b, Samples.newest_b.
    split; [vm_compute; auto|reflexivity].
  - exists res, newest. auto.
Defined.

(** C2 as stated fails: 100 seconds after the newest maxvalue the metric is
    1.67, not 100/60; and when the artifact cannot be written the check
    fails without a metric. *)
Lemma boundary_metric_is_rounded :
  (exists res,
      run strptime_fixed (Samples.boundary_up Samples.boundary_stdout 0)
        Samples.server_1 Main.main_output_dirs = Ret res
      /\ _extract_now_local strptime_fixed
           (filter_boundary_output Samples.boundary_stdout)
         = Some Samples.now_marker
      /\ extract_newest_maxvalue strptime_fixed
           (parse_psql_table (filter_boundary_output Samples.boundary_stdout))
         = Some Samples.newest_b
      /\ sub_us Samples.now_marker Samples.newest_b = 100 * 1000000
      /\ metrics res = [(T "newest_age_minutes", VNum (167 # 100))]
      /\ ~ (167 # 100
            == minutes_of_us (sub_us Samples.now_marker Samples.newest_b))%Q)
  /\ (exists res,
         run strptime_fixed
           (Samples.boundary_read_only Samples.boundary_stdout 0)
           Samples.server_1 Main.main_output_dirs = Ret res
         /\ status res = FAIL /\ metrics res = []).
Proof.
  split.
  - eexists. split; [vm_compute; reflexivity|].
    repeat split; try (vm_compute; reflexivity).
    vm_compute. discriminate.
  - eexists. split; [vm_compute; reflexivity|]. split; reflexivity.
Qed.

End BoundaryFacts.

(* ------------------------------------------------------------------ *)
(** ** The check runners *)

Module RunFacts.
Import Py Model.

Lemma boundary_settles (strptime : text -> option datetime) (E : Boundary.Env)
    (cfg : ssh_cfg) (dirs : output_dirs) (raw_dir h u kp : text) :
  raw dirs = Some raw_dir -> host cfg = Some h -> user cfg = Some u ->
  key_path cfg = Some kp ->
  settles
    (Boundary.try_block strptime E
       (Boundary.path_join E raw_dir (T "boundary_latest.txt")) h
       (get_default (port cfg) 22) u kp
       (get_default (jump_target cfg) (T "ciap01")))
    (Boundary.run strptime E cfg dirs).
Proof.
  intros Hraw Hhost Huser Hkey. unfold settles, Boundary.run, Boundary.try_block.
  rewrite Hraw, Hhost, Huser, Hkey. cbn [item bind]. unfold finally_swallow.
  destruct (Boundary.exec_phase _ _ _ _ _ _) as [[[out err] code]|e];
    cbn [bind].
  - destruct (Boundary.after_exec _ _ _ _ _ _ _ _ _) as [r|e]; cbn [try_except].
    + eauto.
    + eexists. split; [reflexivity|]. split; reflexivity.
  - eexists. split; [reflexivity|]. split; reflexivity.
Qed.

Lemma nelmon_settles (E : Nelmon.Env) (cfg : ssh_cfg) (dirs : output_dirs)
    (raw_dir h : text) :
  raw dirs = Some raw_dir -> host cfg = Some h ->
  settles
    (Nelmon.try_block E cfg
       (Nelmon.path_join E raw_dir (T "nelmon_" ++ h ++ T "_latest.txt"))
       (Nelmon.path_parent E
          (Nelmon.path_join E raw_dir (T "nelmon_" ++ h ++ T "_latest.txt"))))
    (Nelmon.run E cfg dirs).
Proof.
  intros Hraw Hhost. unfold settles, Nelmon.run, Nelmon.try_block.
  rewrite Hraw, Hhost. cbn [item bind].
  destruct (Nelmon.call_ssh_run E cfg) as [[[out err] code]|e]; cbn [bind].
  - destruct (Nelmon.after_exec _ _ _ _ _ _ _) as [r|e]; cbn [try_except].
    + eauto.
    + eexists. split; [reflexivity|]. split; reflexivity.
  - eexists. split; [reflexivity|]. split; reflexivity.
Qed.

Lemma k8s_settles (E : K8s.Env) (cfg : ssh_cfg) (kcfg : K8s.k8s_cfg)
    (dirs : output_dirs) (raw_dir ns : text) (pats : list text) :
  raw dirs = Some raw_dir -> K8s.namespace kcfg = Some ns ->
  K8s.grep_patterns kcfg = Some pats ->
  settles
    (K8s.try_block E cfg kcfg
       (K8s.path_join E raw_dir (T "k8s_dis_nci_latest.txt"))
       (K8s.path_parent E
          (K8s.path_join E raw_dir (T "k8s_dis_nci_latest.txt")))
       (K8s.build_remote_block ns pats))
    (K8s.run E cfg kcfg dirs).
Proof.
  intros Hraw Hns Hpats. unfold settles, K8s.run, K8s.try_block.
  rewrite Hraw, Hns, Hpats. cbn [item bind].
  destruct (K8s.call_ssh_run E cfg _) as [[[out err] code]|e]; cbn [bind].
  - destruct (K8s.after_exec _ _ _ _ _ _ _ _) as [r|e]; cbn [try_except].
    + eauto.
    + eexists. split; [reflexivity|]. split; reflexivity.
  - eexists. split; [reflexivity|]. split; reflexivity.
Qed.

(** C1, as amended.  For each check type, when the configuration holds the
    keys that [run] reads before its [try] block ([raw] of [output_dirs];
    [host], [user] and [key_path] for boundary; [host] for nelmon_check;
    [namespace] and [grep_patterns] for k8s_dis_nci), [run] returns a
    [CheckResult] and raises nothing: the result of the [try] block when it
    completes, and when any step of it raises (key loading, connection,
    execution, writing of the raw file, reading of the configuration) a
    FAIL result whose [details] hold the description of the exception under
    ["error"]. *)
Theorem run_never_raises :
  (forall strptime E cfg dirs raw_dir h u kp,
      raw dirs = Some raw_dir -> host cfg = Some h -> user cfg = Some u ->
      key_path cfg = Some kp ->
      settles
        (Boundary.try_block strptime E
           (Boundary.path_join E raw_dir (T "boundary_latest.txt")) h
           (get_default (port cfg) 22) u kp
           (get_default (jump_target cfg) (T "ciap01")))
        (Boundary.run strptime E cfg dirs))
  /\ (forall E cfg dirs raw_dir h,
         raw dirs = Some raw_dir -> host cfg = Some h ->
         settles
           (Nelmon.try_block E cfg
              (Nelmon.path_join E raw_dir (T "nelmon_" ++ h ++ T "_latest.txt"))
              (Nelmon.path_parent E
                 (Nelmon.path_join E raw_dir
                    (T "nelmon_" ++ h ++ T "_latest.txt"))))
           (Nelmon.run E cfg dirs))
  /\ (forall E cfg kcfg dirs raw_dir ns pats,
         raw dirs = Some raw_dir -> K8s.namespace kcfg = Some ns ->
         K8s.grep_patterns kcfg = Some pats ->
         settles
           (K8s.try_block E cfg kcfg
              (K8s.path_join E raw_dir (T "k8s_dis_nci_latest.txt"))
              (K8s.path_parent E
                 (K8s.path_join E raw_dir (T "k8s_dis_nci_latest.txt")))
              (K8s.build_remote_block ns pats))
           (K8s.run E cfg kcfg dirs)).
Proof.
  split; [|split].
  - intros. now apply boundary_settles.
  - intros. now apply nelmon_settles.
  - intros. now apply (k8s_settles E cfg kcfg dirs raw_dir ns pats).
Qed.

Lemma run_never_raises_witness :
  settles
    (Boundary.try_block strptime_fixed
       (Samples.boundary_read_only Samples.boundary_stdout 0)
       (T "output/raw/boundary_latest.txt") (T "10.0.0.1") 22 (T "root")
       (T "id_rsa") (T "ciap01"))
    (Boundary.run strptime_fixed
       (Samples.boundary_read_only Samples.boundary_stdout 0)
       Samples.server_1 Main.main_output_dirs)
  /\ settles
       (Nelmon.try_block Samples.nelmon_down Samples.server_1
          (T "output/raw/nelmon_10.0.0.1_latest.txt") (T "output/raw"))
       (Nelmon.run Samples.nelmon_down Samples.server_1 Main.main_output_dirs)
  /\ settles
       (K8s.try_block Samples.k8s_down Samples.server_1 Samples.k8s_profile
          (T "output/raw/k8s_dis_nci_latest.txt") (T "output/raw")
          (K8s.build_remote_block (T "dis-nci") [T "iceca"]))
       (K8s.run Samples.k8s_down Samples.server_1 Samples.k8s_profile
          Main.main_output_dirs).
Proof.
  destruct run_never_raises as (HB & HN & HK).
  split; [|split].
  - exact (HB strptime_fixed
             (Samples.boundary_read_only Samples.boundary_stdout 0)
             Samples.server_1 Main.main_output_dirs
             (T "output/raw") (T "10.0.0.1") (T "root") (T "id_rsa")
             eq_refl eq_refl eq_refl eq_refl).
  - exact (HN Samples.nelmon_down Samples.server_1 Main.main_output_dirs
             (T "output/raw") (T "10.0.0.1") eq_refl eq_refl).
  - exact (HK Samples.k8s_down Samples.server_1 Samples.k8s_profile
             Main.main_output_dirs
             (T "output/raw") (T "dis-nci") [T "iceca"]
             eq_refl eq_refl eq_refl).
Defined.

(** C1 as stated fails: a configuration that lacks a key read before the
    [try] block makes [run] raise [KeyError]. *)
Lemma run_raises_key_error :
  Boundary.run strptime_fixed (Samples.boundary_up Samples.boundary_stdout 0)
    Samples.nelmon_profile Main.main_output_dirs
  = Raise (Exn EKey (T "'key_path'"))
  /\ Nelmon.run (Samples.nelmon_up Samples.df_output 0) Samples.no_host
       Main.main_output_dirs
     = Raise (Exn EKey (T "'host'"))
  /\ K8s.run (Samples.k8s_up Samples.pods_healthy 0) Samples.server_1
       Samples.no_namespace Main.main_output_dirs
     = Raise (Exn EKey (T "'namespace'")).
Proof. repeat split. Qed.

(** C3, as amended.  A nonzero exit code of the remote command makes the
    boundary check FAIL whatever the output holds.  The nelmon and k8s
    checks do not look at the exit code: whatever it is, they only record it
    under ["raw_exit_code"].  When the artifact of nelmon_check is written,
    its status is that of the use-percent of /boot in the output, FAIL when
    there is no such line or when [int] or [float] refuse the number; when
    the artifact of k8s_dis_nci is written and read back and its rows
    convert, its status is that of the pod rows of the artifact.  When one
    of those steps raises, the status is FAIL with the description of the
    exception under ["error"]. *)
Theorem exit_code_and_status :
  (forall strptime E cfg dirs raw_dir h u kp out err exit_code,
      raw dirs = Some raw_dir -> host cfg = Some h -> user cfg = Some u ->
      key_path cfg = Some kp ->
      Boundary.exec_phase E h (get_default (port cfg) 22) u kp
        (get_default (jump_target cfg) (T "ciap01"))
      = Ret (out, err, exit_code) ->
      exit_code <> 0 ->
      exists res,
        Boundary.run strptime E cfg dirs = Ret res /\ status res = FAIL)
  /\ (forall E cfg dirs raw_dir h out err exit_code,
         raw dirs = Some raw_dir -> host cfg = Some h ->
         Nelmon.call_ssh_run E cfg = Ret (out, err, exit_code) ->
         exists res,
           Nelmon.run E cfg dirs = Ret res
           /\ dict_get (details res) (T "raw_exit_code")
              = Some (VInt exit_code)
           /\ match
                Nelmon.write_raw_file E (Nelmon.now E AtArtifact)
                  (Nelmon.path_join E raw_dir
                     (T "nelmon_" ++ h ++ T "_latest.txt"))
                  (Nelmon.path_parent E
                     (Nelmon.path_join E raw_dir
                        (T "nelmon_" ++ h ++ T "_latest.txt")))
                  h out err
              with
              | Ret _ => status res = Nelmon.boot_status out
              | Raise e =>
                status res = FAIL
                /\ error_of res = Some (VStr (exn_msg e))
              end)
  /\ (forall E cfg kcfg dirs raw_dir ns pats out err exit_code,
         raw dirs = Some raw_dir ->
         K8s.namespace kcfg = Some ns -> K8s.grep_patterns kcfg = Some pats ->
         K8s.call_ssh_run E cfg (K8s.build_remote_block ns pats)
         = Ret (out, err, exit_code) ->
         exists res,
           K8s.run E cfg kcfg dirs = Ret res
           /\ dict_get (details res) (T "raw_exit_code")
              = Some (VInt exit_code)
           /\ (forall h u artifact a,
                  host cfg = Some h -> user cfg = Some u ->
                  K8s.write_raw_file E (K8s.now E AtArtifact)
                    (K8s.path_join E raw_dir (T "k8s_dis_nci_latest.txt"))
                    (K8s.path_parent E
                       (K8s.path_join E raw_dir (T "k8s_dis_nci_latest.txt")))
                    h u ns out err exit_code [] = Ret tt ->
                  K8s.read_text E
                    (K8s.path_join E raw_dir (T "k8s_dis_nci_latest.txt"))
                  = Ret artifact ->
                  K8s.analyze artifact = Ret a ->
                  status res = K8s.compute_status a)
           /\ (forall e,
                  K8s.after_exec E cfg kcfg
                    (K8s.path_join E raw_dir (T "k8s_dis_nci_latest.txt"))
                    (K8s.path_parent E
                       (K8s.path_join E raw_dir (T "k8s_dis_nci_latest.txt")))
                    out err exit_code = Raise e ->
                  status res = FAIL
                  /\ error_of res = Some (VStr (exn_msg e)))).
Proof.
  split; [|split].
  - intros strptime E cfg dirs raw_dir h u kp out err exit_code
      Hraw Hhost Huser Hkey Hexec Hne.
    unfold Boundary.run. rewrite Hraw, Hhost, Huser, Hkey. cbn [item bind].
    unfold finally_swallow. rewrite Hexec. unfold Boundary.after_exec.
    destruct (Boundary.write_text E _ _) as [[]|e]; cbn [bind try_except].
    + replace (exit_code =? 0) with false by (symmetry; now apply Z.eqb_neq).
      cbn [negb]. eexists. split; reflexivity.
    + eexists. split; reflexivity.
  - intros E cfg dirs raw_dir h out err exit_code Hraw Hhost Hrun.
    unfold Nelmon.run. rewrite Hraw, Hhost. cbn [item bind]. rewrite Hrun.
    unfold Nelmon.after_exec, Nelmon.boot_status.
    rewrite Hhost. cbn [item bind].
    destruct (Nelmon.write_raw_file E _ _ _ _ _ _) as [[]|e];
      cbn [bind try_except].
    + destruct (Nelmon.parse_boot_usage out) as [[boot|]|e];
        cbn [bind try_except].
      * destruct (float_of_int (Nelmon.use_percent boot)) as [q|e];
          cbn [bind try_except]; eexists; repeat split.
      * eexists. repeat split.
      * eexists. repeat split.
    + eexists. repeat split.
  - intros E cfg kcfg dirs raw_dir ns pats out err exit_code
      Hraw Hns Hpats Hrun.
    unfold K8s.run. rewrite Hraw, Hns, Hpats. cbn [item bind]. rewrite Hrun.
    destruct (K8s.after_exec E cfg kcfg _ _ out err exit_code) as [r|e] eqn:Ea;
      cbn [try_except].
    + exists r. split; [reflexivity|].
      unfold K8s.after_exec, K8s.analyze_raw in Ea. rewrite Hns in Ea.
      destruct (host cfg) as [h|]; [|discriminate].
      destruct (user cfg) as [u|]; [|discriminate].
      cbn [item bind] in Ea.
      destruct (K8s.write_raw_file E _ _ _ _ _ _ _ _ _ _) as [[]|e];
        [|discriminate].
      cbn [bind] in Ea.
      destruct (K8s.read_text E _) as [artifact|e] eqn:Er; [|discriminate].
      cbn [bind] in Ea.
      destruct (K8s.analyze artifact) as [a|e] eqn:Ean; [|discriminate].
      cbn [bind] in Ea. injection Ea as <-.
      split; [reflexivity|]. split; [|discriminate].
      intros h' u' artifact' a' Hh Hu _ Hr Han.
      injection Hr as <-.
      rewrite Ean in Han. injection Han as <-. reflexivity.
    + eexists. split; [reflexivity|]. split; [reflexivity|]. split.
      * intros h u artifact a Hh Hu Hw Hr Han. exfalso.
        unfold K8s.after_exec, K8s.analyze_raw in Ea.
        rewrite Hns, Hh, Hu in Ea. cbn [item bind] in Ea.
        rewrite Hw in Ea. cbn [bind] in Ea. rewrite Hr in Ea.
        cbn [bind] in Ea. rewrite Han in Ea. discriminate.
      * intros e' He. injection He as <-. split; reflexivity.
Qed.

Lemma exit_code_and_status_witness :
  (exists res,
      Boundary.run strptime_fixed
        (Samples.boundary_up Samples.boundary_stdout 3)
        Samples.server_1 Main.main_output_dirs = Ret res
      /\ status res = FAIL)
  /\ (exists res,
         Nelmon.run (Samples.nelmon_up Samples.df_output 1) Samples.server_1
           Main.main_output_dirs = Ret res
         /\ dict_get (details res) (T "raw_exit_code") = Some (VInt 1)
         /\ status res = Nelmon.boot_status Samples.df_output)
  /\ (exists res,
         K8s.run (Samples.k8s_up Samples.pods_crashing 1) Samples.server_1
           Samples.k8s_profile Main.main_output_dirs = Ret res
         /\ dict_get (details res) (T "raw_exit_code") = Some (VInt 1)
         /\ status res = FAIL).
Proof.
  destruct exit_code_and_status as (HB & HN & HK).
  split; [|split].
  - apply (HB strptime_fixed _ Samples.server_1 Main.main_output_dirs
              (T "output/raw") (T "10.0.0.1") (T "root") (T "id_rsa")
              Samples.boundary_stdout [] 3); try reflexivity. lia.
  - destruct (HN (Samples.nelmon_up Samples.df_output 1) Samples.server_1
                Main.main_output_dirs (T "output/raw") (T "10.0.0.1")
                Samples.df_output [] 1 eq_refl eq_refl eq_refl)
      as (res & Hrun & Hcode & Hst).
    exists res. split; [exact Hrun|]. split; [exact Hcode|exact Hst].
  - destruct (HK (Samples.k8s_up Samples.pods_crashing 1) Samples.server_1
                Samples.k8s_profile Main.main_output_dirs (T "output/raw")
                (T "dis-nci") [T "iceca"] Samples.pods_crashing [] 1
                eq_refl eq_refl eq_refl eq_refl)
      as (res & Hrun & Hcode & Hst & _).
    exists res. split; [exact Hrun|]. split; [exact Hcode|].
    rewrite (Hst (T "10.0.0.1") (T "root")
               (K8s.raw_content Samples.t0 (T "10.0.0.1") (T "root")
                  (T "dis-nci") Samples.pods_crashing [] 1 [])
               (K8s.analysis_of
                  (match K8s.rows_loop
                           (splitlines
                              (K8s.extract_stdout
                                 (K8s.raw_content Samples.t0 (T "10.0.0.1")
                                    (T "root") (T "dis-nci")
                                    Samples.pods_crashing [] 1 []))) []
                   with Ret rows => rows | Raise _ => [] end))
               eq_refl eq_refl eq_refl eq_refl).
    + reflexivity.
    + vm_compute. reflexivity.
Defined.

(** C3 as stated fails: with exit code 1 and a healthy output the nelmon
    check and the k8s check are OK; the exit code is only recorded in the
    details. *)
Lemma nonzero_exit_code_ok :
  (exists res,
      Nelmon.run (Samples.nelmon_up Samples.df_output 1) Samples.server_1
        Main.main_output_dirs = Ret res
      /\ status res = OK
      /\ dict_get (details res) (T "raw_exit_code") = Some (VInt 1))
  /\ (exists res,
         K8s.run (Samples.k8s_up Samples.pods_healthy 1) Samples.server_1
           Samples.k8s_profile Main.main_output_dirs = Ret res
         /\ status res = OK
         /\ dict_get (details res) (T "raw_exit_code") = Some (VInt 1)).
Proof.
  split; eexists; (split; [vm_compute; reflexivity|]); split; reflexivity.
Qed.

End RunFacts.

(* ------------------------------------------------------------------ *)
(** ** The disk-usage classifier *)

Module NelmonFacts.
Import Py Model Nelmon.

(** C7.  [compute_status] of the disk-usage check: a use-percent from 0 to 89
    is OK, from 90 to 99 is WARN, 100 and more is FAIL; so 89 is OK, 90 and
    99 are WARN and 100 is FAIL. *)
Theorem compute_status_buckets (use_percent : Z) :
  (0 <= use_percent <= 89 -> compute_status use_percent = OK)
  /\ (90 <= use_percent <= 99 -> compute_status use_percent = WARN)
  /\ (100 <= use_percent -> compute_status use_percent = FAIL)
  /\ compute_status 89 = OK /\ compute_status 90 = WARN
  /\ compute_status 99 = WARN /\ compute_status 100 = FAIL.
Proof.
  unfold compute_status.
  repeat split; try reflexivity; intros H;
    destruct (use_percent >=? 100) eqn:E1;
    destruct (use_percent >=? 90) eqn:E2; try reflexivity; lia.
Qed.

Lemma compute_status_buckets_witness :
  compute_status 42 = OK /\ compute_status 95 = WARN /\ compute_status 250 = FAIL.
Proof.
  split; [|split].
  - apply (compute_status_buckets 42); lia.
  - apply (compute_status_buckets 95); lia.
  - apply (compute_status_buckets 250); lia.
Defined.

End NelmonFacts.

(* ------------------------------------------------------------------ *)
(** ** The retrying runners *)

Module RetryFacts.
Import Py Model Retry.

Lemma attempts_all_fail (body : Z -> outcome RemoteExec) (err : Z -> exn)
    (check : text) (tries : Z) (n : nat) :
  forall attempt last_err log,
    (forall a, attempt <= a < attempt + Z.of_nat n -> body a = Raise (err a)) ->
    attempts body check tries n attempt last_err log =
    (Raise (failure check tries
              (match n with
               | O => last_err
               | S _ => Some (err (attempt + Z.of_nat n - 1))
               end)),
     log ++ flat_map failed_attempt (attempt_range attempt n)).
Proof.
  induction n as [|n IH]; intros attempt last_err log H.
  - simpl. now rewrite app_nil_r.
  - cbn [attempts attempt_range flat_map].
    rewrite (H attempt) by lia.
    rewrite IH by (intros a Ha; apply H; lia).
    f_equal.
    + f_equal. f_equal. destruct n; f_equal; f_equal; lia.
    + now rewrite <- app_assoc.
Qed.

Lemma slept_app (l1 l2 : list event) : slept (l1 ++ l2) = slept l1 + slept l2.
Proof.
  induction l1 as [|ev l1 IH]; simpl; [reflexivity|].
  destruct ev; rewrite IH; lia.
Qed.

Lemma slept_failed (n : nat) (from : Z) :
  2 * slept (flat_map failed_attempt (attempt_range from n)) =
  1500 * (Z.of_nat n * (2 * from + Z.of_nat n - 1)).
Proof.
  revert from; induction n as [|n IH]; intros from.
  - simpl. lia.
  - cbn [attempt_range flat_map]. rewrite slept_app.
    unfold failed_attempt at 1. cbn [slept].
    specialize (IH (from + 1)). nia.
Qed.

Lemma sleeps_failed (n : nat) (from : Z) :
  map (fun ms => Sleep ms) (map (fun a => 1500 * a) (attempt_range from n)) =
  filter (fun ev => match ev with Sleep _ => true | _ => false end)
    (flat_map failed_attempt (attempt_range from n)).
Proof.
  revert from; induction n as [|n IH]; intros from; [reflexivity|].
  cbn [attempt_range flat_map map]. unfold failed_attempt at 1.
  cbn [app filter]. now rewrite IH.
Qed.

Lemma closed_in_turn_failed (l : list Z) :
  closed_in_turn (flat_map failed_attempt l).
Proof.
  induction l as [|x l IH]; intros pre a post E.
  - destruct pre; discriminate.
  - cbn [flat_map] in E. unfold failed_attempt at 1 in E. cbn [app] in E.
    destruct pre as [|p1 pre].
    + injection E as -> <-. eauto.
    + destruct pre as [|p2 pre]; [discriminate|].
      destruct pre as [|p3 pre]; [discriminate|].
      injection E as _ _ _ E. exact (IH _ _ _ E).
Qed.

Lemma retry_exhausted (body : Z -> outcome RemoteExec) (err : Z -> exn)
    (check : text) (tries : Z) :
  1 <= tries ->
  (forall a, 1 <= a <= tries -> body a = Raise (err a)) ->
  exhausted (retry body check tries) check tries err.
Proof.
  intros Ht H. unfold retry.
  rewrite (attempts_all_fail body err) by (intros a Ha; apply H; lia).
  destruct (Z.to_nat tries) as [|n] eqn:En; [lia|].
  rewrite <- En. unfold exhausted. cbn [fst snd app].
  repeat split.
  - do 4 f_equal. lia.
  - apply sleeps_failed.
  - rewrite slept_failed. f_equal. rewrite Z2Nat.id by lia. lia.
  - apply closed_in_turn_failed.
Qed.

(** C5.  When every one of the [tries] attempts of [ssh_run] (nelmon_check)
    or of [ssh_run_sudo_block] (k8s_dis_nci) fails, the runner raises one
    failure that names the error of the last attempt; it has slept 1.5 s
    times the attempt number after each failed attempt, 1.5 x (1 + ... +
    tries) in all; and the client of each attempt is closed before the next
    attempt or the final raise. *)
Theorem runners_exhausted :
  (forall E host port user password cmd ct cht rt tries err,
      1 <= tries ->
      (forall a, 1 <= a <= tries ->
         Nelmon.attempt_body E host port user password cmd ct cht rt a
         = Raise (err a)) ->
      exhausted (Nelmon.ssh_run E host port user password cmd ct cht rt tries)
        (T "nelmon_check") tries err)
  /\
  (forall E host port user key_path block ct cht rt tries err,
      1 <= tries ->
      (forall a, 1 <= a <= tries ->
         K8s.attempt_body E host port user key_path block ct cht rt a
         = Raise (err a)) ->
      exhausted (K8s.ssh_run_sudo_block E host port user key_path block
                   ct cht rt tries)
        (T "k8s_dis_nci") tries err).
Proof.
  split; intros; now apply retry_exhausted.
Qed.

Lemma runners_exhausted_witness :
  exhausted
    (Nelmon.ssh_run Samples.nelmon_down (T "10.0.0.1") 22 (T "root")
       (T "secret") (T "uptime ; df -h") 10 20 60 2)
    (T "nelmon_check") 2 Samples.refused
  /\ exhausted
       (K8s.ssh_run_sudo_block Samples.k8s_down (T "10.0.0.1") 22 (T "root")
          (T "id_rsa") (T "date") 10 20 60 3)
       (T "k8s_dis_nci") 3 Samples.refused.
Proof.
  split.
  - apply (proj1 runners_exhausted); [lia|intros a _; reflexivity].
  - apply (proj2 runners_exhausted); [lia|intros a _; reflexivity].
Defined.

End RetryFacts.

(* ------------------------------------------------------------------ *)
(** ** The channel reader *)

Module ChannelFacts.
Import Py Model Channel.

Section Reader.

Variable decode : bytes -> text.
Variable ch : Chan.
Variable what : text.
Variable read_timeout : Z.

Local Abbreviation start := (time ch 0).
Local Abbreviation late := (Channel.late ch read_timeout).

Hypothesis Hnever : never_ready ch.

Lemma read_if_timeout (ready : bool) (read : outcome bytes) (chunks : list bytes) (e : exn) :
  read_if ready read chunks = Raise e -> read = Raise e.
Proof.
  unfold read_if. destruct ready; [|discriminate].
  destruct read; [discriminate|].
  intros E; injection E as ->; reflexivity.
Qed.

(** An iteration of a command that is not ready does not break. *)
Lemma poll_never_breaks (i : nat) (out err : list bytes) :
  forall out' err', poll ch i out err <> (out', err', Ret true).
Proof.
  intros out' err'. unfold poll.
  destruct (recv_ready ch i); [|discriminate].
  destruct (read_if _ _ _); [|discriminate].
  destruct (recv_stderr_ready ch i); [|discriminate].
  destruct (read_if _ _ _); [|discriminate].
  intros E. injection E as _ _ E. exact (Hnever i E).
Qed.

(** With a command that is never ready, the loop returns nothing but an
    exception. *)
Lemma loop_never_returns (fuel : nat) :
  forall i out err log res log',
    loop decode fuel ch what read_timeout start i out err log = Some (res, log') ->
    exists e, res = Raise e.
Proof.
  induction fuel as [|fuel IH]; intros i out err log res log'; cbn [loop];
    [discriminate|].
  destruct (_ >? _).
  - intros E; injection E as <- _. eauto.
  - destruct (poll ch i out err) as [[out' err'] r] eqn:Ep.
    destruct r as [[|]|e].
    + exfalso. exact (poll_never_breaks _ _ _ _ _ Ep).
    + apply IH.
    + destruct (is_timeout e); [apply IH|].
      intros E; injection E as <- _. eauto.
Qed.

Hypothesis Honly : only_socket_timeouts ch.

(** An exception of an iteration is a [socket.timeout]. *)
Lemma poll_raises_timeout (i : nat) (out err out' err' : list bytes) (e : exn) :
  poll ch i out err = (out', err', Raise e) -> is_timeout e = true.
Proof.
  unfold poll.
  destruct (recv_ready ch i) as [ready|e0] eqn:E1.
  - destruct (read_if ready _ _) as [o|e0] eqn:E2.
    + destruct (recv_stderr_ready ch i) as [eready|e0] eqn:E3.
      * destruct (read_if eready _ _) as [o'|e0] eqn:E4.
        -- intros E; injection E as _ _ E. apply (Honly i e). tauto.
        -- intros E; injection E as _ _ ->.
           apply read_if_timeout in E4. apply (Honly i e). tauto.
      * intros E; injection E as _ _ ->. apply (Honly i e). tauto.
    + intros E; injection E as _ _ ->.
      apply read_if_timeout in E2. apply (Honly i e). tauto.
  - intros E; injection E as _ _ ->. apply (Honly i e). tauto.
Qed.

(** Before the deadline an iteration goes on to the next one. *)
Lemma loop_step (fuel i : nat) (out err : list bytes) (log : list chan_event) :
  ~ late i ->
  exists out' err' log',
    loop decode (S fuel) ch what read_timeout start i out err log =
    loop decode fuel ch what read_timeout start (S i) out' err' log'
    /\ (~ In Closed log -> ~ In Closed log').
Proof.
  intros Hl. cbn [loop].
  destruct (_ >? _) eqn:Eg; [exfalso; apply Hl; unfold Channel.late; lia|].
  destruct (poll ch i out err) as [[out' err'] r] eqn:Ep.
  destruct r as [[|]|e].
  - exfalso. exact (poll_never_breaks _ _ _ _ _ Ep).
  - exists out', err', (log ++ [Slept]). split; [reflexivity|].
    intros Hn Hin. apply in_app_iff in Hin as [Hin|[Hin|[]]];
      [auto|discriminate].
  - rewrite (poll_raises_timeout _ _ _ _ _ _ Ep).
    exists out', err', log. auto.
Qed.

(** The loop that reaches its first late iteration [n] with fuel left
    closes the channel and raises the timeout; with less fuel it is still
    running. *)
Lemma loop_reaches_deadline (k : nat) :
  forall i out err log,
    late (i + k) -> (forall j, (i <= j < i + k)%nat -> ~ late j) ->
    ~ In Closed log ->
    (forall fuel, (k < fuel)%nat ->
       exists log',
         loop decode fuel ch what read_timeout start i out err log =
         Some (Raise (timeout_error what read_timeout), log' ++ [Closed])
         /\ ~ In Closed log')
    /\ (forall fuel, (fuel <= k)%nat ->
          loop decode fuel ch what read_timeout start i out err log = None).
Proof.
  induction k as [|k IH]; intros i out err log Hlate Hbefore Hlog.
  - rewrite Nat.add_0_r in Hlate. split.
    + intros [|fuel] Hf; [lia|]. cbn [loop].
      destruct (_ >? _) eqn:Eg; [|unfold Channel.late in Hlate; lia].
      exists log. auto.
    + intros fuel Hf. assert (fuel = 0%nat) as -> by lia. reflexivity.
  - assert (Hi : ~ late i) by (apply Hbefore; lia).
    split.
    + intros [|fuel] Hf; [lia|].
      destruct (loop_step fuel i out err log Hi) as (out' & err' & log' & E & Hc).
      rewrite E.
      apply (IH (S i) out' err' log'); [| |auto|lia].
      * now replace (S i + k)%nat with (i + S k)%nat by lia.
      * intros j Hj. apply Hbefore. lia.
    + intros [|fuel] Hf; [reflexivity|].
      destruct (loop_step fuel i out err log Hi) as (out' & err' & log' & E & Hc).
      rewrite E.
      apply (IH (S i) out' err' log'); [| |auto|lia].
      * now replace (S i + k)%nat with (i + S k)%nat by lia.
      * intros j Hj. apply Hbefore. lia.
Qed.

(** Some iteration up to a late one is the first late one. *)
Lemma first_late_search (n : nat) :
  (forall i, (i < n)%nat -> ~ late i)
  \/ exists k, (k < n)%nat /\ first_late ch read_timeout k.
Proof.
  induction n as [|n [IH|(k & Hk & Hf)]].
  - left. intros i Hi. lia.
  - destruct (Z_le_gt_dec (time ch (S n) - start) (1000 * read_timeout))
      as [Hle|Hgt].
    + left. intros i Hi. destruct (Nat.eq_dec i n) as [->|Hne].
      * unfold Channel.late. lia.
      * apply IH. lia.
    + right. exists n. split; [lia|]. split; [exact Hgt|].
      intros i Hi. specialize (IH i Hi). unfold Channel.late in IH. lia.
  - right. exists k. split; [lia|exact Hf].
Qed.

Lemma first_late_exists (n : nat) :
  late n -> exists k, (k <= n)%nat /\ first_late ch read_timeout k.
Proof.
  intros Hn. destruct (first_late_search (S n)) as [Hno|(k & Hk & Hf)].
  - exfalso. apply (Hno n); [lia|exact Hn].
  - exists k. split; [lia|exact Hf].
Qed.

End Reader.

(** C4.  [_read_channel] on a command that never signals that its exit
    status is ready, when the only exception of a poll is [socket.timeout]
    and the clock passes the deadline [read_timeout] at some iteration: at
    the first iteration that sees the deadline passed the reader closes the
    channel and raises the [TimeoutError] whose message carries
    [read_timeout]; before that it keeps polling (a [socket.timeout] of a
    poll only starts the next iteration), and it never returns normally. *)
Theorem read_channel_deadline (decode : bytes -> text) (ch : Chan) (what : text)
    (channel_timeout read_timeout : Z) (n : nat) :
  never_ready ch ->
  only_socket_timeouts ch ->
  time ch (S n) - time ch 0 > 1000 * read_timeout ->
  exists k,
    (k <= n)%nat /\ first_late ch read_timeout k
    /\ (forall fuel, (k < fuel)%nat ->
          exists log,
            _read_channel decode fuel ch what channel_timeout read_timeout =
            Some (Raise (timeout_error what read_timeout), log ++ [Closed])
            /\ ~ In Closed log)
    /\ (forall fuel, (fuel <= k)%nat ->
          _read_channel decode fuel ch what channel_timeout read_timeout = None)
    /\ (forall fuel res log,
          _read_channel decode fuel ch what channel_timeout read_timeout =
          Some (res, log) ->
          res = Raise (timeout_error what read_timeout))
    /\ exn_cls (timeout_error what read_timeout) = ETimeout
    /\ exn_msg (timeout_error what read_timeout) =
       what ++ T " (>" ++ str_of_Z read_timeout ++ T "s)".
Proof.
  intros Hnever Honly Hn. unfold _read_channel.
  destruct (first_late_exists ch read_timeout n Hn) as (k & Hk & Hf).
  destruct (loop_reaches_deadline decode ch what read_timeout Hnever Honly k
              0%nat [] [] [])
    as [Hrun Hnone].
  - exact (proj1 Hf).
  - intros j Hj. pose proof (proj2 Hf j ltac:(lia)). unfold late. lia.
  - intros [].
  - exists k. split; [exact Hk|]. split; [exact Hf|].
    split; [exact Hrun|]. split; [exact Hnone|].
    split; [|split; reflexivity].
    intros fuel res log E.
    destruct (Nat.le_gt_cases fuel k) as [Hle|Hgt].
    + rewrite (Hnone fuel Hle) in E. discriminate.
    + destruct (Hrun fuel Hgt) as (log' & E' & _).
      rewrite E' in E. now injection E as <- _.
Qed.

Lemma hung_never_ready : never_ready Samples.hung.
Proof. intros i. discriminate. Qed.

Lemma hung_only_socket_timeouts : only_socket_timeouts Samples.hung.
Proof.
  intros i e [H|[H|[H|[H|H]]]]; try discriminate H.
  injection H as <-. reflexivity.
Qed.

Lemma read_channel_deadline_witness :
  _read_channel Samples.latin1 3 Samples.hung what_ssh 20 60 =
  Some (Raise (timeout_error what_ssh 60), [Closed])
  /\ exists k,
      (k <= 2)%nat /\ first_late Samples.hung 60 k
      /\ forall fuel res log,
          _read_channel Samples.latin1 fuel Samples.hung what_ssh 20 60 =
          Some (res, log) ->
          res = Raise (timeout_error what_ssh 60).
Proof.
  split; [reflexivity|].
  destruct (read_channel_deadline Samples.latin1 Samples.hung what_ssh 20 60 2
              hung_never_ready hung_only_socket_timeouts)
    as (k & Hk & Hf & _ & _ & Hres & _).
  - vm_compute. reflexivity.
  - exists k. split; [exact Hk|]. split; [exact Hf|exact Hres].
Defined.

End ChannelFacts.

(* ------------------------------------------------------------------ *)
(** ** The pod-list classifier *)

Module K8sFacts.
Import Py Model K8s.

Lemma span_spec (p : ascii -> bool) (t a b : text) :
  span p t = (a, b) -> t = a ++ b /\ forallb p a = true.
Proof.
  revert a b; induction t as [|c t IH]; intros a b; simpl.
  - intros E; injection E as <- <-. auto.
  - destruct (p c) eqn:Ep.
    + destruct (span p t) as [a' b']. intros E; injection E as <- <-.
      destruct (IH a' b' eq_refl) as [-> H]. simpl. now rewrite Ep, H.
    + intros E; injection E as <- <-. auto.
Qed.

Lemma digits1_spec (t w r : text) :
  digits1 t = Some (w, r) -> w <> [] /\ all_digits w = true.
Proof.
  unfold digits1. destruct (span is_digit t) as [a b] eqn:E.
  destruct a as [|c a]; [discriminate|].
  intros H; injection H as <- <-.
  split; [discriminate|]. exact (proj2 (span_spec _ _ _ _ E)).
Qed.

(** A line the pattern matches has a ready count of the shape digits, slash,
    digits. *)
Lemma POD_LINE_RE_match_shape (line : text) (g : PodMatch) :
  POD_LINE_RE_match line = Some g ->
  exists m n : text,
    g_ready g = m ++ T "/" ++ n /\ m <> [] /\ n <> []
    /\ all_digits m = true /\ all_digits n = true.
Proof.
  unfold POD_LINE_RE_match, sbind.
  destruct (nonspace1 line) as [[name t1]|]; [|discriminate].
  destruct (space1 t1) as [[[] t2]|]; [|discriminate].
  destruct (digits1 t2) as [[m t3]|] eqn:Em; [|discriminate].
  destruct (literal (T "/") t3) as [[sl t4]|]; [|discriminate].
  destruct (digits1 t4) as [[n t5]|] eqn:En; [|discriminate].
  destruct (space1 t5) as [[[] t6]|]; [|discriminate].
  destruct (nonspace1 t6) as [[st t7]|]; [|discriminate].
  destruct (space1 t7) as [[[] t8]|]; [|discriminate].
  destruct (digits1 t8) as [[rs t9]|]; [|discriminate].
  destruct (space1 t9) as [[[] t10]|]; [|discriminate].
  destruct (nonspace1 t10) as [[ag t11]|]; [|discriminate].
  destruct (spaces_to_end t11); [|discriminate].
  intros E; injection E as <-.
  destruct (digits1_spec _ _ _ Em) as [Hm1 Hm2].
  destruct (digits1_spec _ _ _ En) as [Hn1 Hn2].
  exists m, n. cbn [g_ready]. auto.
Qed.

(** [int] refuses a run of digits exactly when it is longer than the
    limit. *)
Lemma int_of_digits_cases (t : text) :
  (Z.of_nat (List.length t) <= int_max_str_digits
   /\ int_of_digits t = Ret (dec t))
  \/ (int_max_str_digits < Z.of_nat (List.length t)
      /\ int_of_digits t = Raise (int_limit_error (Z.of_nat (List.length t)))).
Proof.
  unfold int_of_digits.
  destruct (int_max_str_digits <? Z.of_nat (List.length t)) eqn:E.
  - right. apply Z.ltb_lt in E. auto.
  - left. apply Z.ltb_ge in E. auto.
Qed.

Lemma row_of_match_ready (g : PodMatch) (r : Row) :
  row_of_match g = Ret r -> ready r = g_ready g /\ status r = g_status g.
Proof.
  unfold row_of_match.
  destruct (int_of_digits (g_restarts g)); [|discriminate].
  cbn [bind]. intros E; injection E as <-. auto.
Qed.

Lemma rows_loop_shape (lines : list text) :
  forall rows rows',
    rows_loop lines rows = Ret rows' ->
    Forall ready_shape rows -> Forall ready_shape rows'.
Proof.
  induction lines as [|line rest IH]; intros rows rows'; cbn [rows_loop].
  - intros E; injection E as <-. auto.
  - destruct (POD_LINE_RE_match (strip line)) as [g|] eqn:E; [|now apply IH].
    destruct (row_of_match g) as [r|e] eqn:Er; [|discriminate]. cbn [bind].
    intros Hl H. apply (IH _ _ Hl). apply Forall_app. split; [exact H|].
    constructor; [|constructor].
    destruct (POD_LINE_RE_match_shape _ _ E) as (m & n & Hg & Hrest).
    exists m, n. rewrite (proj1 (row_of_match_ready _ _ Er)). auto.
Qed.

(** The loop raises only at a matched line whose restarts count [int]
    refuses. *)
Lemma rows_loop_raises (lines : list text) :
  forall rows e,
    rows_loop lines rows = Raise e ->
    exists line g,
      In line lines /\ POD_LINE_RE_match (strip line) = Some g
      /\ int_max_str_digits < Z.of_nat (List.length (g_restarts g))
      /\ e = int_limit_error (Z.of_nat (List.length (g_restarts g))).
Proof.
  induction lines as [|line rest IH]; intros rows e; cbn [rows_loop];
    [discriminate|].
  destruct (POD_LINE_RE_match (strip line)) as [g|] eqn:E.
  - unfold row_of_match.
    destruct (int_of_digits_cases (g_restarts g)) as [[_ ->]|[Hl ->]];
      cbn [bind].
    + intros H. destruct (IH _ _ H) as (l & g' & Hin & Hrest).
      exists l, g'. split; [now right|exact Hrest].
    + intros H; injection H as <-. exists line, g. repeat split; auto.
      now left.
  - intros H. destruct (IH _ _ H) as (l & g' & Hin & Hrest).
    exists l, g'. split; [now right|exact Hrest].
Qed.

(** The loop returns only when [int] converts the restarts count of every
    matched line. *)
Lemma rows_loop_returns (lines : list text) :
  forall rows rows',
    rows_loop lines rows = Ret rows' ->
    forall line g,
      In line lines -> POD_LINE_RE_match (strip line) = Some g ->
      Z.of_nat (List.length (g_restarts g)) <= int_max_str_digits.
Proof.
  induction lines as [|l rest IH]; intros rows rows'; cbn [rows_loop];
    [intros _ line g []|].
  destruct (POD_LINE_RE_match (strip l)) as [g0|] eqn:E.
  - unfold row_of_match.
    destruct (int_of_digits_cases (g_restarts g0)) as [[Hl ->]|[_ ->]];
      cbn [bind]; [|discriminate].
    intros H line g [<-|Hin] Hm.
    + rewrite E in Hm. injection Hm as <-. exact Hl.
    + exact (IH _ _ H line g Hin Hm).
  - intros H line g [<-|Hin] Hm.
    + rewrite E in Hm. discriminate.
    + exact (IH _ _ H line g Hin Hm).
Qed.

Lemma analyze_shape (t : text) (a : Analysis) :
  analyze t = Ret a -> Forall ready_shape (rows a).
Proof.
  unfold analyze.
  destruct (rows_loop (splitlines (extract_stdout t)) []) as [rs|e] eqn:E;
    [|discriminate].
  cbn [bind]. intros H; injection H as <-. cbn [rows].
  apply (rows_loop_shape _ _ _ E). constructor.
Qed.

(** Facts about digits, character by character. *)
Lemma digit_facts (c : ascii) :
  is_digit c = true ->
  is_space c = false /\ Ascii.eqb c "/"%char = false
  /\ Ascii.eqb c "-"%char = false /\ Ascii.eqb c "+"%char = false.
Proof.
  destruct c as [[] [] [] [] [] [] [] []]; vm_compute; intros H;
    try discriminate H; auto.
Qed.

Lemma split_char_digits (m rest : text) :
  all_digits m = true ->
  split_char "/"%char (m ++ "/"%char :: rest) = m :: split_char "/"%char rest.
Proof.
  induction m as [|c m IH]; intros H.
  - reflexivity.
  - simpl in H. apply andb_true_iff in H as [Hc Hm].
    simpl. rewrite (proj1 (proj2 (digit_facts c Hc))).
    simpl in IH. now rewrite IH.
Qed.

Lemma split_char_digits_end (n : text) :
  all_digits n = true -> split_char "/"%char n = [n].
Proof.
  induction n as [|c n IH]; intros H; [reflexivity|].
  simpl in H. apply andb_true_iff in H as [Hc Hn].
  simpl. rewrite (proj1 (proj2 (digit_facts c Hc))). now rewrite IH.
Qed.

Lemma dropwhile_space_digits (t : text) :
  all_digits t = true -> dropwhile is_space t = t.
Proof.
  destruct t as [|c t]; [reflexivity|]. simpl. intros H.
  apply andb_true_iff in H as [Hc _].
  now rewrite (proj1 (digit_facts c Hc)).
Qed.

Lemma all_digits_rev (t : text) : all_digits t = true -> all_digits (rev t) = true.
Proof.
  unfold all_digits. rewrite !forallb_forall. intros H c Hc.
  apply H. now apply in_rev.
Qed.

Lemma strip_digits (t : text) : all_digits t = true -> strip t = t.
Proof.
  intros H. unfold strip, lstrip, rstrip.
  rewrite (dropwhile_space_digits t H).
  rewrite (dropwhile_space_digits (rev t) (all_digits_rev t H)).
  apply rev_involutive.
Qed.

Lemma int_body_digits (t : text) (b : bool) :
  all_digits t = true -> t <> [] -> int_body b t = true.
Proof.
  revert b; induction t as [|c t IH]; intros b H Hne; [contradiction|].
  simpl in H. apply andb_true_iff in H as [Hc Ht].
  simpl. rewrite Hc. destruct t as [|c' t]; [reflexivity|].
  apply IH; [exact Ht|discriminate].
Qed.

Lemma filter_digits (t : text) : all_digits t = true -> filter is_digit t = t.
Proof.
  induction t as [|c t IH]; intros H; [reflexivity|].
  simpl in H. apply andb_true_iff in H as [Hc Ht].
  simpl. now rewrite Hc, IH.
Qed.

Lemma py_int_digits (t : text) :
  all_digits t = true -> t <> [] ->
  py_int t = if Z.of_nat (List.length t) <=? int_max_str_digits
             then Some (dec t) else None.
Proof.
  intros H Hne. unfold py_int. rewrite (strip_digits t H).
  destruct t as [|c t]; [contradiction|].
  assert (Hc : is_digit c = true) by (simpl in H; now apply andb_true_iff in H).
  destruct (digit_facts c Hc) as (_ & _ & -> & ->).
  unfold int_digits. rewrite (int_body_digits _ _ H Hne).
  now rewrite (filter_digits _ H).
Qed.

(** On a ready count "m/n", [ready_ok_xx] compares the two numbers, when
    [int] converts both. *)
Lemma ready_ok_xx_digits (m n : text) :
  all_digits m = true -> all_digits n = true -> m <> [] -> n <> [] ->
  ready_ok_xx (m ++ T "/" ++ n)
  = (Z.of_nat (List.length m) <=? int_max_str_digits)
    && (Z.of_nat (List.length n) <=? int_max_str_digits)
    && (dec m =? dec n).
Proof.
  intros Hm Hn Hm' Hn'. unfold ready_ok_xx.
  change (m ++ T "/" ++ n) with (m ++ "/"%char :: n).
  rewrite (split_char_digits m n Hm), (split_char_digits_end n Hn).
  rewrite (py_int_digits m Hm Hm'), (py_int_digits n Hn Hn').
  destruct (Z.of_nat (List.length m) <=? int_max_str_digits),
           (Z.of_nat (List.length n) <=? int_max_str_digits); reflexivity.
Qed.

Lemma filter_none {A} (f : A -> bool) (l : list A) :
  (forall x, In x l -> f x = false) -> filter f l = [].
Proof.
  induction l as [|a l IH]; intros H; [reflexivity|].
  simpl. rewrite (H a) by now left. apply IH. intros x Hx. apply H. now right.
Qed.

Lemma filter_some {A} (f : A -> bool) (l : list A) (x : A) :
  In x l -> f x = true -> (Z.of_nat (List.length (filter f l)) >? 0) = true.
Proof.
  intros Hin Hf.
  assert (H : In x (filter f l)) by (apply filter_In; auto).
  destruct (filter f l); [contradiction|].
  apply Z.gtb_lt. cbn [List.length]. lia.
Qed.

(** The ready count of a row has one reading as digits, slash, digits. *)
Lemma ready_parts (m n m2 n2 : text) :
  all_digits m = true -> all_digits m2 = true ->
  m ++ T "/" ++ n = m2 ++ T "/" ++ n2 -> m = m2 /\ n = n2.
Proof.
  revert m2. induction m as [|c m IH]; intros m2 Hm Hm2 E.
  - destruct m2 as [|c2 m2]; [now injection E|].
    cbn in E. injection E as <- _. cbn in Hm2. discriminate.
  - destruct m2 as [|c2 m2].
    + cbn in E. injection E as -> _. cbn in Hm. discriminate.
    + cbn in E. injection E as <- E.
      cbn in Hm, Hm2.
      apply andb_true_iff in Hm as [_ Hm]. apply andb_true_iff in Hm2 as [_ Hm2].
      destruct (IH m2 Hm Hm2 E) as [-> ->]. auto.
Qed.

(** A parsed row is unhealthy exactly when one of the two tests of
    [analyze_raw] catches it. *)
Lemma unhealthy_tests (r : Row) :
  ready_shape r ->
  (unhealthy r <->
   negb (text_eqb (status r) (T "Running")) = true
   \/ negb (ready_ok_xx (ready r)) = true).
Proof.
  intros (m & n & E & Hm' & Hn' & Hm & Hn).
  assert (Hok : ready_ok_xx (ready r)
                = (Z.of_nat (List.length m) <=? int_max_str_digits)
                  && (Z.of_nat (List.length n) <=? int_max_str_digits)
                  && (dec m =? dec n))
    by (rewrite E; now apply ready_ok_xx_digits).
  split.
  - intros [Hs|(m2 & n2 & E2 & Hm2' & Hn2' & Hm2 & Hn2 & Hne)].
    + left. destruct (text_eqb (status r) (T "Running")) eqn:Et; [|reflexivity].
      apply PyFacts.text_eqb_eq in Et. contradiction.
    + right. rewrite E in E2.
      destruct (ready_parts m n m2 n2 Hm Hm2 E2) as [<- <-].
      rewrite Hok. apply negb_true_iff.
      destruct Hne as [Hne|[Hl|Hl]].
      * apply Z.eqb_neq in Hne. rewrite Hne. now rewrite andb_false_r.
      * apply Z.leb_gt in Hl. now rewrite Hl.
      * apply Z.leb_gt in Hl. rewrite Hl. now rewrite andb_false_r.
  - intros [Hs|Hr].
    + left. intros Es. apply PyFacts.text_eqb_eq in Es.
      rewrite Es in Hs. discriminate.
    + right. exists m, n. rewrite Hok in Hr.
      apply negb_true_iff in Hr.
      repeat split; auto.
      destruct (Z.of_nat (List.length m) <=? int_max_str_digits) eqn:E1;
        [|right; left; now apply Z.leb_gt].
      destruct (Z.of_nat (List.length n) <=? int_max_str_digits) eqn:E2;
        [|right; right; now apply Z.leb_gt].
      left. cbn [andb] in Hr. now apply Z.eqb_neq.
Qed.

(** C6, as amended.  The status of the pod-list check over the rows that
    [analyze_raw] parses: FAIL when no line matched the pod-line pattern;
    FAIL when some row has a phase other than [Running], a ready count
    "m/n" with [m <> n], or a ready count with a number of more than 4300
    digits, which [int] refuses; OK otherwise; never WARN.  [analyze_raw]
    raises the [ValueError] of [int], and classifies nothing, exactly when
    a matched line has a restarts count of more than 4300 digits. *)
Theorem pod_status_classified (t : text) :
  match analyze t with
  | Ret a =>
    (forall line g,
        In line (splitlines (extract_stdout t)) ->
        POD_LINE_RE_match (strip line) = Some g ->
        Z.of_nat (List.length (g_restarts g)) <= int_max_str_digits)
    /\ (rows a = [] -> compute_status a = FAIL)
    /\ ((exists r, In r (rows a) /\ unhealthy r) -> compute_status a = FAIL)
    /\ (rows a <> [] -> (forall r, In r (rows a) -> ~ unhealthy r) ->
        compute_status a = OK)
    /\ compute_status a <> WARN
  | Raise e =>
    exists line g,
      In line (splitlines (extract_stdout t))
      /\ POD_LINE_RE_match (strip line) = Some g
      /\ int_max_str_digits < Z.of_nat (List.length (g_restarts g))
      /\ e = int_limit_error (Z.of_nat (List.length (g_restarts g)))
  end.
Proof.
  destruct (analyze t) as [a|e] eqn:Ea.
  2:{ unfold analyze in Ea.
      destruct (rows_loop (splitlines (extract_stdout t)) []) as [rs|e'] eqn:E;
        [discriminate|].
      cbn [bind] in Ea. injection Ea as <-.
      exact (rows_loop_raises _ _ _ E). }
  pose proof (analyze_shape t a Ea) as Hshape.
  split.
  { unfold analyze in Ea.
    destruct (rows_loop (splitlines (extract_stdout t)) []) as [rs|e'] eqn:E;
      [|discriminate].
    exact (rows_loop_returns _ _ _ E). }
  assert (Ha : a = analysis_of (rows a)).
  { unfold analyze in Ea.
    destruct (rows_loop (splitlines (extract_stdout t)) []) as [rs|e'];
      [|discriminate].
    cbn [bind] in Ea. injection Ea as <-. reflexivity. }
  assert (Htot : pods_total a = Z.of_nat (List.length (rows a)))
    by (rewrite Ha; reflexivity).
  assert (Hnr : pods_not_running a =
                Z.of_nat (List.length
                  (filter (fun r => negb (text_eqb (status r) (T "Running")))
                     (rows a)))) by (rewrite Ha; reflexivity).
  assert (Hnd : pods_not_ready a =
                Z.of_nat (List.length
                  (filter (fun r => negb (ready_ok_xx (ready r))) (rows a))))
    by (rewrite Ha; reflexivity).
  unfold compute_status. rewrite Htot, Hnr, Hnd.
  repeat split.
  - intros ->. reflexivity.
  - intros (r & Hin & Hu).
    destruct (rows a) as [|r0 rs] eqn:Er; [contradiction|]. rewrite <- Er in *.
    replace (Z.of_nat (List.length (rows a)) =? 0) with false
      by (rewrite Er; reflexivity).
    rewrite Forall_forall in Hshape.
    apply (unhealthy_tests r (Hshape r Hin)) in Hu as [Hu|Hu].
    + now rewrite (filter_some _ _ r Hin Hu).
    + rewrite (filter_some (fun r => negb (ready_ok_xx (ready r))) _ r Hin Hu).
      now rewrite orb_true_r.
  - intros Hne Hall.
    rewrite Forall_forall in Hshape.
    rewrite !filter_none.
    + destruct (rows a); [contradiction|reflexivity].
    + intros r Hin. destruct (negb (ready_ok_xx (ready r))) eqn:E; [|reflexivity].
      exfalso. apply (Hall r Hin).
      apply (unhealthy_tests r (Hshape r Hin)). now right.
    + intros r Hin.
      destruct (negb (text_eqb (status r) (T "Running"))) eqn:E; [|reflexivity].
      exfalso. apply (Hall r Hin).
      apply (unhealthy_tests r (Hshape r Hin)). now left.
  - destruct (_ =? 0); [discriminate|].
    destruct (_ || _); discriminate.
Qed.

Lemma pod_status_classified_witness :
  exists a,
    analyze (raw_content Samples.t0 (T "10.0.0.1") (T "root") (T "dis-nci")
               Samples.pods_crashing [] 0 []) = Ret a
    /\ compute_status a = FAIL.
Proof.
  pose proof (pod_status_classified
                (raw_content Samples.t0 (T "10.0.0.1") (T "root")
                   (T "dis-nci") Samples.pods_crashing [] 0 [])) as H.
  destruct (analyze (raw_content Samples.t0 (T "10.0.0.1") (T "root")
                       (T "dis-nci") Samples.pods_crashing [] 0 []))
    as [a|e] eqn:Ea; [|vm_compute in Ea; discriminate Ea].
  exists a. split; [reflexivity|].
  apply (proj1 (proj2 (proj2 H))).
  vm_compute in Ea. injection Ea as <-.
  eexists. split.
  - right. right. left. reflexivity.
  - left. vm_compute. discriminate.
Defined.

(** C6 as stated fails: a pod that is [Running] with a ready count of two
    equal numbers is FAIL when the numbers have more than 4300 digits, for
    [int] raises on them and [ready_ok_xx] answers [False]. *)
Lemma pod_equal_counts_fail :
  exists a r,
    analyze MoreSamples.pods_long_ready = Ret a
    /\ rows a = [r]
    /\ status r = T "Running"
    /\ ready r = MoreSamples.long_count ++ T "/" ++ MoreSamples.long_count
    /\ compute_status a = FAIL.
Proof.
  eexists. eexists. split; [vm_compute; reflexivity|]. repeat split.
Qed.

End K8sFacts.

(* ------------------------------------------------------------------ *)
(** ** The aggregator *)

Module MainFacts.
Import Py Model Main.

Lemma status_rank_range (s : text) : 0 <= status_rank s <= 2.
Proof.
  unfold status_rank.
  destruct (text_eqb s OK), (text_eqb s WARN), (text_eqb s FAIL); lia.
Qed.

Lemma status_rank_zero (s : text) : status_rank s = 0 -> s = OK.
Proof.
  unfold status_rank. destruct (text_eqb s OK) eqn:E.
  - intros _. now apply PyFacts.text_eqb_eq.
  - destruct (text_eqb s WARN), (text_eqb s FAIL); discriminate.
Qed.

Lemma max_rank_range (rs : list Result) : 0 <= max_rank rs <= 2.
Proof.
  induction rs as [|r rs IH]; simpl; [lia|].
  pose proof (status_rank_range (res_status r)). lia.
Qed.

Lemma max_rank_app (rs : list Result) (r : Result) :
  max_rank (rs ++ [r]) = Z.max (max_rank rs) (status_rank (res_status r)).
Proof.
  induction rs as [|x rs IH]; simpl.
  - pose proof (status_rank_range (res_status r)). lia.
  - rewrite IH. lia.
Qed.

Lemma max_rank_zero (rs : list Result) :
  max_rank rs = 0 -> forall r, In r rs -> res_status r = OK.
Proof.
  induction rs as [|x rs IH]; simpl; intros H r Hin; [contradiction|].
  destruct Hin as [<- | Hin].
  - apply status_rank_zero.
    pose proof (status_rank_range (res_status x)).
    pose proof (max_rank_range rs). lia.
  - apply IH; [|exact Hin].
    pose proof (status_rank_range (res_status x)).
    pose proof (max_rank_range rs). lia.
Qed.

Section Runs.

Variable run_k8s_dis_nci :
  text -> ssh_cfg -> K8s.k8s_cfg -> output_dirs -> outcome CheckResult.
Variable run_nelmon_check : text -> ssh_cfg -> output_dirs -> outcome CheckResult.
Variable run_boundary : text -> ssh_cfg -> output_dirs -> outcome CheckResult.
Variable setup : outcome unit.
Variable elapsed : text -> Q.
Variable snapshot_time : datetime.
Variable write_snapshot : Snapshot -> outcome unit.
Variable SERVERS : list (text * ssh_cfg).

Local Abbreviation step :=
  (Main.step run_k8s_dis_nci run_nelmon_check run_boundary elapsed SERVERS).
Local Abbreviation loop :=
  (Main.loop run_k8s_dis_nci run_nelmon_check run_boundary elapsed SERVERS).
Local Abbreviation main :=
  (Main.main run_k8s_dis_nci run_nelmon_check run_boundary setup elapsed
     snapshot_time write_snapshot SERVERS).

Lemma agrees_fail (rs : list Result) (w : text) (r : Result) :
  agrees (rs, w) -> res_status r = FAIL -> agrees (rs ++ [r], FAIL).
Proof.
  intros [H1 H2] Hr. split; cbn [fst snd].
  - rewrite max_rank_app, Hr.
    pose proof (max_rank_range rs).
    change (status_rank FAIL) with 2. lia.
  - right. rewrite map_app, in_app_iff. right. simpl. now left.
Qed.

Lemma step_agrees (st st' : list Result * text) (chk : text * check_cfg) :
  step st chk = Ret st' -> agrees st ->
  agrees st' /\ List.length (fst st') = S (List.length (fst st)).
Proof.
  destruct st as [rs w], chk as [check_name cfg].
  unfold Main.step.
  destruct (type cfg) as [check_type|]; [|discriminate].
  destruct (server cfg) as [server_name|]; [|discriminate].
  cbn [item bind].
  destruct (if falsy_cfg _ then None else _) as [cfg'|].
  - destruct (dispatch _ _ _ _ _ _ _ _) as [result|e]; intros E; injection E as <-;
      intros Hst.
    + split; [|cbn [fst]; rewrite length_app; simpl; lia].
      destruct Hst as [H1 H2]; cbn [fst snd] in *.
      split; cbn [fst snd].
      * rewrite max_rank_app. cbn [res_status].
        destruct (status_rank (status result) >? status_rank w) eqn:Eg; lia.
      * rewrite map_app, in_app_iff. cbn [map res_status In].
        destruct (status_rank (status result) >? status_rank w); [auto|].
        destruct H2; auto.
    + split; [apply (agrees_fail rs w); [exact Hst|reflexivity]
             |cbn [fst]; rewrite length_app; simpl; lia].
  - intros E; injection E as <-; intros Hst.
    split; [apply (agrees_fail rs w); [exact Hst|reflexivity]
           |cbn [fst]; rewrite length_app; simpl; lia].
Qed.

Lemma loop_agrees (CHECKS : list (text * check_cfg)) :
  forall st st',
    loop CHECKS st = Ret st' -> agrees st ->
    agrees st' /\
    List.length (fst st') = (List.length (fst st) + List.length CHECKS)%nat.
Proof.
  induction CHECKS as [|chk rest IH]; intros st st'; cbn [Main.loop].
  - intros E; injection E as <-; intros H. split; [exact H|cbn; lia].
  - destruct (step st chk) as [st1|e] eqn:E1; [|discriminate].
    cbn [bind List.length]. intros E H.
    destruct (step_agrees _ _ _ E1 H) as [H1 L1].
    destruct (IH _ _ E H1) as [H2 L2].
    split; [exact H2|lia].
Qed.

Lemma step_returns (st : list Result * text) (chk : text * check_cfg) :
  type (snd chk) <> None -> server (snd chk) <> None ->
  exists st', step st chk = Ret st'.
Proof.
  destruct st as [rs w], chk as [check_name cfg]. cbn [snd].
  intros Ht Hs. unfold Main.step.
  destruct (type cfg) as [check_type|]; [|contradiction].
  destruct (server cfg) as [server_name|]; [|contradiction].
  cbn [item bind].
  destruct (if falsy_cfg _ then None else _) as [cfg'|]; [|eauto].
  destruct (dispatch _ _ _ _ _ _ _ _); eauto.
Qed.

(** A registry whose checks declare their type and server is run to the
    end. *)
Lemma loop_returns (CHECKS : list (text * check_cfg)) :
  declared CHECKS -> forall st, exists st', loop CHECKS st = Ret st'.
Proof.
  induction 1 as [|chk rest [Ht Hs] Hrest IH]; intros st.
  - cbn. eauto.
  - destruct (step_returns st chk Ht Hs) as [st1 E1].
    destruct (IH st1) as [st' E]. exists st'.
    cbn [Main.loop]. rewrite E1. exact E.
Qed.

Lemma main_returns (CHECKS : list (text * check_cfg)) :
  declared CHECKS -> setup = Ret tt ->
  (forall snap, write_snapshot snap = Ret tt) ->
  exists snap code, main CHECKS = Ret (snap, code).
Proof.
  intros Hd Hs Hw. unfold Main.main. rewrite Hs. cbn [bind].
  destruct (loop_returns CHECKS Hd ([], OK)) as [[rs w] E].
  rewrite E. cbn [bind]. rewrite Hw. cbn [bind]. eauto.
Qed.

(** C10.  In every run of [main] that writes its snapshot, [global_status]
    is a status of the greatest rank (OK = 0, WARN = 1, FAIL = 2) among the
    results, one result per check, and the exit code is that rank: 0 for
    OK, 1 for WARN, 2 for FAIL. *)
Theorem main_global_status (CHECKS : list (text * check_cfg))
    (snap : Snapshot) (code : Z) :
  main CHECKS = Ret (snap, code) ->
  status_rank (global_status snap) = max_rank (results snap)
  /\ (results snap <> [] ->
      In (global_status snap) (map res_status (results snap)))
  /\ (results snap = [] -> global_status snap = OK)
  /\ List.length (results snap) = List.length CHECKS
  /\ code = status_rank (global_status snap)
  /\ (global_status snap = OK -> code = 0)
  /\ (global_status snap = WARN -> code = 1)
  /\ (global_status snap = FAIL -> code = 2).
Proof.
  unfold Main.main.
  destruct setup as [[]|e]; [|discriminate]. cbn [bind].
  destruct (loop CHECKS ([], OK)) as [[rs w]|e] eqn:E; [|discriminate].
  cbn [bind].
  destruct (write_snapshot _) as [[]|e]; [|discriminate]. cbn [bind].
  intros H; injection H as <- <-. cbn [global_status results].
  assert (H0 : agrees ([] : list Result, OK)) by (split; [reflexivity|now left]).
  destruct (loop_agrees _ _ _ E H0) as [[H1 H2] L]. cbn [fst snd] in *.
  repeat split.
  - exact H1.
  - intros Hne. destruct H2 as [-> | H2]; [|exact H2].
    destruct rs as [|r rs]; [contradiction|].
    assert (Hr : res_status r = OK)
      by (apply (max_rank_zero (r :: rs)); [now rewrite <- H1|now left]).
    simpl. now left.
  - intros ->. destruct H2 as [H2|[]]; exact H2.
  - exact L.
  - intros ->. reflexivity.
  - intros ->. reflexivity.
  - intros ->. reflexivity.
Qed.

End Runs.

Lemma main_global_status_witness :
  Samples.main_three = Ret (Samples.three_snapshot, 2)
  /\ global_status Samples.three_snapshot = FAIL
  /\ status_rank (global_status Samples.three_snapshot)
     = max_rank (results Samples.three_snapshot)
  /\ List.length (results Samples.three_snapshot) = 3%nat.
Proof.
  assert (E : Samples.main_three = Ret (Samples.three_snapshot, 2))
    by reflexivity.
  pose proof (main_global_status _ _ _ _ _ _ _ _ _ _ _ E) as (H1 & _ & _ & H4 & _).
  split; [exact E|split; [reflexivity|split; [exact H1|exact H4]]].
Defined.

End MainFacts.

(* ================================================================== *)
(** * Further properties *)
(* ================================================================== *)

(* ------------------------------------------------------------------ *)
(** ** Shell quoting *)

Module ShellFacts.
Import Py Shell.

Lemma sh_word_escape (t : text) :
  sh_word Single (escape_quotes t ++ [SQ]) = Some t.
Proof.
  induction t as [|c t IH]; [reflexivity|].
  unfold escape_quotes in *. cbn [flat_map].
  destruct (Ascii.eqb c SQ) eqn:E.
  - apply Ascii.eqb_eq in E. subst c.
    change (([SQ; DQ; SQ; DQ; SQ] ++ flat_map _ t) ++ [SQ])
      with (SQ :: DQ :: SQ :: DQ :: SQ ::
            (flat_map (fun c => if Ascii.eqb c SQ then [SQ; DQ; SQ; DQ; SQ]
                                else [c]) t ++ [SQ])).
    cbn [sh_word]. rewrite IH. reflexivity.
  - cbn [app sh_word]. rewrite E, IH. reflexivity.
Qed.

Lemma sh_word_safe (t : text) :
  forallb is_shell_safe t = true -> sh_word Unquoted t = Some t.
Proof.
  induction t as [|c t IH]; [reflexivity|].
  cbn [forallb]. intros H. apply andb_true_iff in H as [Hc Ht].
  cbn [sh_word]. rewrite Hc, (IH Ht).
  assert (E1 : Ascii.eqb c SQ = false)
    by (destruct (Ascii.eqb c SQ) eqn:E; [|reflexivity];
        apply Ascii.eqb_eq in E; subst; discriminate).
  assert (E2 : Ascii.eqb c DQ = false)
    by (destruct (Ascii.eqb c DQ) eqn:E; [|reflexivity];
        apply Ascii.eqb_eq in E; subst; discriminate).
  now rewrite E1, E2.
Qed.

(** X1.  What [quote_for_bash] and [shlex.quote] write is read back by the
    shell as the one word they were given, whatever quotes it holds. *)
Theorem quoting_round_trip (t : text) :
  sh_word Unquoted (quote_for_bash t) = Some t
  /\ sh_word Unquoted (shlex_quote t) = Some t.
Proof.
  split.
  - unfold quote_for_bash. cbn [app sh_word]. apply sh_word_escape.
  - unfold shlex_quote. destruct t as [|c t]; [reflexivity|].
    cbn [is_empty].
    destruct (forallb is_shell_safe (c :: t)) eqn:E.
    + now apply sh_word_safe.
    + cbn [app sh_word]. apply sh_word_escape.
Qed.

End ShellFacts.

(* ------------------------------------------------------------------ *)
(** ** Loading the private key *)

Module KeyFacts.
Import Py Model.

(** X2.  [load_private_key] tries RSA, then Ed25519, then ECDSA, and
    returns the key of the first class that loads the file; when none does
    it raises one [RuntimeError] that names the error of the last class
    only.  It raises in no other case. *)
Theorem load_private_key_order
    (from_file : key_class -> text -> outcome PKey) (path : text) :
  (forall k, from_file RSAKey path = Ret k ->
             load_private_key from_file path = Ret k)
  /\ (forall e k, from_file RSAKey path = Raise e ->
                  from_file Ed25519Key path = Ret k ->
                  load_private_key from_file path = Ret k)
  /\ (forall e e' k, from_file RSAKey path = Raise e ->
                     from_file Ed25519Key path = Raise e' ->
                     from_file ECDSAKey path = Ret k ->
                     load_private_key from_file path = Ret k)
  /\ (forall e,
        load_private_key from_file path = Raise e ->
        exists e1 e2 e3,
          from_file RSAKey path = Raise e1
          /\ from_file Ed25519Key path = Raise e2
          /\ from_file ECDSAKey path = Raise e3
          /\ e = Exn ERuntime
                   (T "No pude cargar la private key: " ++ exn_msg e3)).
Proof.
  unfold load_private_key. cbn [load_loop].
  repeat split.
  - intros k ->. reflexivity.
  - intros e k -> ->. reflexivity.
  - intros e e' k -> -> ->. reflexivity.
  - destruct (from_file RSAKey path) as [k1|e1]; [discriminate|].
    destruct (from_file Ed25519Key path) as [k2|e2]; [discriminate|].
    destruct (from_file ECDSAKey path) as [k3|e3]; [discriminate|].
    intros e E. injection E as <-. exists e1, e2, e3. auto.
Qed.

Lemma load_private_key_order_witness :
  load_private_key
    (fun cls _ => match cls with
                  | Ed25519Key => Ret (T "key")
                  | _ => Raise (MoreSamples.bad_key cls)
                  end)
    (T "id_ed25519")
  = Ret (T "key").
Proof.
  exact (proj1 (proj2 (load_private_key_order _ (T "id_ed25519")))
           (MoreSamples.bad_key RSAKey) (T "key") eq_refl eq_refl).
Defined.

End KeyFacts.

(* ------------------------------------------------------------------ *)
(** ** The channel reader, when the command ends *)

Module ReaderFacts.
Import Py Model Channel More.

Section Reader.

Variable decode : bytes -> text.
Variable ch : Chan.
Variable what : text.
Variable read_timeout : Z.

(** The answer of the last poll of an iteration is that of
    [exit_status_ready]. *)
Lemma poll_exit (i : nat) (out err out' err' : list bytes) (b : bool) :
  poll ch i out err = (out', err', Ret b) -> exit_status_ready ch i = Ret b.
Proof.
  unfold poll.
  destruct (recv_ready ch i); [|discriminate].
  destruct (read_if _ _ _); [|discriminate].
  destruct (recv_stderr_ready ch i); [|discriminate].
  destruct (read_if _ _ _); [|discriminate].
  intros E. now injection E.
Qed.

Lemma loop_returns_ready (fuel : nat) :
  forall i out err log r log',
    loop decode fuel ch what read_timeout (time ch 0) i out err log
    = Some (Ret r, log') ->
    ~ In Closed log ->
    exists n,
      (i <= n)%nat /\ exit_status_ready ch n = Ret true
      /\ (forall j, (i <= j <= n)%nat -> ~ late ch read_timeout j)
      /\ recv_exit_status ch = Ret (snd r)
      /\ ~ In Closed log'.
Proof.
  induction fuel as [|fuel IH]; intros i out err log r log'; cbn [loop];
    [discriminate|].
  destruct (_ >? _) eqn:Eg; [discriminate|].
  assert (Hi : ~ late ch read_timeout i) by (unfold late; lia).
  destruct (poll ch i out err) as [[out' err'] [[|]|e]] eqn:Ep.
  - unfold finish. destruct (recv_exit_status ch) as [code|e]; [|discriminate].
    cbn [bind]. intros E Hlog. injection E as <- <-.
    exists i. split; [lia|]. split; [exact (poll_exit _ _ _ _ _ _ Ep)|].
    split; [|split; [reflexivity|exact Hlog]].
    intros j Hj. now replace j with i by lia.
  - intros E Hlog.
    destruct (IH _ _ _ _ _ _ E) as (n & Hn & Hr & Hl & Hc & Hlog').
    + intros Hin. apply in_app_iff in Hin as [Hin|[Hin|[]]];
        [auto|discriminate].
    + exists n. split; [lia|]. split; [exact Hr|]. split; [|auto].
      intros j Hj. destruct (Nat.eq_dec j i) as [->|Hne]; [exact Hi|].
      apply Hl. lia.
  - destruct (is_timeout e); [|discriminate].
    intros E Hlog.
    destruct (IH _ _ _ _ _ _ E Hlog) as (n & Hn & Hr & Hl & Hc & Hlog').
    exists n. split; [lia|]. split; [exact Hr|]. split; [|auto].
    intros j Hj. destruct (Nat.eq_dec j i) as [->|Hne]; [exact Hi|].
    apply Hl. lia.
Qed.

Section Clean.

Variables (n : nat) (ready eready : nat -> bool) (data edata : nat -> bytes).
Hypothesis Hclean : clean_until ch n ready data eready edata.

Lemma poll_clean (i : nat) (out err : list bytes) :
  (i <= n)%nat ->
  poll ch i out err =
  (out ++ (if ready i then [data i] else []),
   err ++ (if eready i then [edata i] else []),
   exit_status_ready ch i).
Proof.
  intros Hi. destruct Hclean as (Hp & _ & _).
  destruct (Hp i Hi) as (H1 & H2 & H3 & H4).
  unfold poll, read_if. rewrite H1, H3.
  destruct (ready i); [rewrite (H2 eq_refl)|rewrite app_nil_r];
    (destruct (eready i); [rewrite (H4 eq_refl)|rewrite app_nil_r]);
    reflexivity.
Qed.

Lemma loop_clean (code : Z) (k : nat) :
  forall i out err log fuel,
    (i + k = n)%nat -> (k < fuel)%nat ->
    (forall j, (j <= n)%nat -> ~ late ch read_timeout j) ->
    recv_exit_status ch = Ret code ->
    loop decode fuel ch what read_timeout (time ch 0) i out err log =
    Some (Ret (decode (List.concat (out ++ chunks ready data i (S k))),
               decode (List.concat (err ++ chunks eready edata i (S k))),
               code),
          log ++ repeat Slept k).
Proof.
  induction k as [|k IH]; intros i out err log [|fuel] Hik Hf Hl Hc; try lia;
    cbn [loop].
  - assert (Hi : ~ late ch read_timeout i) by (apply Hl; lia).
    destruct (_ >? _) eqn:Eg; [exfalso; apply Hi; unfold late; lia|].
    rewrite poll_clean by lia.
    replace i with n by lia. rewrite (proj2 (proj2 Hclean)).
    unfold finish. rewrite Hc. cbn [bind chunks repeat].
    now rewrite !app_nil_r.
  - assert (Hi : ~ late ch read_timeout i) by (apply Hl; lia).
    destruct (_ >? _) eqn:Eg; [exfalso; apply Hi; unfold late; lia|].
    rewrite poll_clean by lia.
    rewrite (proj1 (proj2 Hclean) i) by lia.
    rewrite (IH (S i)) by (try assumption; lia).
    cbn [chunks repeat]. rewrite <- !app_assoc. reflexivity.
Qed.

End Clean.

End Reader.

(** X3.  When the command ends at iteration [n] of the loop, before the
    deadline, on a channel whose polls raise nothing, [_read_channel]
    returns the chunks of stdout and of stderr that were announced, each
    stream in the order read and decoded as one text, with the exit status
    of the command; it has slept [n] times and has not closed the channel. *)
Theorem read_channel_collects (decode : bytes -> text) (ch : Chan) (what : text)
    (channel_timeout read_timeout : Z) (n : nat)
    (ready eready : nat -> bool) (data edata : nat -> bytes) (code : Z) :
  clean_until ch n ready data eready edata ->
  (forall j, (j <= n)%nat -> time ch (S j) - time ch 0 <= 1000 * read_timeout) ->
  recv_exit_status ch = Ret code ->
  forall fuel, (n < fuel)%nat ->
    _read_channel decode fuel ch what channel_timeout read_timeout =
    Some (Ret (decode (List.concat (chunks ready data 0 (S n))),
               decode (List.concat (chunks eready edata 0 (S n))),
               code),
          repeat Slept n).
Proof.
  intros Hclean Hl Hc fuel Hf. unfold _read_channel.
  assert (Hl' : forall j, (j <= n)%nat -> ~ late ch read_timeout j)
    by (intros j Hj; unfold late; specialize (Hl j Hj); lia).
  exact (loop_clean decode ch what read_timeout n ready eready data edata
           Hclean code n 0%nat [] [] [] fuel eq_refl Hf Hl' Hc).
Qed.

(** X4.  [_read_channel] returns a result only for a command that has
    signalled its exit status, at an iteration that did not see the deadline
    passed, as no iteration before it did; the exit code is the one of the
    channel and the channel has not been closed. *)
Theorem read_channel_returns_only_ended (decode : bytes -> text) (ch : Chan)
    (what : text) (channel_timeout read_timeout : Z) (fuel : nat)
    (out err : text) (code : Z) (log : list chan_event) :
  _read_channel decode fuel ch what channel_timeout read_timeout
  = Some (Ret (out, err, code), log) ->
  exists n,
    exit_status_ready ch n = Ret true
    /\ (forall j, (j <= n)%nat ->
                  time ch (S j) - time ch 0 <= 1000 * read_timeout)
    /\ recv_exit_status ch = Ret code
    /\ ~ In Closed log.
Proof.
  unfold _read_channel. intros E.
  destruct (loop_returns_ready decode ch what read_timeout fuel _ _ _ _ _ _ E)
    as (n & _ & Hr & Hl & Hc & Hlog); [intros []|].
  exists n. split; [exact Hr|]. split; [|split; [exact Hc|exact Hlog]].
  intros j Hj. specialize (Hl j ltac:(lia)). unfold late in Hl. lia.
Qed.

End ReaderFacts.

Module ReaderWitnesses.
Import Py Model Channel More ReaderFacts.

Lemma ended_clean :
  clean_until MoreSamples.ended 2
    (fun i => (i <? 2)%nat)
    (fun i => if (i =? 0)%nat then MoreSamples.chunk "up 1 "
              else MoreSamples.chunk "day")
    (fun _ => false) (fun _ => []).
Proof.
  split; [|split].
  - intros i _. repeat split; intros H; try discriminate H; reflexivity.
  - intros i Hi. cbn.
    destruct i as [|[|i]]; [reflexivity|reflexivity|lia].
  - reflexivity.
Qed.

Lemma read_channel_collects_witness :
  _read_channel Samples.latin1 5 MoreSamples.ended what_ssh 20 60 =
  Some (Ret (T "up 1 day", [], 0), [Slept; Slept]).
Proof.
  apply (read_channel_collects Samples.latin1 MoreSamples.ended what_ssh 20 60
           2 _ _ _ _ 0 ended_clean); [|reflexivity|lia].
  intros j Hj. cbn. lia.
Defined.

Lemma read_channel_returns_only_ended_witness :
  exists n,
    exit_status_ready MoreSamples.ended n = Ret true
    /\ (forall j, (j <= n)%nat ->
          time MoreSamples.ended (S j) - time MoreSamples.ended 0 <= 1000 * 60)
    /\ recv_exit_status MoreSamples.ended = Ret 0
    /\ ~ In Closed [Slept; Slept].
Proof.
  apply (read_channel_returns_only_ended Samples.latin1 MoreSamples.ended
           what_ssh 20 60 5 (T "up 1 day") [] 0 [Slept; Slept]).
  reflexivity.
Defined.

End ReaderWitnesses.

(* ------------------------------------------------------------------ *)
(** ** The retrying runners, when an attempt succeeds *)

Module RetryMore.
Import Py Model Retry.

Lemma attempts_first_success (body : Z -> outcome RemoteExec) (err : Z -> exn)
    (check : text) (tries : Z) (r : RemoteExec) (m : nat) :
  forall n attempt last_err log,
    (m < n)%nat ->
    (forall a, attempt <= a < attempt + Z.of_nat m -> body a = Raise (err a)) ->
    body (attempt + Z.of_nat m) = Ret r ->
    attempts body check tries n attempt last_err log =
    (Ret r,
     log ++ flat_map failed_attempt (attempt_range attempt m)
     ++ [NewClient (attempt + Z.of_nat m); Close (attempt + Z.of_nat m)]).
Proof.
  induction m as [|m IH]; intros [|n] attempt last_err log Hn Hf Hr; try lia.
  - cbn [attempts attempt_range flat_map app].
    replace (attempt + Z.of_nat 0) with attempt in * by lia.
    now rewrite Hr.
  - cbn [attempts attempt_range flat_map].
    rewrite (Hf attempt) by lia.
    rewrite (IH n (attempt + 1)).
    + unfold failed_attempt at 2. rewrite <- !app_assoc. cbn [app].
      now replace (attempt + 1 + Z.of_nat m) with (attempt + Z.of_nat (S m))
        by lia.
    + lia.
    + intros a Ha. apply Hf. lia.
    + now replace (attempt + 1 + Z.of_nat m) with (attempt + Z.of_nat (S m))
        by lia.
Qed.

Lemma retry_first_success (body : Z -> outcome RemoteExec) (err : Z -> exn)
    (check : text) (tries k : Z) (r : RemoteExec) :
  1 <= k <= tries ->
  (forall a, 1 <= a < k -> body a = Raise (err a)) ->
  body k = Ret r ->
  retry body check tries =
  (Ret r,
   flat_map failed_attempt (attempt_range 1 (Z.to_nat (k - 1)))
   ++ [NewClient k; Close k]).
Proof.
  intros Hk Hf Hr. unfold retry.
  rewrite (attempts_first_success body err check tries r (Z.to_nat (k - 1)));
    try lia.
  - cbn [app]. now replace (1 + Z.of_nat (Z.to_nat (k - 1))) with k by lia.
  - intros a Ha. apply Hf. lia.
  - now replace (1 + Z.of_nat (Z.to_nat (k - 1))) with k by lia.
Qed.

(** X5.  [ssh_run] and [ssh_run_sudo_block] return the result of the first
    attempt that succeeds and make no attempt after it: before it, each
    failed attempt was followed by its sleep of 1.5 s times its number and
    the closing of its client; the client of the attempt that succeeds is
    closed too, without a sleep. *)
Theorem runners_first_success :
  (forall E host port user password cmd ct cht rt tries k err r,
      1 <= k <= tries ->
      (forall a, 1 <= a < k ->
         Nelmon.attempt_body E host port user password cmd ct cht rt a
         = Raise (err a)) ->
      Nelmon.attempt_body E host port user password cmd ct cht rt k = Ret r ->
      Nelmon.ssh_run E host port user password cmd ct cht rt tries =
      (Ret r,
       flat_map failed_attempt (attempt_range 1 (Z.to_nat (k - 1)))
       ++ [NewClient k; Close k]))
  /\
  (forall E host port user key_path block ct cht rt tries k err r,
      1 <= k <= tries ->
      (forall a, 1 <= a < k ->
         K8s.attempt_body E host port user key_path block ct cht rt a
         = Raise (err a)) ->
      K8s.attempt_body E host port user key_path block ct cht rt k = Ret r ->
      K8s.ssh_run_sudo_block E host port user key_path block ct cht rt tries =
      (Ret r,
       flat_map failed_attempt (attempt_range 1 (Z.to_nat (k - 1)))
       ++ [NewClient k; Close k])).
Proof.
  split; intros; unfold Nelmon.ssh_run, K8s.ssh_run_sudo_block;
    now apply (retry_first_success _ err).
Qed.

Lemma runners_first_success_witness :
  Nelmon.ssh_run (MoreSamples.nelmon_flaky Samples.df_output) (T "10.0.0.1")
    22 (T "root") (T "secret") (T "uptime ; df -h") 10 20 60 2
  = (Ret (Samples.df_output, [], 0),
     [NewClient 1; Sleep 1500; Close 1; NewClient 2; Close 2]).
Proof.
  apply (proj1 runners_first_success _ _ _ _ _ _ _ _ _ 2 2 Samples.refused).
  - lia.
  - intros a Ha. assert (a = 1) as -> by lia. reflexivity.
  - reflexivity.
Defined.

(** X6.  With an attempt count of zero or less, [ssh_run] and
    [ssh_run_sudo_block] connect to nothing, sleep for nothing, and raise
    their failure with [None] for the last error. *)
Theorem runners_without_attempt :
  (forall E host port user password cmd ct cht rt tries,
      tries <= 0 ->
      Nelmon.ssh_run E host port user password cmd ct cht rt tries =
      (Raise (failure (T "nelmon_check") tries None), []))
  /\
  (forall E host port user key_path block ct cht rt tries,
      tries <= 0 ->
      K8s.ssh_run_sudo_block E host port user key_path block ct cht rt tries =
      (Raise (failure (T "k8s_dis_nci") tries None), [])).
Proof.
  split; intros; unfold Nelmon.ssh_run, K8s.ssh_run_sudo_block, retry;
    now replace (Z.to_nat tries) with 0%nat by lia.
Qed.

Lemma runners_without_attempt_witness :
  Nelmon.ssh_run Samples.nelmon_down (T "10.0.0.1") 22 (T "root") (T "secret")
    (T "uptime ; df -h") 10 20 60 0
  = (Raise (Exn ERuntime
              (T "SSH nelmon_check fall" ++ [o_acute]
               ++ T " tras 0 intentos: None")), []).
Proof.
  apply (proj1 runners_without_attempt). lia.
Defined.

End RetryMore.

(* ------------------------------------------------------------------ *)
(** ** What the sanitizer and the parsers let through *)

Module TextMore.
Import Py Model.

Lemma dropwhile_idem (p : ascii -> bool) (t : text) :
  dropwhile p (dropwhile p t) = dropwhile p t.
Proof.
  induction t as [|c t IH]; [reflexivity|].
  simpl. destruct (p c) eqn:E; [exact IH|]. simpl. now rewrite E.
Qed.

Lemma dropwhile_app_last (p : ascii -> bool) (l : text) (c : ascii) :
  p c = false -> dropwhile p (l ++ [c]) = dropwhile p l ++ [c].
Proof.
  intros Hc. induction l as [|x l IH]; simpl; [now rewrite Hc|].
  destruct (p x); [exact IH|reflexivity].
Qed.

Lemma rstrip_cons (c : ascii) (t : text) :
  is_space c = false -> rstrip (c :: t) = c :: rstrip t.
Proof.
  intros Hc. unfold rstrip. cbn [rev].
  rewrite dropwhile_app_last by exact Hc.
  now rewrite rev_app_distr.
Qed.

Lemma rstrip_idem (t : text) : rstrip (rstrip t) = rstrip t.
Proof.
  unfold rstrip. now rewrite rev_involutive, dropwhile_idem.
Qed.

(** Stripped text is not changed by stripping. *)
Lemma strip_idem (t : text) : strip (strip t) = strip t.
Proof.
  unfold strip, lstrip.
  destruct (dropwhile is_space t) as [|c u] eqn:E; [reflexivity|].
  assert (Hc : is_space c = false).
  { clear - E. induction t as [|x t IH]; [discriminate|].
    simpl in E. destruct (is_space x) eqn:Ex; [auto|].
    injection E as -> _. exact Ex. }
  rewrite (rstrip_cons c u Hc). cbn [dropwhile]. rewrite Hc.
  now rewrite (rstrip_cons c _ Hc), rstrip_idem.
Qed.

Lemma In_drop_leading_empty (ls : list text) (x : text) :
  In x (Boundary.drop_leading_empty ls) -> In x ls.
Proof.
  induction ls as [|l r IH]; simpl; [auto|].
  destruct (is_empty l); [intros H; right; auto|auto].
Qed.

Lemma In_drop_last_empty (ls : list text) (x : text) :
  In x (Boundary.drop_last_empty ls) -> In x ls.
Proof.
  induction ls as [|l r IH]; [auto|].
  destruct r as [|l' r].
  - simpl. destruct (is_empty l); [intros []|auto].
  - change (Boundary.drop_last_empty (l :: l' :: r))
      with (l :: Boundary.drop_last_empty (l' :: r)).
    intros [H|H]; [now left|right; auto].
Qed.

Lemma In_filter_lines (ls : list text) (x : text) :
  In x (Boundary.filter_lines ls) ->
  x = [] \/
  (In x ls /\ is_empty (strip x) = false
   /\ Boundary._BANNER_RE_match (strip x) = false).
Proof.
  induction ls as [|l r IH]; simpl; [intros []|].
  destruct (is_empty (strip l)) eqn:E1.
  - intros [<-|H]; [now left|]. destruct (IH H) as [->|(H1 & H2)]; auto.
  - destruct (Boundary._BANNER_RE_match (strip l)) eqn:E2.
    + intros H. destruct (IH H) as [->|(H1 & H2)]; auto.
    + destruct (text_eqb (strip l) Boundary.hash_rule).
      * intros H. destruct (IH H) as [->|(H1 & H2)]; auto.
      * intros [<-|H]; [right; auto|].
        destruct (IH H) as [->|(H1 & H2)]; auto.
Qed.

Lemma drop_leading_empty_head (ls : list text) (l : text) (r : list text) :
  Boundary.drop_leading_empty ls = l :: r -> l <> [].
Proof.
  induction ls as [|x ls IH]; simpl; [discriminate|].
  destruct x as [|c x]; simpl; [exact IH|].
  intros E; injection E as <- _. discriminate.
Qed.

(** X7.  Sanitized text holds no banner line: each of its lines is empty,
    or is a line of the input, unchanged, that is neither blank nor matched
    by a banner pattern; and sanitized text does not start with a line
    feed. *)
Theorem sanitized_lines (t : text) :
  (forall line,
      In line (splitlines (Boundary.filter_boundary_output t)) ->
      line = [] \/
      (In line (splitlines t) /\ is_empty (strip line) = false
       /\ Boundary._BANNER_RE_match (strip line) = false))
  /\ (forall r, Boundary.filter_boundary_output t <> LF :: r).
Proof.
  destruct (SanitizerFacts.filter_output_shape t) as (E & Hnb & Hk).
  set (D := Boundary.drop_leading_empty
              (Boundary.filter_lines (splitlines t))) in *.
  split.
  - intros line Hin. rewrite E in Hin.
    rewrite (SanitizerFacts.splitlines_join D Hnb) in Hin.
    apply In_drop_last_empty, In_drop_leading_empty in Hin.
    now apply In_filter_lines.
  - intros r Er. rewrite E in Er.
    destruct D as [|l rest] eqn:ED; [discriminate|].
    pose proof (drop_leading_empty_head _ _ _ ED) as Hl.
    destruct l as [|c l]; [contradiction|].
    inversion Hnb as [|? ? Hcl _]; subst.
    inversion Hcl as [|? ? Hc _]; subst.
    destruct rest as [|l2 rest]; simpl in Er; injection Er as -> _;
      discriminate.
Qed.

Lemma sanitized_lines_witness :
  T "(2 rows)" = []
  \/ (In (T "(2 rows)") (splitlines Samples.boundary_stdout)
      /\ is_empty (strip (T "(2 rows)")) = false
      /\ Boundary._BANNER_RE_match (strip (T "(2 rows)")) = false).
Proof.
  apply (proj1 (sanitized_lines Samples.boundary_stdout)).
  vm_compute. do 6 right. left. reflexivity.
Defined.

(** The value of digits is not negative. *)
Lemma dec_nonneg (t : text) : all_digits t = true -> 0 <= dec t.
Proof.
  unfold dec.
  assert (H : forall acc, 0 <= acc -> all_digits t = true ->
                          0 <= fold_left (fun a c => 10 * a + digit_val c) t acc).
  { induction t as [|c t IH]; intros acc Hacc Hd; [exact Hacc|].
    simpl in Hd. apply andb_true_iff in Hd as [Hc Ht].
    cbn [fold_left]. apply IH; [|exact Ht].
    assert (0 <= digit_val c).
    { unfold digit_val, is_digit in *.
      apply andb_true_iff in Hc as [Hc _]. apply N.leb_le in Hc. lia. }
    lia. }
  intros Hd. apply H; [lia|exact Hd].
Qed.

Lemma BOOT_RE_match_fields (line : text) (g : Nelmon.BootMatch) :
  Nelmon.BOOT_RE_match line = Some g ->
  all_digits (Nelmon.g_usep g) = true /\ Nelmon.g_mount g = T "/boot".
Proof.
  unfold Nelmon.BOOT_RE_match, sbind.
  destruct (nonspace1 line) as [[fs t1]|]; [|discriminate].
  destruct (space1 t1) as [[[] t2]|]; [|discriminate].
  destruct (nonspace1 t2) as [[sz t3]|]; [|discriminate].
  destruct (space1 t3) as [[[] t4]|]; [|discriminate].
  destruct (nonspace1 t4) as [[us t5]|]; [|discriminate].
  destruct (space1 t5) as [[[] t6]|]; [|discriminate].
  destruct (nonspace1 t6) as [[av t7]|]; [|discriminate].
  destruct (space1 t7) as [[[] t8]|]; [|discriminate].
  destruct (digits1 t8) as [[usep t9]|] eqn:Ed; [|discriminate].
  destruct (literal (T "%") t9) as [[pc t10]|]; [|discriminate].
  destruct (space1 t10) as [[[] t11]|]; [|discriminate].
  unfold literal.
  destruct (strip_prefix (T "/boot") t11) as [t12|]; [|discriminate].
  destruct (spaces_to_end t12); [|discriminate].
  intros E; injection E as <-. cbn [Nelmon.g_usep Nelmon.g_mount].
  split; [|reflexivity].
  exact (proj2 (K8sFacts.digits1_spec _ _ _ Ed)).
Qed.

(** The loop stops at the first line that the pattern matches. *)
Lemma boot_loop_spec (lines : list text) :
  (Nelmon.boot_loop lines = Ret None
   /\ forall l, In l lines -> Nelmon.BOOT_RE_match (strip l) = None)
  \/ exists before line after g,
       lines = before ++ line :: after
       /\ Nelmon.BOOT_RE_match (strip line) = Some g
       /\ (forall l, In l before -> Nelmon.BOOT_RE_match (strip l) = None)
       /\ Nelmon.boot_loop lines
          = (b <- Nelmon.boot_of_match g ;; Ret (Some b)).
Proof.
  induction lines as [|line rest IH]; cbn [Nelmon.boot_loop].
  - left. split; [reflexivity|intros l []].
  - destruct (Nelmon.BOOT_RE_match (strip line)) as [g|] eqn:E.
    + right. exists [], line, rest, g. repeat split; [exact E|intros l []].
    + destruct IH as [[Hn Hall]|(before & l0 & after & g & -> & Hm & Hb & Hl)].
      * left. split; [exact Hn|]. intros l [<-|Hl]; auto.
      * right. exists (line :: before), l0, after, g.
        repeat split; [exact Hm| |exact Hl].
        intros l [<-|Hin]; auto.
Qed.

(** X8.  [parse_boot_usage] looks at the first line of the output that the
    /boot pattern matches, and at no later one: it answers with the fields
    of that line, the mount /boot and a use-percent that is not negative,
    when [int] converts the use-percent; it raises the [ValueError] of [int]
    when the use-percent has more than 4300 digits; and it answers with the
    empty dictionary when no line matches (so on an empty output). *)
Theorem parse_boot_usage_first (df_output : text) :
  match Nelmon.parse_boot_usage df_output with
  | Ret None =>
    forall l, In l (splitlines df_output) ->
              Nelmon.BOOT_RE_match (strip l) = None
  | Ret (Some b) =>
    0 <= Nelmon.use_percent b /\ Nelmon.mount b = T "/boot"
    /\ exists before line after g,
         splitlines df_output = before ++ line :: after
         /\ Nelmon.BOOT_RE_match (strip line) = Some g
         /\ (forall l, In l before -> Nelmon.BOOT_RE_match (strip l) = None)
         /\ Z.of_nat (List.length (Nelmon.g_usep g)) <= int_max_str_digits
         /\ b = {| Nelmon.filesystem := Nelmon.g_fs g;
                   Nelmon.size := Nelmon.g_size g;
                   Nelmon.used := Nelmon.g_used g;
                   Nelmon.avail := Nelmon.g_avail g;
                   Nelmon.use_percent := dec (Nelmon.g_usep g);
                   Nelmon.mount := Nelmon.g_mount g |}
  | Raise e =>
    exists before line after g,
      splitlines df_output = before ++ line :: after
      /\ Nelmon.BOOT_RE_match (strip line) = Some g
      /\ (forall l, In l before -> Nelmon.BOOT_RE_match (strip l) = None)
      /\ int_max_str_digits < Z.of_nat (List.length (Nelmon.g_usep g))
      /\ e = int_limit_error (Z.of_nat (List.length (Nelmon.g_usep g)))
  end.
Proof.
  unfold Nelmon.parse_boot_usage.
  destruct (boot_loop_spec (splitlines df_output))
    as [[-> Hall]|(before & line & after & g & E & Hm & Hb & ->)];
    [exact Hall|].
  destruct (BOOT_RE_match_fields _ _ Hm) as [Hd Hmount].
  unfold Nelmon.boot_of_match.
  destruct (K8sFacts.int_of_digits_cases (Nelmon.g_usep g))
    as [[Hl ->]|[Hl ->]]; cbn [bind].
  - cbn [Nelmon.use_percent Nelmon.mount].
    split; [now apply dec_nonneg|]. split; [exact Hmount|].
    exists before, line, after, g. auto 8.
  - exists before, line, after, g. auto 8.
Qed.

Lemma parse_boot_usage_first_witness :
  exists b,
    Nelmon.parse_boot_usage Samples.df_output = Ret (Some b)
    /\ 0 <= Nelmon.use_percent b /\ Nelmon.mount b = T "/boot".
Proof.
  pose proof (parse_boot_usage_first Samples.df_output) as H.
  destruct (Nelmon.parse_boot_usage Samples.df_output) as [[b|]|e] eqn:E;
    [|vm_compute in E; discriminate E|vm_compute in E; discriminate E].
  exists b. split; [reflexivity|].
  split; [exact (proj1 H)|exact (proj1 (proj2 H))].
Defined.

Lemma row_of_line_fields (ln : text) (r : Boundary.Row) :
  Boundary.row_of_line ln = Some r ->
  (Boundary.jobid r <> [] /\ strip (Boundary.jobid r) = Boundary.jobid r)
  /\ (Boundary.maxvalue r <> []
      /\ strip (Boundary.maxvalue r) = Boundary.maxvalue r)
  /\ (Boundary.region_id r <> []
      /\ strip (Boundary.region_id r) = Boundary.region_id r).
Proof.
  unfold Boundary.row_of_line, Boundary.split_row.
  destruct (is_empty (strip ln)); [discriminate|].
  destruct (negb _); [discriminate|].
  destruct (split_char "|"%char ln) as [|a [|b [|c ps]]]; cbn [map];
    try discriminate.
  destruct (is_empty (strip a)) eqn:Ea; [discriminate|].
  destruct (is_empty (strip b)) eqn:Eb; [discriminate|].
  destruct (is_empty (strip c)) eqn:Ec; [discriminate|].
  cbn [orb]. intros E; injection E as <-.
  cbn [Boundary.jobid Boundary.maxvalue Boundary.region_id].
  rewrite !strip_idem.
  repeat split; intros H; rewrite H in *; discriminate.
Qed.

(** X9.  Every row of [parse_psql_table] has its three fields trimmed and
    not empty. *)
Theorem table_rows_trimmed (t : text) (r : Boundary.Row) :
  In r (Boundary.parse_psql_table t) ->
  (Boundary.jobid r <> [] /\ strip (Boundary.jobid r) = Boundary.jobid r)
  /\ (Boundary.maxvalue r <> []
      /\ strip (Boundary.maxvalue r) = Boundary.maxvalue r)
  /\ (Boundary.region_id r <> []
      /\ strip (Boundary.region_id r) = Boundary.region_id r).
Proof.
  unfold Boundary.parse_psql_table.
  destruct (Boundary.find_header _ _ _) as [[h|] [sep|]]; try (intros []).
  rewrite TableFacts.rows_loop_spec_lines. cbn [app]. intros Hin.
  apply AgeFacts.filter_map_In in Hin as (ln & _ & Hln).
  exact (row_of_line_fields ln r Hln).
Qed.

Lemma table_rows_trimmed_witness :
  Boundary.maxvalue Samples.row_b <> []
  /\ strip (Boundary.maxvalue Samples.row_b) = Boundary.maxvalue Samples.row_b.
Proof.
  apply (table_rows_trimmed Samples.table_with_gap Samples.row_b).
  vm_compute. auto.
Defined.

End TextMore.

(* ------------------------------------------------------------------ *)
(** ** The artifact of the pod check, written and read back *)

Module ArtifactFacts.
Import Py Model K8s More.

Lemma search_stdout_cons (c : ascii) (t : text) :
  search_stdout (c :: t) =
  match
    match strip_prefix marker (c :: t) with
    | Some rest => space_then_group rest
    | None => None
    end
  with
  | Some g => Some g
  | None => search_stdout t
  end.
Proof. reflexivity. Qed.

Lemma no_dashes_no_marker (t : text) :
  startswith dashes t = false -> strip_prefix marker t = None.
Proof.
  destruct t as [|a [|b [|c t]]]; try reflexivity;
    unfold dashes, marker; cbn [T list_ascii_of_string startswith strip_prefix].
  - destruct (Ascii.eqb "-" a); reflexivity.
  - destruct (Ascii.eqb "-" a); [|reflexivity].
    destruct (Ascii.eqb "-" b); reflexivity.
  - destruct (Ascii.eqb "-" a); [|reflexivity].
    destruct (Ascii.eqb "-" b); [|reflexivity].
    destruct (Ascii.eqb "-" c); [discriminate|reflexivity].
Qed.

(** Three dashes do not start in a text that ends in a line feed and
    continue after it. *)
Lemma startswith_dashes_app (b x : text) :
  startswith dashes (b ++ [LF]) = false ->
  startswith dashes ((b ++ [LF]) ++ x) = false.
Proof.
  unfold dashes. cbn [T list_ascii_of_string].
  destruct b as [|a [|b' [|c b'']]]; cbn [app startswith]; intros H.
  - reflexivity.
  - destruct (Ascii.eqb "-" a); reflexivity.
  - destruct (Ascii.eqb "-" a); [|reflexivity].
    destruct (Ascii.eqb "-" b'); reflexivity.
  - exact H.
Qed.

Lemma contains_cons (p : text) (c : ascii) (t : text) :
  contains p (c :: t) = false ->
  startswith p (c :: t) = false /\ contains p t = false.
Proof. cbn [contains]. intros H. now apply orb_false_iff in H. Qed.

(** The search for the stdout marker passes a head without three dashes. *)
Lemma search_stdout_skip (h x : text) :
  contains dashes (h ++ [LF]) = false ->
  search_stdout ((h ++ [LF]) ++ x) = search_stdout x.
Proof.
  induction h as [|c h IH]; intros H.
  - cbn [app]. rewrite search_stdout_cons.
    now rewrite (no_dashes_no_marker (LF :: x)) by reflexivity.
  - change ((c :: h) ++ [LF]) with (c :: (h ++ [LF])) in *.
    apply contains_cons in H as [Hs Hc].
    change ((c :: h ++ [LF]) ++ x) with (c :: ((h ++ [LF]) ++ x)).
    rewrite search_stdout_cons.
    rewrite no_dashes_no_marker; [now apply IH|].
    exact (startswith_dashes_app (c :: h) x Hs).
Qed.

Lemma startswith_app (p x : text) : startswith p (p ++ x) = true.
Proof.
  induction p as [|c p IH]; [reflexivity|].
  cbn [app startswith]. now rewrite Ascii.eqb_refl.
Qed.

Lemma strip_prefix_app (p x : text) : strip_prefix p (p ++ x) = Some x.
Proof.
  induction p as [|c p IH]; [reflexivity|].
  cbn [app strip_prefix]. now rewrite Ascii.eqb_refl.
Qed.

(** The shortest group ends at the stderr marker that follows an output
    without a line that starts with a dash. *)
Lemma lazy_group_output (s tail : text) :
  contains feed_dash s = false ->
  lazy_group (s ++ stderr_mark ++ tail) = Some s.
Proof.
  induction s as [|c s IH]; intros H.
  - cbn [app]. destruct (stderr_mark ++ tail) eqn:E; cbn [lazy_group];
      rewrite <- E, startswith_app; reflexivity.
  - apply contains_cons in H as [Hs Hc].
    change ((c :: s) ++ stderr_mark ++ tail)
      with (c :: (s ++ stderr_mark ++ tail)).
    cbn [lazy_group].
    replace (startswith stderr_mark (c :: s ++ stderr_mark ++ tail))
      with false; [now rewrite (IH Hc)|].
    symmetry. unfold stderr_mark, feed_dash in *.
    cbn [T list_ascii_of_string app startswith] in *.
    destruct (Ascii.eqb LF c); [|reflexivity]. cbn [andb] in *.
    destruct s as [|d s]; cbn [app]; [reflexivity|].
    destruct (Ascii.eqb "-" d); [discriminate|reflexivity].
Qed.

Lemma raw_content_parts (ts : datetime) (host user namespace stdout stderr : text)
    (exit_code : Z) (exc : text) :
  stdout <> [] ->
  exists h tail,
    k8s_head ts host user namespace exit_code exc = h ++ [LF]
    /\ raw_content ts host user namespace stdout stderr exit_code exc =
       (h ++ [LF]) ++ marker ++ [LF] ++ stdout ++ stderr_mark ++ tail.
Proof.
  intros Hs. unfold k8s_head, raw_content, marker, stderr_mark.
  destruct stdout as [|c0 s0]; [contradiction|]. cbn [is_empty].
  eexists (T "Host: " ++ host ++ [LF] ++ T "User: " ++ user ++ [LF]
           ++ T "TimestampLocal: " ++ isoformat "T" ts ++ [LF]
           ++ T "Namespace: " ++ namespace ++ [LF]
           ++ T "ExitCode: " ++ str_of_Z exit_code ++ [LF]
           ++ (if is_empty exc then [] else T "Exception: " ++ exc ++ [LF])).
  eexists. split.
  - now rewrite <- !app_assoc.
  - rewrite <- !app_assoc. reflexivity.
Qed.

Lemma extract_stdout_written (ts : datetime)
    (host user namespace stderr : text) (exit_code : Z) (exc : text)
    (c : ascii) (s : text) :
  contains dashes (k8s_head ts host user namespace exit_code exc) = false ->
  is_space c = false ->
  contains feed_dash (c :: s) = false ->
  extract_stdout
    (raw_content ts host user namespace (c :: s) stderr exit_code exc)
  = c :: s.
Proof.
  intros Hh Hc Hs.
  destruct (raw_content_parts ts host user namespace (c :: s) stderr
              exit_code exc) as (h & tail & Eh & Er); [discriminate|].
  unfold extract_stdout. rewrite Er, Eh in *.
  rewrite search_stdout_skip by exact Hh.
  destruct marker as [|m0 mk] eqn:Em; [discriminate|].
  change ((m0 :: mk) ++ [LF] ++ (c :: s) ++ stderr_mark ++ tail)
    with (m0 :: (mk ++ [LF] ++ (c :: s) ++ stderr_mark ++ tail)).
  rewrite search_stdout_cons.
  change (m0 :: (mk ++ [LF] ++ (c :: s) ++ stderr_mark ++ tail))
    with ((m0 :: mk) ++ [LF] ++ (c :: s) ++ stderr_mark ++ tail).
  rewrite <- Em, strip_prefix_app.
  change ([LF] ++ (c :: s) ++ stderr_mark ++ tail)
    with (LF :: c :: (s ++ stderr_mark ++ tail)).
  cbn [space_then_group]. rewrite Hc.
  change (is_space LF) with true. cbv iota.
  rewrite Ascii.eqb_refl.
  change (c :: s ++ stderr_mark ++ tail)
    with ((c :: s) ++ stderr_mark ++ tail).
  now rewrite (lazy_group_output (c :: s) tail Hs).
Qed.

(** A text without carriage return is read back from its file as it was
    written, whether the platform writes LF or CR LF. *)
Lemma read_back_no_CR (linesep t : text) :
  linesep = [LF] \/ linesep = [CR; LF] ->
  existsb (Ascii.eqb CR) t = false ->
  read_back linesep t = t.
Proof.
  intros Hsep. unfold read_back. induction t as [|c t IH]; [reflexivity|].
  cbn [existsb]. intros H. apply orb_false_iff in H as [Hc Ht].
  assert (Hc' : Ascii.eqb c CR = false) by (rewrite Ascii.eqb_sym; exact Hc).
  cbn [write_newlines flat_map].
  change (flat_map (fun c0 => if Ascii.eqb c0 LF then linesep else [c0]) t)
    with (write_newlines linesep t).
  destruct (Ascii.eqb c LF) eqn:El.
  - apply Ascii.eqb_eq in El. subst c.
    destruct Hsep as [-> | ->].
    + change ([LF] ++ write_newlines [LF] t)
        with (LF :: write_newlines [LF] t).
      cbn [universal_newlines].
      change (Ascii.eqb LF CR) with false. cbv iota.
      now rewrite (IH Ht).
    + change ([CR; LF] ++ write_newlines [CR; LF] t)
        with (CR :: LF :: write_newlines [CR; LF] t).
      cbn [universal_newlines].
      rewrite !Ascii.eqb_refl. now rewrite (IH Ht).
  - change ([c] ++ write_newlines linesep t)
      with (c :: write_newlines linesep t).
    cbn [universal_newlines]. rewrite Hc'. now rewrite (IH Ht).
Qed.

(** X11.  The artifact of the pod check survives its file: when it holds no
    carriage return, what [analyze_raw] reads back is what [write_raw_file]
    wrote, whether the platform writes LF or CR LF; [extract_stdout] finds
    in it the output that was written, when the head of the artifact (host,
    user, namespace, exit code, exception) holds no three dashes in a row
    and the output starts with a character that is not white space and has
    no line that starts with a dash; and [analyze_raw] answers, or raises,
    as its loop does on the lines of that output. *)
Theorem artifact_round_trip (linesep : text) (ts : datetime)
    (host user namespace stderr : text) (exit_code : Z) (exc : text)
    (c : ascii) (s : text) :
  linesep = [LF] \/ linesep = [CR; LF] ->
  existsb (Ascii.eqb CR)
    (raw_content ts host user namespace (c :: s) stderr exit_code exc)
  = false ->
  contains dashes (k8s_head ts host user namespace exit_code exc) = false ->
  is_space c = false ->
  contains feed_dash (c :: s) = false ->
  read_back linesep
    (raw_content ts host user namespace (c :: s) stderr exit_code exc)
  = raw_content ts host user namespace (c :: s) stderr exit_code exc
  /\ extract_stdout
       (read_back linesep
          (raw_content ts host user namespace (c :: s) stderr exit_code exc))
     = c :: s
  /\ analyze
       (read_back linesep
          (raw_content ts host user namespace (c :: s) stderr exit_code exc))
     = (rows <- rows_loop (splitlines (c :: s)) [] ;; Ret (analysis_of rows)).
Proof.
  intros Hsep Hcr Hh Hc Hs.
  rewrite (read_back_no_CR linesep _ Hsep Hcr).
  pose proof (extract_stdout_written ts host user namespace stderr exit_code
                exc c s Hh Hc Hs) as E.
  split; [reflexivity|]. split; [exact E|].
  unfold analyze. now rewrite E.
Qed.

(** X12.  An empty output is never a healthy cluster: the artifact holds the
    placeholder "(vacio)" (with its accent) in its place, [analyze_raw]
    finds no pod in it, and [compute_status] is FAIL. *)
Theorem artifact_of_empty_output (ts : datetime)
    (host user namespace stderr : text) (exit_code : Z) (exc : text) :
  contains dashes (k8s_head ts host user namespace exit_code exc) = false ->
  extract_stdout
    (raw_content ts host user namespace [] stderr exit_code exc)
  = vacio ++ [LF]
  /\ exists a,
       analyze (raw_content ts host user namespace [] stderr exit_code exc)
       = Ret a
       /\ rows a = []
       /\ pods_total a = 0
       /\ compute_status a = FAIL.
Proof.
  intros Hh.
  assert (E : extract_stdout
                (raw_content ts host user namespace [] stderr exit_code exc)
              = vacio ++ [LF]).
  { change (raw_content ts host user namespace [] stderr exit_code exc)
      with (raw_content ts host user namespace (vacio ++ [LF]) stderr
              exit_code exc).
    apply (extract_stdout_written ts host user namespace stderr exit_code exc
             "("%char); [exact Hh|reflexivity|reflexivity]. }
  split; [exact E|].
  unfold analyze. rewrite E.
  eexists. split; [vm_compute; reflexivity|]. repeat split.
Qed.

Lemma artifact_round_trip_witness :
  extract_stdout
    (read_back [CR; LF]
       (raw_content Samples.t0 (T "10.0.0.1") (T "root") (T "dis-nci")
          (T "Mon Jan  1 00:00:00 UTC 2024" ++ [LF] ++ Samples.pods_crashing)
          [] 0 []))
  = T "Mon Jan  1 00:00:00 UTC 2024" ++ [LF] ++ Samples.pods_crashing.
Proof.
  exact (proj1 (proj2
           (artifact_round_trip [CR; LF] Samples.t0 (T "10.0.0.1") (T "root")
              (T "dis-nci") [] 0 [] "M"%char
              (T "on Jan  1 00:00:00 UTC 2024" ++ [LF]
               ++ Samples.pods_crashing)
              (or_intror eq_refl) eq_refl eq_refl eq_refl eq_refl))).
Defined.

Lemma artifact_of_empty_output_witness :
  exists a,
    analyze (raw_content Samples.t0 (T "10.0.0.1") (T "root") (T "dis-nci")
               [] [] 0 []) = Ret a
    /\ compute_status a = FAIL.
Proof.
  destruct (artifact_of_empty_output Samples.t0 (T "10.0.0.1") (T "root")
              (T "dis-nci") [] 0 [] eq_refl) as (_ & a & Ha & _ & _ & Hs).
  exists a. split; [exact Ha|exact Hs].
Defined.

End ArtifactFacts.

(* ------------------------------------------------------------------ *)
(** ** The check runners: statuses, sentinels and messages *)

Module RunMore.
Import Py Model More.

Lemma filter_map_none {A B} (f : A -> option B) (l : list A) :
  (forall a, In a l -> f a = None) -> Boundary.filter_map f l = [].
Proof.
  induction l as [|a l IH]; intros H; [reflexivity|].
  simpl. rewrite (H a) by now left. apply IH. intros x Hx. apply H. now right.
Qed.

(** X13.  When the boundary command exits with code 0 and the artifact is
    written, but no parsed row carries a parseable maxvalue (so when the
    table has no row), the boundary check is WARN, not FAIL: its age metric
    is [None] and its details keep every parsed row. *)
Theorem boundary_without_age (strptime : text -> option datetime)
    (E : Boundary.Env) (cfg : ssh_cfg) (dirs : output_dirs)
    (raw_dir h u kp out err : text) :
  raw dirs = Some raw_dir -> host cfg = Some h -> user cfg = Some u ->
  key_path cfg = Some kp ->
  Boundary.exec_phase E h (get_default (port cfg) 22) u kp
    (get_default (jump_target cfg) (T "ciap01")) = Ret (out, err, 0) ->
  (forall content,
     Boundary.write_text E
       (Boundary.path_join E raw_dir (T "boundary_latest.txt")) content
     = Ret tt) ->
  (forall r, In r (Boundary.parse_psql_table (Boundary.filter_boundary_output out)) ->
             Boundary.row_time strptime r = None) ->
  exists res,
    Boundary.run strptime E cfg dirs = Ret res
    /\ status res = WARN
    /\ metrics res = [(T "newest_age_minutes", VNone)]
    /\ dict_get (details res) (T "rows")
       = Some (VList (map Boundary.row_value
                        (Boundary.parse_psql_table
                           (Boundary.filter_boundary_output out))))
    /\ error_of res = None.
Proof.
  intros Hraw Hhost Huser Hkey Hexec Hwrite Hnone.
  unfold Boundary.run. rewrite Hraw, Hhost, Huser, Hkey. cbn [item bind].
  unfold finally_swallow. rewrite Hexec. unfold Boundary.after_exec.
  rewrite Hwrite. cbn [bind Z.eqb negb].
  unfold Boundary.extract_newest_maxvalue.
  rewrite AgeFacts.parsed_loop_spec, (filter_map_none _ _ Hnone).
  cbn [app try_except]. eexists. split; [reflexivity|].
  repeat split.
Qed.

Lemma boundary_without_age_witness :
  exists res,
    Boundary.run strptime_fixed
      (Samples.boundary_up MoreSamples.boundary_empty_table 0)
      Samples.server_1 Main.main_output_dirs = Ret res
    /\ status res = WARN
    /\ metrics res = [(T "newest_age_minutes", VNone)].
Proof.
  destruct (boundary_without_age strptime_fixed
              (Samples.boundary_up MoreSamples.boundary_empty_table 0)
              Samples.server_1 Main.main_output_dirs
              (T "output/raw") (T "10.0.0.1") (T "root") (T "id_rsa")
              MoreSamples.boundary_empty_table [])
    as (res & Hrun & Hs & Hm & _); try reflexivity.
  - intros r Hr. vm_compute in Hr. contradiction.
  - exists res. auto.
Defined.

(** X14.  Whatever the world and the configuration, a result of the three
    [run] entry points has one of the statuses OK, WARN and FAIL, and a
    result of the pod check is never WARN. *)
Theorem run_status_vocabulary :
  (forall strptime E cfg dirs res,
      Boundary.run strptime E cfg dirs = Ret res -> known_status (status res))
  /\ (forall E cfg dirs res,
         Nelmon.run E cfg dirs = Ret res -> known_status (status res))
  /\ (forall E cfg kcfg dirs res,
         K8s.run E cfg kcfg dirs = Ret res ->
         status res = OK \/ status res = FAIL).
Proof.
  unfold known_status. split; [|split].
  - intros strptime E cfg dirs res. unfold Boundary.run.
    destruct (raw dirs); [|discriminate].
    destruct (host cfg); [|discriminate].
    destruct (user cfg); [|discriminate].
    destruct (key_path cfg); [|discriminate].
    cbn [item bind]. unfold finally_swallow.
    destruct (Boundary.exec_phase _ _ _ _ _ _) as [[[out err] code]|e].
    + unfold Boundary.after_exec.
      destruct (Boundary.write_text E _ _) as [[]|e]; cbn [bind try_except].
      * destruct (negb (code =? 0)).
        -- intros H; injection H as <-. auto.
        -- destruct (Boundary.extract_newest_maxvalue _ _).
           ++ destruct (Qle_bool _ _); intros H; injection H as <-; auto.
           ++ intros H; injection H as <-. auto.
      * intros H; injection H as <-. auto.
    + intros H; injection H as <-. auto.
  - intros E cfg dirs res. unfold Nelmon.run.
    destruct (raw dirs); [|discriminate].
    destruct (host cfg) as [h|] eqn:Eh; [|discriminate].
    cbn [item bind].
    destruct (Nelmon.call_ssh_run E cfg) as [[[out err] code]|e].
    + unfold Nelmon.after_exec. rewrite Eh. cbn [item bind].
      destruct (Nelmon.write_raw_file _ _ _ _ _ _ _) as [[]|e];
        cbn [bind try_except].
      * destruct (Nelmon.parse_boot_usage out) as [[b|]|e];
          cbn [bind try_except].
        -- destruct (float_of_int (Nelmon.use_percent b)) as [q|e];
             cbn [bind try_except]; intros H; injection H as <-; [|auto].
           cbn [status]. unfold Nelmon.compute_status.
           destruct (_ >=? 100); [auto|]. destruct (_ >=? 90); auto.
        -- intros H; injection H as <-. auto.
        -- intros H; injection H as <-. auto.
      * intros H; injection H as <-. auto.
    + intros H; injection H as <-. auto.
  - intros E cfg kcfg dirs res. unfold K8s.run.
    destruct (raw dirs); [|discriminate].
    destruct (K8s.namespace kcfg) as [ns|] eqn:En; [|discriminate].
    destruct (K8s.grep_patterns kcfg); [|discriminate].
    cbn [item bind].
    destruct (K8s.call_ssh_run E cfg _) as [[[out err] code]|e].
    + unfold K8s.after_exec. rewrite En.
      destruct (host cfg); cbn [item bind try_except];
        [|intros H; injection H as <-; auto].
      destruct (user cfg); cbn [item bind try_except];
        [|intros H; injection H as <-; auto].
      destruct (K8s.write_raw_file _ _ _ _ _ _ _ _ _ _ _) as [[]|e];
        cbn [bind try_except]; [|intros H; injection H as <-; auto].
      destruct (K8s.analyze_raw E _) as [a|e]; cbn [bind try_except];
        [|intros H; injection H as <-; auto].
      intros H; injection H as <-. cbn [status].
      unfold K8s.compute_status.
      destruct (_ =? 0); [auto|]. destruct (_ || _); auto.
    + intros H; injection H as <-. auto.
Qed.

Lemma run_status_vocabulary_witness :
  exists res,
    Nelmon.run Samples.nelmon_down Samples.server_1 Main.main_output_dirs
    = Ret res
    /\ known_status (status res).
Proof.
  eexists. split; [reflexivity|].
  exact (proj1 (proj2 run_status_vocabulary) Samples.nelmon_down
           Samples.server_1 Main.main_output_dirs _ eq_refl).
Defined.

Lemma retry_two_failures (body : Z -> outcome RemoteExec) (check : text)
    (e1 e2 : exn) :
  body 1 = Raise e1 -> body 2 = Raise e2 ->
  fst (Retry.retry body check 2)
  = Raise (Exn ERuntime (T "SSH " ++ check ++ T " fall" ++ [o_acute]
                         ++ T " tras 2 intentos: " ++ exn_msg e2)).
Proof.
  intros H1 H2. unfold Retry.retry.
  change (Z.to_nat 2) with 2%nat. cbn [Retry.attempts].
  rewrite H1. change (1 + 1) with 2. rewrite H2. reflexivity.
Qed.

(** X15.  When both attempts of the nelmon check or of the pod check fail,
    [run] answers FAIL with the failure of the runner as its error, which
    names the error of the second attempt, with no metric and with the
    sentinel 255 for the exit code. *)
Theorem run_after_exhaustion :
  (forall E cfg dirs raw_dir h p u pw e1 e2,
      raw dirs = Some raw_dir -> host cfg = Some h -> port cfg = Some p ->
      user cfg = Some u -> password cfg = Some pw ->
      Nelmon.attempt_body E h p u pw (T "uptime ; df -h") 10 20 60 1 = Raise e1 ->
      Nelmon.attempt_body E h p u pw (T "uptime ; df -h") 10 20 60 2 = Raise e2 ->
      exists res,
        Nelmon.run E cfg dirs = Ret res /\ status res = FAIL
        /\ metrics res = []
        /\ error_of res
           = Some (VStr (T "SSH nelmon_check fall" ++ [o_acute]
                         ++ T " tras 2 intentos: " ++ exn_msg e2))
        /\ dict_get (details res) (T "raw_exit_code") = Some (VInt 255))
  /\
  (forall E cfg kcfg dirs raw_dir ns pats h p u kp e1 e2,
      raw dirs = Some raw_dir -> K8s.namespace kcfg = Some ns ->
      K8s.grep_patterns kcfg = Some pats ->
      host cfg = Some h -> port cfg = Some p ->
      user cfg = Some u -> key_path cfg = Some kp ->
      K8s.attempt_body E h p u kp (K8s.build_remote_block ns pats) 10 20 60 1
      = Raise e1 ->
      K8s.attempt_body E h p u kp (K8s.build_remote_block ns pats) 10 20 60 2
      = Raise e2 ->
      exists res,
        K8s.run E cfg kcfg dirs = Ret res /\ status res = FAIL
        /\ metrics res = []
        /\ error_of res
           = Some (VStr (T "SSH k8s_dis_nci fall" ++ [o_acute]
                         ++ T " tras 2 intentos: " ++ exn_msg e2))
        /\ dict_get (details res) (T "raw_exit_code") = Some (VInt 255)).
Proof.
  split.
  - intros E cfg dirs raw_dir h p u pw e1 e2 Hraw Hh Hp Hu Hpw H1 H2.
    unfold Nelmon.run, Nelmon.call_ssh_run, Nelmon.ssh_run.
    rewrite Hraw, Hh, Hp, Hu, Hpw. cbn [item bind].
    rewrite (retry_two_failures _ _ e1 e2 H1 H2).
    eexists. split; [reflexivity|]. repeat split.
  - intros E cfg kcfg dirs raw_dir ns pats h p u kp e1 e2
      Hraw Hns Hpats Hh Hp Hu Hkp H1 H2.
    unfold K8s.run, K8s.call_ssh_run, K8s.ssh_run_sudo_block.
    rewrite Hraw, Hns, Hpats, Hh, Hp, Hu, Hkp. cbn [item bind].
    rewrite (retry_two_failures _ _ e1 e2 H1 H2).
    eexists. split; [reflexivity|]. repeat split.
Qed.

Lemma run_after_exhaustion_witness :
  exists res,
    Nelmon.run Samples.nelmon_down Samples.server_1 Main.main_output_dirs
    = Ret res
    /\ status res = FAIL
    /\ dict_get (details res) (T "raw_exit_code") = Some (VInt 255).
Proof.
  destruct (proj1 run_after_exhaustion Samples.nelmon_down Samples.server_1
              Main.main_output_dirs (T "output/raw") (T "10.0.0.1") 22
              (T "root") (T "secret") (Samples.refused 1) (Samples.refused 2))
    as (res & Hrun & Hs & _ & _ & Hc); try reflexivity.
  exists res. auto.
Defined.

(** X16.  When no key class loads the key file, the boundary check connects
    to nothing and answers FAIL: its error is that of [load_private_key],
    which names the error of the last class, its exit code is the sentinel
    255, and its raw file is the path that [pathlib] makes of the raw
    directory and boundary_latest.txt. *)
Theorem boundary_without_key (strptime : text -> option datetime)
    (E : Boundary.Env) (cfg : ssh_cfg) (dirs : output_dirs)
    (raw_dir h u kp : text) (e1 e2 e3 : exn) :
  raw dirs = Some raw_dir -> host cfg = Some h -> user cfg = Some u ->
  key_path cfg = Some kp ->
  Boundary.from_private_key_file E RSAKey kp = Raise e1 ->
  Boundary.from_private_key_file E Ed25519Key kp = Raise e2 ->
  Boundary.from_private_key_file E ECDSAKey kp = Raise e3 ->
  Boundary.run strptime E cfg dirs =
  Ret {| name := None; status := FAIL; metrics := [];
         details :=
           [(T "error",
             VStr (T "No pude cargar la private key: " ++ exn_msg e3));
            (T "raw_exit_code", VInt 255)];
         raw_file :=
           Some (Boundary.path_join E raw_dir (T "boundary_latest.txt")) |}.
Proof.
  intros Hraw Hh Hu Hkp H1 H2 H3.
  unfold Boundary.run, Boundary.exec_phase, load_private_key.
  rewrite Hraw, Hh, Hu, Hkp. cbn [item bind load_loop].
  rewrite H1, H2, H3. reflexivity.
Qed.

Lemma boundary_without_key_witness :
  exists res,
    Boundary.run strptime_fixed MoreSamples.boundary_no_key Samples.server_1
      Main.main_output_dirs = Ret res
    /\ error_of res
       = Some (VStr (T "No pude cargar la private key: not a valid EC private key file")).
Proof.
  eexists. split.
  - apply (boundary_without_key strptime_fixed MoreSamples.boundary_no_key
             Samples.server_1 Main.main_output_dirs (T "output/raw")
             (T "10.0.0.1") (T "root") (T "id_rsa")
             (MoreSamples.bad_key RSAKey) (MoreSamples.bad_key Ed25519Key)
             (MoreSamples.bad_key ECDSAKey)); reflexivity.
  - reflexivity.
Defined.

(** X17.  A disk check whose first attempt fails and whose second answers
    is judged by that answer alone, and the failure of the first attempt
    leaves no trace in the result; the exit code of the command is kept
    under ["raw_exit_code"] and the raw file is the path that [pathlib]
    makes of the raw directory and the file name.  When the directory is
    made and the artifact written: the status is that of the first /boot
    line of the output, with its use-percent as metric; an answer without
    /boot line is FAIL with the metric -1; and a use-percent that [int] or
    [float] refuse is FAIL without metrics, with the description of the
    exception as error.  When the artifact cannot be written the result is
    FAIL with that exception as error. *)
Theorem nelmon_second_attempt (E : Nelmon.Env) (cfg : ssh_cfg)
    (dirs : output_dirs) (raw_dir h u pw out err : text) (p code : Z)
    (e1 : exn) :
  raw dirs = Some raw_dir -> host cfg = Some h -> port cfg = Some p ->
  user cfg = Some u -> password cfg = Some pw ->
  Nelmon.attempt_body E h p u pw (T "uptime ; df -h") 10 20 60 1 = Raise e1 ->
  Nelmon.attempt_body E h p u pw (T "uptime ; df -h") 10 20 60 2
  = Ret (out, err, code) ->
  exists res,
    Nelmon.run E cfg dirs = Ret res
    /\ dict_get (details res) (T "raw_exit_code") = Some (VInt code)
    /\ raw_file res
       = Some (Nelmon.path_join E raw_dir
                 (T "nelmon_" ++ h ++ T "_latest.txt"))
    /\ match
         Nelmon.write_raw_file E (Nelmon.now E AtArtifact)
           (Nelmon.path_join E raw_dir (T "nelmon_" ++ h ++ T "_latest.txt"))
           (Nelmon.path_parent E
              (Nelmon.path_join E raw_dir
                 (T "nelmon_" ++ h ++ T "_latest.txt")))
           h out err
       with
       | Raise e =>
         status res = FAIL /\ metrics res = []
         /\ error_of res = Some (VStr (exn_msg e))
       | Ret _ =>
         status res = Nelmon.boot_status out
         /\ match Nelmon.parse_boot_usage out with
            | Ret (Some boot) =>
              match float_of_int (Nelmon.use_percent boot) with
              | Ret percent =>
                metrics res = [(T "boot_use_percent", VNum percent)]
                /\ error_of res = None
              | Raise e =>
                metrics res = []
                /\ error_of res = Some (VStr (exn_msg e))
              end
            | Ret None =>
              metrics res = [(T "boot_use_percent", VNum (-1))]
              /\ error_of res
                 = Some (VStr (T "No se encontr" ++ [o_acute]
                               ++ T " /boot en df -h"))
            | Raise e =>
              metrics res = []
              /\ error_of res = Some (VStr (exn_msg e))
            end
       end.
Proof.
  intros Hraw Hh Hp Hu Hpw H1 H2.
  unfold Nelmon.run, Nelmon.call_ssh_run, Nelmon.ssh_run.
  rewrite Hraw, Hh, Hp, Hu, Hpw. cbn [item bind].
  unfold Retry.retry. change (Z.to_nat 2) with 2%nat. cbn [Retry.attempts].
  rewrite H1. change (1 + 1) with 2. rewrite H2. cbn [fst].
  unfold Nelmon.after_exec, Nelmon.boot_status.
  rewrite Hh. cbn [item bind].
  destruct (Nelmon.write_raw_file E _ _ _ _ _ _) as [[]|e];
    cbn [bind try_except].
  - destruct (Nelmon.parse_boot_usage out) as [[boot|]|e];
      cbn [bind try_except].
    + destruct (float_of_int (Nelmon.use_percent boot)) as [q|e];
        cbn [bind try_except]; eexists; (split; [reflexivity|]);
        repeat split.
    + eexists. split; [reflexivity|]. repeat split.
    + eexists. split; [reflexivity|]. repeat split.
  - eexists. split; [reflexivity|]. repeat split.
Qed.

Lemma nelmon_second_attempt_witness :
  exists res,
    Nelmon.run (MoreSamples.nelmon_flaky Samples.df_output) Samples.server_1
      Main.main_output_dirs = Ret res
    /\ dict_get (details res) (T "raw_exit_code") = Some (VInt 0)
    /\ raw_file res = Some (T "output/raw/nelmon_10.0.0.1_latest.txt")
    /\ status res = Nelmon.boot_status Samples.df_output.
Proof.
  destruct (nelmon_second_attempt (MoreSamples.nelmon_flaky Samples.df_output)
              Samples.server_1 Main.main_output_dirs (T "output/raw")
              (T "10.0.0.1") (T "root") (T "secret") Samples.df_output []
              22 0 (Samples.refused 1)
              eq_refl eq_refl eq_refl eq_refl eq_refl eq_refl eq_refl)
    as (res & Hrun & Hcode & Hfile & Hst).
  exists res. split; [exact Hrun|]. split; [exact Hcode|].
  split; [exact Hfile|exact (proj1 Hst)].
Defined.

End RunMore.

(* ------------------------------------------------------------------ *)
(** ** main.py: what the aggregator records *)

Module MainMore.
Import Py Model Main.

Lemma map_Forall2 {A B C} (f : A -> C) (g : B -> C) (l : list A) (l' : list B) :
  Forall2 (fun a b => g b = f a) l l' -> map g l' = map f l.
Proof. induction 1; simpl; congruence. Qed.

Lemma Forall2_and {A B} (P Q : A -> B -> Prop) (l : list A) (l' : list B) :
  Forall2 (fun a b => P a b /\ Q a b) l l' -> Forall2 P l l' /\ Forall2 Q l l'.
Proof. induction 1 as [|a b l l' [HP HQ] _ [IH1 IH2]]; split; auto. Qed.

Section Runs.

Variable run_k8s_dis_nci :
  text -> ssh_cfg -> K8s.k8s_cfg -> output_dirs -> outcome CheckResult.
Variable run_nelmon_check : text -> ssh_cfg -> output_dirs -> outcome CheckResult.
Variable run_boundary : text -> ssh_cfg -> output_dirs -> outcome CheckResult.
Variable setup : outcome unit.
Variable elapsed : text -> Q.
Variable snapshot_time : datetime.
Variable write_snapshot : Snapshot -> outcome unit.
Variable SERVERS : list (text * ssh_cfg).

Local Abbreviation dispatch :=
  (Main.dispatch run_k8s_dis_nci run_nelmon_check run_boundary).
Local Abbreviation step :=
  (Main.step run_k8s_dis_nci run_nelmon_check run_boundary elapsed SERVERS).
Local Abbreviation loop :=
  (Main.loop run_k8s_dis_nci run_nelmon_check run_boundary elapsed SERVERS).
Local Abbreviation main :=
  (Main.main run_k8s_dis_nci run_nelmon_check run_boundary setup elapsed
     snapshot_time write_snapshot SERVERS).

(** One more check is one more result, that of the check; a FAIL is not
    taken back. *)
Lemma step_appends (st st' : list Result * text) (chk : text * check_cfg) :
  step st chk = Ret st' ->
  (exists r, fst st' = fst st ++ [r]
             /\ res_name r = fst chk
             /\ Some (res_type r) = type (snd chk)
             /\ Some (res_server r) = server (snd chk))
  /\ (snd st = FAIL -> snd st' = FAIL).
Proof.
  destruct st as [rs w], chk as [check_name cfg]. unfold Main.step.
  cbn [fst snd].
  destruct (type cfg) as [check_type|]; [|discriminate].
  destruct (server cfg) as [server_name|]; [|discriminate].
  cbn [item bind fst snd].
  destruct (if falsy_cfg _ then None else _) as [cfg'|].
  - destruct (dispatch _ _ _ _ _) as [result|e]; intros E; injection E as <-;
      cbn [fst snd]; (split; [eexists; repeat split|]); [|reflexivity].
    intros ->. pose proof (MainFacts.status_rank_range (status result)) as H.
    change (status_rank FAIL) with 2.
    destruct (status_rank (status result) >? 2) eqn:Eg; [lia|reflexivity].
  - intros E; injection E as <-; cbn [fst snd].
    split; [eexists; repeat split|reflexivity].
Qed.

Lemma loop_appends (CHECKS : list (text * check_cfg)) :
  forall st st',
    loop CHECKS st = Ret st' ->
    (exists added,
        fst st' = fst st ++ added
        /\ Forall2 (fun chk r =>
                      (res_name r = fst chk
                       /\ Some (res_type r) = type (snd chk))
                      /\ Some (res_server r) = server (snd chk))
             CHECKS added)
    /\ (snd st = FAIL -> snd st' = FAIL).
Proof.
  induction CHECKS as [|chk rest IH]; intros st st'; cbn [Main.loop].
  - intros E; injection E as <-. split; [|auto].
    exists []. rewrite app_nil_r. split; [reflexivity|constructor].
  - destruct (step st chk) as [st1|e] eqn:E1; [|discriminate].
    cbn [bind]. intros E.
    destruct (step_appends _ _ _ E1) as [(r & Hr & Hn & Ht & Hs) Hf].
    destruct (IH _ _ E) as [(added & Ha & HF) Hf'].
    split; [|auto].
    exists (r :: added). split.
    + rewrite Ha, Hr, <- app_assoc. reflexivity.
    + constructor; auto.
Qed.

(** A check that [step] answers with the record [r] and FAIL, whatever came
    before, leaves [r] among the results and FAIL as the worst status. *)
Lemma loop_hits (chk : text * check_cfg) (r : Result)
    (CHECKS : list (text * check_cfg)) :
  (forall st, step st chk = Ret (fst st ++ [r], FAIL)) ->
  In chk CHECKS ->
  forall st st', loop CHECKS st = Ret st' -> In r (fst st') /\ snd st' = FAIL.
Proof.
  intros Hstep. induction CHECKS as [|c rest IH]; intros Hin st st';
    [contradiction|].
  cbn [Main.loop].
  destruct (step st c) as [st1|e] eqn:E1; [|discriminate]. cbn [bind].
  intros E. destruct Hin as [-> | Hin].
  - rewrite Hstep in E1. injection E1 as <-.
    destruct (loop_appends _ _ _ E) as [(added & Ha & _) Hf].
    cbn [fst snd] in *. split; [|auto].
    rewrite Ha, !in_app_iff. left. right. now left.
  - exact (IH Hin _ _ E).
Qed.

Lemma main_hits (chk : text * check_cfg) (r : Result)
    (CHECKS : list (text * check_cfg)) (snap : Snapshot) (code : Z) :
  (forall st, step st chk = Ret (fst st ++ [r], FAIL)) ->
  In chk CHECKS ->
  main CHECKS = Ret (snap, code) ->
  In r (results snap) /\ global_status snap = FAIL /\ code = 2.
Proof.
  intros Hstep Hin. unfold Main.main.
  destruct setup as [[]|e]; [|discriminate]. cbn [bind].
  destruct (loop CHECKS ([], OK)) as [[rs w]|e] eqn:E; [|discriminate].
  cbn [bind].
  destruct (write_snapshot _) as [[]|e]; [|discriminate]. cbn [bind].
  intros H; injection H as <- <-. cbn [global_status results].
  destruct (loop_hits chk r CHECKS Hstep Hin _ _ E) as [H1 H2].
  cbn [fst snd] in *. subst w. auto.
Qed.

(** X18.  The results of a run of [main] are those of the registry, one per
    check and in its order: the names, the types and the servers of the
    results are the keys, the types and the servers of [CHECKS], whatever
    the checks answered or raised. *)
Theorem main_results_in_order (CHECKS : list (text * check_cfg))
    (snap : Snapshot) (code : Z) :
  main CHECKS = Ret (snap, code) ->
  map res_name (results snap) = map fst CHECKS
  /\ map (fun r => Some (res_type r)) (results snap)
     = map (fun chk => type (snd chk)) CHECKS
  /\ map (fun r => Some (res_server r)) (results snap)
     = map (fun chk => server (snd chk)) CHECKS.
Proof.
  unfold Main.main.
  destruct setup as [[]|e]; [|discriminate]. cbn [bind].
  destruct (loop CHECKS ([], OK)) as [[rs w]|e] eqn:E; [|discriminate].
  cbn [bind].
  destruct (write_snapshot _) as [[]|e]; [|discriminate]. cbn [bind].
  intros H; injection H as <- <-. cbn [results].
  destruct (loop_appends _ _ _ E) as [(added & Ha & HF) _].
  cbn [fst app] in Ha. subst added.
  apply Forall2_and in HF as [HF H3]. apply Forall2_and in HF as [H1 H2].
  split; [|split].
  - exact (map_Forall2 fst res_name _ _ H1).
  - exact (map_Forall2 (fun chk => type (snd chk))
             (fun r => Some (res_type r)) _ _ H2).
  - exact (map_Forall2 (fun chk => server (snd chk))
             (fun r => Some (res_server r)) _ _ H3).
Qed.

(** X19.  A check on a server that [SERVERS] lacks (or maps to an empty
    dictionary) calls no runner: its result is FAIL with the error
    "Servidor '<server>' no definido en SERVERS", without metrics, raw
    file or duration, and the run ends with the global status FAIL and
    the exit code 2. *)
Theorem main_missing_server (CHECKS : list (text * check_cfg))
    (snap : Snapshot) (code : Z)
    (chk : text * check_cfg) (check_type server_name : text) :
  main CHECKS = Ret (snap, code) ->
  In chk CHECKS ->
  type (snd chk) = Some check_type -> server (snd chk) = Some server_name ->
  falsy_cfg (servers_get SERVERS server_name) = true ->
  In {| res_name := fst chk; res_type := check_type;
        res_server := server_name; res_status := FAIL; res_metrics := [];
        res_details :=
          [(T "error",
            VStr (T "Servidor '" ++ server_name
                  ++ T "' no definido en SERVERS"))];
        res_raw_file := None |} (results snap)
  /\ global_status snap = FAIL /\ code = 2.
Proof.
  intros Hmain Hin Ht Hs Hf.
  refine (main_hits chk _ CHECKS snap code _ Hin Hmain).
  intros [rs w]. destruct chk as [check_name cfg]. cbn [fst snd] in *.
  unfold Main.step. rewrite Ht, Hs. cbn [item bind]. rewrite Hf.
  reflexivity.
Qed.

(** X20.  A check whose dispatch raises (its runner, an unsupported type,
    an empty password, a missing key of a pod check) does not stop the
    run: its result is FAIL with the text of the exception as error and
    the duration, without metrics or raw file, and the run ends with the
    global status FAIL and the exit code 2. *)
Theorem main_check_exception (CHECKS : list (text * check_cfg))
    (snap : Snapshot) (code : Z)
    (chk : text * check_cfg) (check_type server_name : text)
    (cfg : ssh_cfg) (e : exn) :
  main CHECKS = Ret (snap, code) ->
  In chk CHECKS ->
  type (snd chk) = Some check_type -> server (snd chk) = Some server_name ->
  servers_get SERVERS server_name = Some cfg ->
  falsy_cfg (Some cfg) = false ->
  dispatch (fst chk) check_type server_name (snd chk) cfg = Raise e ->
  In {| res_name := fst chk; res_type := check_type;
        res_server := server_name; res_status := FAIL; res_metrics := [];
        res_details := [(T "error", VStr (exn_msg e));
                        (T "duration_sec", VNum (elapsed (fst chk)))];
        res_raw_file := None |} (results snap)
  /\ global_status snap = FAIL /\ code = 2.
Proof.
  intros Hmain Hin Ht Hs Hg Hf Hd.
  refine (main_hits chk _ CHECKS snap code _ Hin Hmain).
  intros [rs w]. destruct chk as [check_name c]. cbn [fst snd] in *.
  unfold Main.step. rewrite Ht, Hs. cbn [item bind]. rewrite Hg, Hf, Hd.
  reflexivity.
Qed.

(** X21.  What [main] refuses before any runner is called, whatever the
    runners would answer: a type that is none of the three is "Tipo de
    check no soportado: <type>", a disk check on a server without password
    or with an empty one is "Password vacio para <server>..." (with its
    accents), and a pod check without namespace is the KeyError
    'namespace'. *)
Theorem dispatch_guards (check_name check_type server_name : text)
    (c : check_cfg) (cfg : ssh_cfg) :
  (text_eqb check_type (T "k8s_dis_nci") = false ->
   text_eqb check_type (T "nelmon_check") = false ->
   text_eqb check_type (T "boundary") = false ->
   dispatch check_name check_type server_name c cfg
   = Raise (Exn ERuntime (T "Tipo de check no soportado: " ++ check_type)))
  /\ (no_password cfg = true ->
      dispatch check_name (T "nelmon_check") server_name c cfg
      = Raise (Exn ERuntime
                 (T "Password vac" ++ [i_acute] ++ T "o para " ++ server_name
                  ++ T ". Defin" ++ [i_acute]
                  ++ T " la variable de entorno NELMON_PASS o config.")))
  /\ (namespace c = None ->
      dispatch check_name (T "k8s_dis_nci") server_name c cfg
      = Raise (Exn EKey (T "'namespace'"))).
Proof.
  split; [|split].
  - intros H1 H2 H3. unfold Main.dispatch. rewrite H1, H2, H3. reflexivity.
  - intros H. unfold Main.dispatch. cbn [text_eqb]. 
    change (text_eqb (T "nelmon_check") (T "k8s_dis_nci")) with false.
    change (text_eqb (T "nelmon_check") (T "nelmon_check")) with true.
    cbv iota. rewrite H. reflexivity.
  - intros H. unfold Main.dispatch.
    change (text_eqb (T "k8s_dis_nci") (T "k8s_dis_nci")) with true.
    cbv iota. rewrite H. reflexivity.
Qed.

(** X22.  A registry whose checks all declare type and server is run to the
    end whatever its checks do, when the setup and the write of the
    snapshot succeed: [main] ends with a snapshot and an exit code among
    0, 1 and 2, and the code is 0 exactly when every result is OK. *)
Theorem main_runs_to_the_end (CHECKS : list (text * check_cfg)) :
  declared CHECKS -> setup = Ret tt ->
  (forall snap, write_snapshot snap = Ret tt) ->
  exists snap code,
    main CHECKS = Ret (snap, code)
    /\ 0 <= code <= 2
    /\ (code = 0 <-> Forall (fun r => res_status r = OK) (results snap)).
Proof.
  intros Hd Hs Hw. unfold Main.main. rewrite Hs. cbn [bind].
  destruct (MainFacts.loop_returns run_k8s_dis_nci run_nelmon_check
              run_boundary elapsed SERVERS CHECKS Hd ([], OK)) as [[rs w] E].
  rewrite E. cbn [bind]. rewrite Hw. cbn [bind].
  eexists. eexists. split; [reflexivity|]. cbn [results].
  assert (H0 : agrees ([] : list Result, OK)) by (split; [reflexivity|now left]).
  destruct (MainFacts.loop_agrees _ _ _ _ _ _ _ _ E H0) as [[H1 _] _].
  cbn [fst snd] in H1. split; [apply MainFacts.status_rank_range|].
  rewrite H1. split.
  - intros Hz. apply Forall_forall. exact (MainFacts.max_rank_zero rs Hz).
  - clear. induction 1 as [|r l Hr _ IH]; simpl; [reflexivity|].
    rewrite Hr, IH. reflexivity.
Qed.

(** X23.  A check without a type or without a server stops the whole run:
    the KeyError is raised outside the [try] of its check, so [main] raises
    it and writes no snapshot, whatever the other checks are. *)
Theorem main_undeclared_check (CHECKS : list (text * check_cfg))
    (chk : text * check_cfg) :
  In chk CHECKS ->
  type (snd chk) = None \/ server (snd chk) = None ->
  setup = Ret tt ->
  exists e, main CHECKS = Raise e /\ exn_cls e = EKey.
Proof.
  intros Hin Hu Hs. unfold Main.main. rewrite Hs. cbn [bind].
  assert (H : forall st, exists e,
             loop CHECKS st = Raise e /\ exn_cls e = EKey).
  { induction CHECKS as [|c rest IH]; [contradiction|]. intros st.
    cbn [Main.loop].
    assert (Hstep : (exists st1, step st c = Ret st1)
                    \/ (exists e, step st c = Raise e /\ exn_cls e = EKey)).
    { destruct st as [rs w], c as [check_name cfg]. unfold Main.step.
      destruct (type cfg); [|right; eexists; split; reflexivity].
      destruct (server cfg); [|right; eexists; split; reflexivity].
      cbn [item bind]. left.
      destruct (if falsy_cfg _ then None else _); [|eauto].
      destruct (dispatch _ _ _ _ _); eauto. }
    destruct Hin as [-> | Hin].
    - destruct st as [rs w], chk as [check_name cfg]. cbn [snd] in Hu.
      unfold Main.step.
      destruct Hu as [Hu | Hu].
      + rewrite Hu. eexists. split; reflexivity.
      + rewrite Hu. destruct (type cfg); eexists; split; reflexivity.
    - destruct Hstep as [[st1 E1] | (e & E1 & He)]; rewrite E1; cbn [bind].
      + exact (IH Hin st1).
      + eauto. }
  destruct (H ([], OK)) as (e & E & He). rewrite E. cbn [bind]. eauto.
Qed.

End Runs.

Lemma main_results_in_order_witness :
  exists snap code,
    MoreSamples.main_of MoreSamples.odd_checks = Ret (snap, code)
    /\ map res_name (results snap)
       = [T "ping_1"; T "nelmon_2"; T "pods"; T "boundary"].
Proof.
  eexists. eexists. split; [reflexivity|].
  exact (proj1 (main_results_in_order MoreSamples.ok_k8s MoreSamples.ok_run
                  MoreSamples.ok_run (Ret tt) MoreSamples.no_time Samples.t0
                  MoreSamples.written MoreSamples.two_servers
                  MoreSamples.odd_checks _ _ eq_refl)).
Defined.

Lemma main_missing_server_witness :
  exists snap code,
    MoreSamples.main_of MoreSamples.lost_checks = Ret (snap, code)
    /\ global_status snap = FAIL /\ code = 2.
Proof.
  eexists. eexists. split; [reflexivity|].
  refine (proj2 (main_missing_server MoreSamples.ok_k8s MoreSamples.ok_run
                   MoreSamples.ok_run (Ret tt) MoreSamples.no_time Samples.t0
                   MoreSamples.written MoreSamples.two_servers
                   MoreSamples.lost_checks _ _
                   (T "nelmon_9", MoreSamples.check_of "nelmon_check" "s9")
                   (T "nelmon_check") (T "s9") eq_refl _ eq_refl eq_refl
                   eq_refl)).
  right. left. reflexivity.
Defined.

Lemma main_check_exception_witness :
  exists snap code,
    MoreSamples.main_of MoreSamples.odd_checks = Ret (snap, code)
    /\ global_status snap = FAIL /\ code = 2.
Proof.
  eexists. eexists. split; [reflexivity|].
  refine (proj2 (main_check_exception MoreSamples.ok_k8s MoreSamples.ok_run
                   MoreSamples.ok_run (Ret tt) MoreSamples.no_time Samples.t0
                   MoreSamples.written MoreSamples.two_servers
                   MoreSamples.odd_checks _ _
                   (T "ping_1", MoreSamples.check_of "ping" "s1")
                   (T "ping") (T "s1") Samples.server_1
                   (Exn ERuntime (T "Tipo de check no soportado: ping"))
                   eq_refl _ eq_refl eq_refl eq_refl eq_refl eq_refl)).
  left. reflexivity.
Defined.

Lemma dispatch_guards_witness :
  Main.dispatch MoreSamples.ok_k8s MoreSamples.ok_run MoreSamples.ok_run
    (T "nelmon_2") (T "nelmon_check") (T "s2")
    (MoreSamples.check_of "nelmon_check" "s2") MoreSamples.server_2
  = Raise (Exn ERuntime
             (T "Password vac" ++ [i_acute] ++ T "o para s2. Defin"
              ++ [i_acute]
              ++ T " la variable de entorno NELMON_PASS o config.")).
Proof.
  exact (proj1 (proj2 (dispatch_guards MoreSamples.ok_k8s MoreSamples.ok_run
                         MoreSamples.ok_run (T "nelmon_2") (T "nelmon_check")
                         (T "s2") (MoreSamples.check_of "nelmon_check" "s2")
                         MoreSamples.server_2)) eq_refl).
Defined.

Lemma main_runs_to_the_end_witness :
  exists snap code,
    MoreSamples.main_of MoreSamples.odd_checks = Ret (snap, code)
    /\ 0 <= code <= 2.
Proof.
  destruct (main_runs_to_the_end MoreSamples.ok_k8s MoreSamples.ok_run
              MoreSamples.ok_run (Ret tt) MoreSamples.no_time Samples.t0
              MoreSamples.written MoreSamples.two_servers
              MoreSamples.odd_checks)
    as (snap & code & E & Hc & _).
  - repeat constructor; discriminate.
  - reflexivity.
  - reflexivity.
  - exists snap, code. split; [exact E|exact Hc].
Defined.

Lemma main_undeclared_check_witness :
  exists e,
    MoreSamples.main_of MoreSamples.untyped_checks = Raise e
    /\ exn_cls e = EKey.
Proof.
  refine (main_undeclared_check MoreSamples.ok_k8s MoreSamples.ok_run
            MoreSamples.ok_run (Ret tt) MoreSamples.no_time Samples.t0
            MoreSamples.written MoreSamples.two_servers
            MoreSamples.untyped_checks
            (T "nameless",
             {| type := None; server := Some (T "s1");
                namespace := None; grep_patterns := None |})
            _ (or_introl eq_refl) eq_refl).
  right. left. reflexivity.
Defined.

End MainMore.
